(** * Allmaps render core: viewport, texture atlas, tile fetch, annotation
      schema and tile-server guard, embedded shallowly.

    Numbers of the viewport code are JavaScript doubles; they are embedded
    as real numbers ([R]), so every identity proved below is the exact
    identity that the floating-point code approximates.  Where the claim
    depends on IEEE special values (the tile-server guard) the embedding
    uses [spec_float]; where the code only handles integers (tile grid,
    texture atlas) it uses [Z] and [Q]. *)

From stdpp Require Import gmap strings.
From Stdlib Require Import Reals Lra Lia ZArith QArith List String Permutation.
From Stdlib Require Import Floats.SpecFloat Qround Ascii.
Import ListNotations.

(* ===================================================================== *)
(** * Part I: definitions                                                 *)
(* ===================================================================== *)

(** ** JavaScript prelude *)

Module JS.

(** Outcome of a call that may throw: [Throw msg] is [throw new Error(msg)]. *)
Inductive result (A : Type) : Type :=
| Return (a : A)
| Throw (msg : string).
Arguments Return {A} a.
Arguments Throw {A} msg.

(** [Math.round]: the nearest integer, ties towards plus infinity. *)
Definition Math_round (x : R) : R := IZR (Zfloor (x + / 2)).

(** A parameter [p = d] of a function: [undefined] selects the default. *)
Definition orDefault {A} (d : A) (o : option A) : A :=
  match o with
  | Some a => a
  | None => d
  end.

End JS.

(** ** Geometry helpers of [@allmaps/stdlib] *)

Module Geometry.
Import JS.
Local Open Scope R_scope.

Definition Point : Type := R * R.
Definition Size : Type := R * R.
Definition Bbox : Type := R * R * R * R.
Definition Ring : Type := list Point.
Definition Polygon : Type := list Ring.
Definition Rectangle : Type := list Point.

Inductive Fit := contain | cover.

Inductive AddOrSubstract := add | substract.

(** Modelled from the spec: [computeBbox] of @allmaps/stdlib is not among
    the sources; "bbox" of a ring is the smallest axis-aligned box
    [minX, minY, maxX, maxY] around its points (section 3, 4.2).  The reals
    have no infinities, so the empty ring, which the theorems exclude,
    yields the dummy box at the origin. *)
Definition computeBbox (points : list Point) : Bbox :=
  match points with
  | [] => (0, 0, 0, 0)
  | p :: rest =>
      fold_left
        (fun '(x0, y0, x1, y1) '(x, y) =>
           (Rmin x0 x, Rmin y0 y, Rmax x1 x, Rmax y1 y))
        rest (fst p, snd p, fst p, snd p)
  end.

(** Modelled from the spec: [bboxToCenter], [bboxToSize], [bboxToRectangle]
    of @allmaps/stdlib are not among the sources; the names and section 8
    ("P's bbox center") fix them. *)
Definition bboxToCenter (bbox : Bbox) : Point :=
  let '(x0, y0, x1, y1) := bbox in ((x0 + x1) / 2, (y0 + y1) / 2).

Definition bboxToSize (bbox : Bbox) : Size :=
  let '(x0, y0, x1, y1) := bbox in (x1 - x0, y1 - y0).

Definition bboxToRectangle (bbox : Bbox) : Rectangle :=
  let '(x0, y0, x1, y1) := bbox in [(x0, y0); (x1, y0); (x1, y1); (x0, y1)].

(** Modelled from the spec: [sizesToScale] of @allmaps/stdlib is not among
    the sources.  Glossary: "contain (map fits entirely inside viewport) vs
    cover (viewport fully covered by map)"; scenario E: a 100x100 square in
    a 200x100 viewport has scale 1.0 ("square fits height"), the larger of
    the two per-axis ratios; "cover" takes the smaller. *)
Definition sizesToScale (size0 size1 : Size) (fit : Fit) : R :=
  let scale0 := fst size0 / fst size1 in
  let scale1 := snd size0 / snd size1 in
  match fit with
  | contain => Rmax scale0 scale1
  | cover => Rmin scale0 scale1
  end.

(** Modelled from the spec: the remaining helpers of @allmaps/stdlib used by
    the viewport are not among the sources; each is the operation its name
    says, as used in section 3 ("canvasSize = viewportSize * dpr", "rotated
    rectangle centered at center with size viewportSize * scale"). *)
Definition scaleSize (size : Size) (scale : R) : Size :=
  (fst size * scale, snd size * scale).

Definition scalePoint (point : Point) (scale : R) : Point :=
  (fst point * scale, snd point * scale).

Definition scalePoints (points : list Point) (scale : R) : list Point :=
  map (fun p => scalePoint p scale) points.

Definition translatePoint (point by_ : Point) (op : AddOrSubstract) : Point :=
  match op with
  | add => (fst point + fst by_, snd point + snd by_)
  | substract => (fst point - fst by_, snd point - snd by_)
  end.

Definition translatePoints (points : list Point) (by_ : Point)
    (op : AddOrSubstract) : list Point :=
  map (fun p => translatePoint p by_ op) points.

(** Counter-clockwise rotation about the origin; [angle] defaults to 0. *)
Definition rotatePoint (point : Point) (angle : option R) : Point :=
  let a := orDefault 0 angle in
  (fst point * cos a - snd point * sin a,
   fst point * sin a + snd point * cos a).

Definition rotatePoints (points : list Point) (angle : option R) : list Point :=
  map (fun p => rotatePoint p angle) points.

Definition sizeToResolution (size : Size) : R := fst size * snd size.

Definition sizeToBbox (size : Size) : Bbox := (0, 0, fst size, snd size).

Definition sizeToCenter (size : Size) : Point := (fst size / 2, snd size / 2).

Definition sizeToRectangle (size : Size) : Rectangle :=
  [(0, 0); (fst size, 0); (fst size, snd size); (0, snd size)].

Definition sumX (points : list Point) : R :=
  fold_right (fun p acc => fst p + acc) 0 points.

Definition sumY (points : list Point) : R :=
  fold_right (fun p acc => snd p + acc) 0 points.

(** [midPoint(...points)]: the mean of the points. *)
Definition midPoint (points : list Point) : Point :=
  (sumX points / INR (List.length points),
   sumY points / INR (List.length points)).

Definition bufferBbox (bbox : Bbox) (dist0 dist1 : R) : Bbox :=
  let '(x0, y0, x1, y1) := bbox in (x0 - dist0, y0 - dist1, x1 + dist0, y1 + dist1).

Definition bufferBboxByRatio (bbox : Bbox) (ratio : R) : Bbox :=
  let size := bboxToSize bbox in
  bufferBbox bbox (fst size * ratio) (snd size * ratio).

(** Modelled from the spec: [webMercatorToLonLat] of @allmaps/stdlib is not
    among the sources; section 6, "unproject(projectedGeo) -> lonLat
    (default Mercator)": the inverse spherical Mercator projection, in
    degrees. *)
Definition webMercatorToLonLat (point : Point) : Point :=
  let halfWorld := 20037508.34 in
  let lon := fst point / halfWorld * 180 in
  let lat := snd point / halfWorld * 180 in
  (lon, 180 / PI * (2 * atan (exp (lat * PI / 180)) - PI / 2)).

End Geometry.

(** ** Affine transforms of [shared/matrix] *)

Module Matrix.
Import Geometry.
Local Open Scope R_scope.

(** [Transform = [a, b, c, d, e, f]]: the point [(x, y)] goes to
    [(a x + c y + e, b x + d y + f)]. *)
Record Transform : Type := mkTransform
  { t0 : R; t1 : R; t2 : R; t3 : R; t4 : R; t5 : R }.

(** The initial value [[1, 0, 0, 1, 0, 0]] of the four transform fields. *)
Definition identityTransform : Transform := mkTransform 1 0 0 1 0 0.

(** Modelled from the spec: [composeTransform] of shared/matrix is not among
    the sources.  Section 4.3: "translate by -center, rotate by -rotation,
    scale by 1/scale (y negated to flip handedness), translate by
    viewportCenter", with the arguments in the order the viewport passes
    them: [(dx1, dy1, sx, sy, angle, dx2, dy2)] first translates by
    [(dx2, dy2)], then rotates by [angle], scales by [(sx, sy)] and
    translates by [(dx1, dy1)]. *)
Definition composeTransform (dx1 dy1 sx sy angle dx2 dy2 : R) : Transform :=
  let s := sin angle in
  let c := cos angle in
  mkTransform (sx * c) (sy * s) (- sx * s) (sy * c)
    (dx2 * sx * c - dy2 * sx * s + dx1)
    (dx2 * sy * s + dy2 * sy * c + dy1).

(** Modelled from the spec: [applyTransform] of shared/matrix is not among
    the sources; it applies the affine map to a point. *)
Definition applyTransform (t : Transform) (p : Point) : Point :=
  (t0 t * fst p + t2 t * snd p + t4 t, t1 t * fst p + t3 t * snd p + t5 t).

(** Modelled from the spec: [invertTransform] of shared/matrix is not among
    the sources; section 4.3: "All transforms must be composable and
    invertible": the inverse affine map, by the adjugate over the
    determinant. *)
Definition determinant (t : Transform) : R := t0 t * t3 t - t1 t * t2 t.

Definition invertTransform (t : Transform) : Transform :=
  let det := determinant t in
  mkTransform (t3 t / det) (- t1 t / det) (- t2 t / det) (t0 t / det)
    ((t2 t * t5 t - t3 t * t4 t) / det)
    (- (t0 t * t5 t - t1 t * t4 t) / det).

(** The composite of two transforms, for the statements about inverses:
    [multiplyTransform t u] applies [u] first and [t] second. *)
Definition multiplyTransform (t u : Transform) : Transform :=
  mkTransform
    (t0 t * t0 u + t2 t * t1 u)
    (t1 t * t0 u + t3 t * t1 u)
    (t0 t * t2 u + t2 t * t3 u)
    (t1 t * t2 u + t3 t * t3 u)
    (t0 t * t4 u + t2 t * t5 u + t4 t)
    (t1 t * t4 u + t3 t * t5 u + t5 t).

End Matrix.

(** ** The viewport ([viewport/Viewport.ts]) *)

Module Render.
Import JS Geometry Matrix.
Local Open Scope R_scope.

Record Viewport : Type := mkViewport
  { geoCenter : Point;
    geoRectangle : Rectangle;
    geoSize : Size;
    geoResolution : R;
    geoRectangleBbox : Bbox;
    projectedGeoCenter : Point;
    projectedGeoRectangle : Rectangle;
    projectedGeoSize : Size;
    projectedGeoResolution : R;
    projectedGeoRectangleBbox : Bbox;
    rotation : R;
    projectedGeoPerViewportScale : R;
    viewportCenter : Point;
    viewportRectangle : Rectangle;
    viewportSize : Size;
    viewportResolution : R;
    viewportBbox : Bbox;
    devicePixelRatio : R;
    canvasCenter : Point;
    canvasRectangle : Rectangle;
    canvasSize : Size;
    canvasResolution : R;
    canvasBbox : Bbox;
    projectedGeoPerCanvasScale : R;
    projectedGeoToViewportTransform : Transform;
    projectedGeoToCanvasTransform : Transform;
    projectedGeoToClipTransform : Transform;
    viewportToClipTransform : Transform }.

(** [computeProjectedGeoRectangle]: the rectangle of the given size, scaled,
    centered, rotated and translated to the center. *)
Definition computeProjectedGeoRectangle (viewportSize : Size)
    (projectedGeoPerViewportScale rotation : R) (projectedGeoCenter : Point)
    : Rectangle :=
  let scaled := scaleSize viewportSize projectedGeoPerViewportScale in
  let rectangle := sizeToRectangle scaled in
  let centered := translatePoints rectangle (midPoint rectangle) substract in
  let rotated := rotatePoints centered (Some rotation) in
  let translated := translatePoints rotated projectedGeoCenter add in
  translated.

Definition composeProjectedGeoToViewportTransform (viewportCenter : Point)
    (projectedGeoPerViewportScale rotation : R) (projectedGeoCenter : Point)
    : Transform :=
  composeTransform
    (fst viewportCenter) (snd viewportCenter)
    (1 / projectedGeoPerViewportScale)
    (- 1 / projectedGeoPerViewportScale)
    (- rotation)
    (- fst projectedGeoCenter) (- snd projectedGeoCenter).

Definition composeProjectedGeoToCanvasTransform (canvasCenter : Point)
    (projectedGeoPerCanvasScale rotation : R) (projectedGeoCenter : Point)
    : Transform :=
  composeTransform
    (fst canvasCenter) (snd canvasCenter)
    (1 / projectedGeoPerCanvasScale)
    (- 1 / projectedGeoPerCanvasScale)
    (- rotation)
    (- fst projectedGeoCenter) (- snd projectedGeoCenter).

Definition composeProjectedGeoToClipTransform (viewportSize : Size)
    (projectedGeoPerViewportScale rotation : R) (projectedGeoCenter : Point)
    : Transform :=
  composeTransform 0 0
    (2 / (projectedGeoPerViewportScale * fst viewportSize))
    (2 / (projectedGeoPerViewportScale * snd viewportSize))
    (- rotation)
    (- fst projectedGeoCenter) (- snd projectedGeoCenter).

Definition composeViewportToClipTransform (viewportSize : Size)
    (viewportCenter : Point) : Transform :=
  composeTransform 0 0
    (2 / fst viewportSize)
    (- 2 / snd viewportSize)
    0
    (- fst viewportCenter) (- snd viewportCenter).

(** The constructor.  [rotation] and [devicePixelRatio] are optional
    parameters with defaults 0 and 1.  Every field is written here, in the
    order of the source; later fields read the earlier ones ([this.x]). *)
Definition new_Viewport (viewportSize0 : Size) (projectedGeoCenter0 : Point)
    (projectedGeoPerViewportScale0 : R) (rotation0 devicePixelRatio0 : option R)
    : Viewport :=
  let this_projectedGeoCenter := projectedGeoCenter0 in
  let this_projectedGeoPerViewportScale := projectedGeoPerViewportScale0 in
  let this_rotation := orDefault 0 rotation0 in
  let this_viewportSize :=
    (Math_round (fst viewportSize0), Math_round (snd viewportSize0)) in
  let this_devicePixelRatio := orDefault 1 devicePixelRatio0 in
  let this_projectedGeoRectangle :=
    computeProjectedGeoRectangle this_viewportSize
      this_projectedGeoPerViewportScale this_rotation this_projectedGeoCenter in
  let this_projectedGeoRectangleBbox := computeBbox this_projectedGeoRectangle in
  let this_projectedGeoSize :=
    scaleSize this_viewportSize projectedGeoPerViewportScale0 in
  let this_projectedGeoResolution := sizeToResolution this_projectedGeoSize in
  let this_geoCenter := webMercatorToLonLat this_projectedGeoCenter in
  let this_geoRectangle := map webMercatorToLonLat this_projectedGeoRectangle in
  let this_geoRectangleBbox := computeBbox this_geoRectangle in
  let this_geoSize := bboxToSize this_geoRectangleBbox in
  let this_geoResolution := sizeToResolution this_geoSize in
  let this_viewportResolution := sizeToResolution this_viewportSize in
  let this_viewportCenter := sizeToCenter this_viewportSize in
  let this_viewportBbox := sizeToBbox this_viewportSize in
  let this_viewportRectangle := bboxToRectangle this_viewportBbox in
  let this_canvasCenter := scalePoint this_viewportCenter this_devicePixelRatio in
  let this_canvasSize := scaleSize this_viewportSize this_devicePixelRatio in
  let this_canvasResolution := sizeToResolution this_canvasSize in
  let this_canvasBbox := sizeToBbox this_canvasSize in
  let this_canvasRectangle := bboxToRectangle this_canvasBbox in
  let this_projectedGeoPerCanvasScale :=
    this_projectedGeoPerViewportScale / this_devicePixelRatio in
  {| geoCenter := this_geoCenter;
     geoRectangle := this_geoRectangle;
     geoSize := this_geoSize;
     geoResolution := this_geoResolution;
     geoRectangleBbox := this_geoRectangleBbox;
     projectedGeoCenter := this_projectedGeoCenter;
     projectedGeoRectangle := this_projectedGeoRectangle;
     projectedGeoSize := this_projectedGeoSize;
     projectedGeoResolution := this_projectedGeoResolution;
     projectedGeoRectangleBbox := this_projectedGeoRectangleBbox;
     rotation := this_rotation;
     projectedGeoPerViewportScale := this_projectedGeoPerViewportScale;
     viewportCenter := this_viewportCenter;
     viewportRectangle := this_viewportRectangle;
     viewportSize := this_viewportSize;
     viewportResolution := this_viewportResolution;
     viewportBbox := this_viewportBbox;
     devicePixelRatio := this_devicePixelRatio;
     canvasCenter := this_canvasCenter;
     canvasRectangle := this_canvasRectangle;
     canvasSize := this_canvasSize;
     canvasResolution := this_canvasResolution;
     canvasBbox := this_canvasBbox;
     projectedGeoPerCanvasScale := this_projectedGeoPerCanvasScale;
     projectedGeoToViewportTransform :=
       composeProjectedGeoToViewportTransform this_viewportCenter
         this_projectedGeoPerViewportScale this_rotation this_projectedGeoCenter;
     projectedGeoToCanvasTransform :=
       composeProjectedGeoToCanvasTransform this_canvasCenter
         this_projectedGeoPerCanvasScale this_rotation this_projectedGeoCenter;
     projectedGeoToClipTransform :=
       composeProjectedGeoToClipTransform this_viewportSize
         this_projectedGeoPerViewportScale this_rotation this_projectedGeoCenter;
     viewportToClipTransform :=
       composeViewportToClipTransform this_viewportSize this_viewportCenter |}.

(** [rotation ? -rotation : undefined]: [undefined] and [0] are falsy. *)
Definition negatedIfTruthy (rotation : option R) : option R :=
  match rotation with
  | Some r => if Req_dec_T r 0 then None else Some (- r)
  | None => None
  end.

(** [projectedGeoPolygon[0]] of an array without rings is [undefined], and
    reading its points raises a [TypeError]. *)
Definition typeError : string := "TypeError".

Definition fromSizeAndPolygon (viewportSize : Size) (projectedGeoPolygon : Polygon)
    (fit : option Fit) (rotation devicePixelRatio zoom : option R)
    : result Viewport :=
  match projectedGeoPolygon with
  | [] => Throw typeError
  | projectedGeoRing :: _ =>
      let rotatedProjectedGeoRing :=
        rotatePoints projectedGeoRing (negatedIfTruthy rotation) in
      let rotatedProjectedGeoBbox := computeBbox rotatedProjectedGeoRing in
      let rotatedProjectedGeoSize := bboxToSize rotatedProjectedGeoBbox in
      let rotatedProjectedGeoCenter := bboxToCenter rotatedProjectedGeoBbox in
      let projectedGeoPerViewportScale :=
        sizesToScale rotatedProjectedGeoSize viewportSize
          (orDefault contain fit) in
      let projectedGeoCenter := rotatePoint rotatedProjectedGeoCenter rotation in
      Return (new_Viewport viewportSize projectedGeoCenter
                (projectedGeoPerViewportScale * orDefault 1 zoom)
                rotation devicePixelRatio)
  end.

Definition fromScaleAndPolygon (projectedGeoPolygon : Polygon)
    (projectedGeoPerViewportScale : R) (rotation devicePixelRatio zoom : option R)
    : result Viewport :=
  match projectedGeoPolygon with
  | [] => Throw typeError
  | projectedGeoRing :: _ =>
      let viewportRing :=
        scalePoints (rotatePoints projectedGeoRing (negatedIfTruthy rotation))
          (1 / projectedGeoPerViewportScale) in
      let viewportBbox := computeBbox viewportRing in
      let viewportSize := bboxToSize viewportBbox in
      let viewportCenter := bboxToCenter viewportBbox in
      let projectedGeoCenter :=
        rotatePoint (scalePoint viewportCenter projectedGeoPerViewportScale)
          rotation in
      Return (new_Viewport viewportSize projectedGeoCenter
                (projectedGeoPerViewportScale * orDefault 1 zoom)
                rotation devicePixelRatio)
  end.

(** [getProjectedGeoBufferedRectangle]: a method; it reads [this] only. *)
Definition getProjectedGeoBufferedRectangle (this : Viewport)
    (bufferFraction : R) : Rectangle :=
  let viewportBufferedBbox := bufferBboxByRatio (viewportBbox this) bufferFraction in
  let viewportBufferedRectangle := bboxToRectangle viewportBufferedBbox in
  map (fun point =>
         applyTransform (invertTransform (projectedGeoToViewportTransform this))
           point)
      viewportBufferedRectangle.

(** ** Viewports from a list of warped maps *)

(** The part of a warped map the viewport factories read. *)
Record WarpedMap : Type := mkWarpedMap
  { mapId : string;
    visible : bool;
    projectedGeoMask : Ring }.

Section Maps.

(** The convex-hull routine of @allmaps/stdlib, which gives the ring around
    the points it is handed; the factories only pass its result on. *)
Variable convexHull : list Point -> Ring.

(** Modelled from the spec: [WarpedMapList.getWarpedMaps] is not among the
    sources.  Section 3: the list is a "mapping mapId -> WarpedMap"; the
    factories' [mapIds] are the "IDs of the maps to include. Set to
    'undefined' to include all maps." *)
Definition getWarpedMaps (warpedMapList : gmap string WarpedMap)
    (mapIds : option (list string)) : list WarpedMap :=
  match mapIds with
  | None => (map_to_list warpedMapList).*2
  | Some ids => omap (fun id => warpedMapList !! id) ids
  end.

(** Modelled from the spec: [WarpedMapList.getProjectedConvexHull] is not
    among the sources.  README: "Return the convex hull of all visible maps
    in this list, in projected geospatial coordinates.  Returns undefined if
    the list is empty"; section 3: "a visibility bit per map".  The README
    names no other case without a hull. *)
Definition getProjectedConvexHull (warpedMapList : gmap string WarpedMap)
    (mapIds : option (list string)) : option Ring :=
  match map_to_list warpedMapList with
  | [] => None
  | _ :: _ =>
      let projectedGeoMaskPoints :=
        List.concat (map projectedGeoMask
                  (List.filter visible (getWarpedMaps warpedMapList mapIds))) in
      Some (convexHull projectedGeoMaskPoints)
  end.

Definition noConvexHullError : string :=
  "WarpedMapList has no projected convex hull. Possibly because it is empty.".

Definition fromSizeAndMaps (viewportSize : Size)
    (warpedMapList : gmap string WarpedMap) (mapIds : option (list string))
    (fit : option Fit) (rotation devicePixelRatio zoom : option R)
    : result Viewport :=
  match getProjectedConvexHull warpedMapList mapIds with
  | None => Throw noConvexHullError
  | Some projectedGeoConvexHull =>
      fromSizeAndPolygon viewportSize [projectedGeoConvexHull]
        (Some (orDefault contain fit)) rotation devicePixelRatio zoom
  end.

Definition fromScaleAndMaps (projectedGeoPerViewportScale : R)
    (warpedMapList : gmap string WarpedMap) (mapIds : list string)
    (rotation devicePixelRatio zoom : option R) : result Viewport :=
  match getProjectedConvexHull warpedMapList (Some mapIds) with
  | None => Throw noConvexHullError
  | Some projectedGeoConvexHull =>
      fromScaleAndPolygon [projectedGeoConvexHull] projectedGeoPerViewportScale
        rotation devicePixelRatio zoom
  end.

End Maps.

(** ** Specification vocabulary for the viewport claims *)

(** The rectangle the specification describes: the axis-aligned rectangle
    of size [size * scale] centered at the origin, rotated by [rot] and
    translated to [center]; corners in the order of [sizeToRectangle]. *)
Definition rotatedRectangleSpec (size : Size) (scale rot : R) (center : Point)
    : Rectangle :=
  let w := fst size * scale in
  let h := snd size * scale in
  map (fun d =>
         (fst d * cos rot - snd d * sin rot + fst center,
          fst d * sin rot + snd d * cos rot + snd center))
      [(- w / 2, - h / 2); (w / 2, - h / 2); (w / 2, h / 2); (- w / 2, h / 2)].

(** A point lies in the (possibly rotated, possibly degenerate) rectangle
    with corners [c0; c1; c2; c3] when it is [c0] plus a fraction of the
    side [c0 c1] plus a fraction of the side [c0 c3]. *)
Definition inRectangle (rect : Rectangle) (p : Point) : Prop :=
  match rect with
  | [c0; c1; c2; c3] =>
      exists s t : R,
        0 <= s <= 1 /\ 0 <= t <= 1 /\
        fst p = fst c0 + s * (fst c1 - fst c0) + t * (fst c3 - fst c0) /\
        snd p = snd c0 + s * (snd c1 - snd c0) + t * (snd c3 - snd c0)
  | _ => False
  end.

(** A point lies outside a polygon (even outside the convex hull of its
    ring) when a line separates it from every vertex. *)
Definition separatedFrom (ring : Ring) (p : Point) : Prop :=
  exists a b c : R,
    Forall (fun v => a * fst v + b * snd v <= c) ring /\
    c < a * fst p + b * snd p.

(** The bounding box of the ring taken in the frame of the viewport (the
    ring turned by minus the rotation), turned back into projected geo
    coordinates. *)
Definition rotatedBboxRectangle (ring : Ring) (rotation : option R) : Rectangle :=
  rotatePoints
    (bboxToRectangle (computeBbox (rotatePoints ring (negatedIfTruthy rotation))))
    rotation.

(** A point lies in an axis-aligned box. *)
Definition inBbox (bbox : Bbox) (p : Point) : Prop :=
  let '(x0, y0, x1, y1) := bbox in
  x0 <= fst p <= x1 /\ y0 <= snd p <= y1.

(** The integer [z] is the integer nearest to [x], a tie going to the
    larger one: [x] lies in the half-open interval of length one centered
    at [z]. *)
Definition nearestInteger (x : R) (z : Z) : Prop :=
  x - / 2 < IZR z <= x + / 2.

End Render.

(** ** Viewport objects on the heap ([viewport/Viewport.ts])

    JavaScript arrays and objects are reached through references, and a
    statement can write into any object it holds a reference to.  The heap
    holds the cells; a reference is the position of a cell; [new] and array
    literals take the next free position.  The constructor, the factories
    and the methods of [Viewport] are given here statement by statement, as
    programs that read and write the heap. *)

Module Objects.
Import JS Geometry Matrix.
Local Open Scope R_scope.

(** A value is a number or a reference to an array or object. *)
Inductive Value : Type :=
| VNumber (x : R)
| VRef (ref : nat).

Inductive Cell : Type :=
| CArray (items : list Value)
| CViewport (fields : gmap string Value).

Definition Heap : Type := list Cell.

(** A program: it runs on a heap, returns or throws, and leaves a heap. *)
Definition M (A : Type) : Type := Heap -> result A * Heap.

#[export] Instance M_ret : MRet M := fun A a heap => (Return a, heap).

#[export] Instance M_bind : MBind M := fun A B k m heap =>
  match m heap with
  | (Return a, heap') => k a heap'
  | (Throw msg, heap') => (Throw msg, heap')
  end.

Definition throw {A : Type} (msg : string) : M A := fun heap => (Throw msg, heap).

(** [Render.typeError] is raised on reading a property of [undefined], and
    on a value of the wrong shape where TypeScript promises an array or a
    number. *)

(** An array literal [[...]], and the object [new] creates. *)
Definition newArray (items : list Value) : M nat :=
  fun heap => (Return (List.length heap), heap ++ [CArray items]).

Definition newObject : M nat :=
  fun heap => (Return (List.length heap), heap ++ [CViewport ∅]).

(** [array[i]] for all [i]. *)
Definition getItems (ref : nat) : M (list Value) :=
  fun heap =>
    match heap !! ref with
    | Some (CArray items) => (Return items, heap)
    | _ => (Throw Render.typeError, heap)
    end.

(** [this.name]. *)
Definition getField (this : nat) (name : string) : M Value :=
  fun heap =>
    match heap !! this with
    | Some (CViewport fields) =>
        match fields !! name with
        | Some value => (Return value, heap)
        | None => (Throw Render.typeError, heap)
        end
    | _ => (Throw Render.typeError, heap)
    end.

(** [this.name = value]: the one statement that writes into an object. *)
Definition setField (this : nat) (name : string) (value : Value) : M unit :=
  fun heap =>
    match heap !! this with
    | Some (CViewport fields) =>
        (Return tt, <[this := CViewport (<[name := value]> fields)]> heap)
    | _ => (Throw Render.typeError, heap)
    end.

Definition number (value : Value) : M R :=
  match value with
  | VNumber x => mret x
  | VRef _ => throw Render.typeError
  end.

Definition reference (value : Value) : M nat :=
  match value with
  | VRef ref => mret ref
  | VNumber _ => throw Render.typeError
  end.

Definition getNumber (this : nat) (name : string) : M R :=
  value ← getField this name; number value.

Definition getRef (this : nat) (name : string) : M nat :=
  value ← getField this name; reference value.

(** [array.map(f)], without the new array. *)
Fixpoint mapArray {A B : Type} (f : A -> M B) (items : list A) : M (list B) :=
  match items with
  | [] => mret []
  | item :: rest =>
      b ← f item;
      bs ← mapArray f rest;
      mret (b :: bs)
  end.

(** *** Arrays of numbers and of points *)

Definition readPoint (ref : nat) : M Point :=
  items ← getItems ref;
  match items with
  | [VNumber x; VNumber y] => mret (x, y)
  | _ => throw Render.typeError
  end.

Definition readPoints (ref : nat) : M (list Point) :=
  items ← getItems ref;
  mapArray (fun item => point ← reference item; readPoint point) items.

Definition readBbox (ref : nat) : M Bbox :=
  items ← getItems ref;
  match items with
  | [VNumber x0; VNumber y0; VNumber x1; VNumber y1] => mret (x0, y0, x1, y1)
  | _ => throw Render.typeError
  end.

Definition readTransform (ref : nat) : M Transform :=
  items ← getItems ref;
  match items with
  | [VNumber a; VNumber b; VNumber c; VNumber d; VNumber e; VNumber f] =>
      mret (mkTransform a b c d e f)
  | _ => throw Render.typeError
  end.

Definition newPoint (point : Point) : M nat :=
  newArray [VNumber (fst point); VNumber (snd point)].

Definition newPoints (points : list Point) : M nat :=
  refs ← mapArray newPoint points;
  newArray (map VRef refs).

Definition newBbox (bbox : Bbox) : M nat :=
  let '(x0, y0, x1, y1) := bbox in
  newArray [VNumber x0; VNumber y0; VNumber x1; VNumber y1].

Definition newTransform (t : Transform) : M nat :=
  newArray [VNumber (t0 t); VNumber (t1 t); VNumber (t2 t);
            VNumber (t3 t); VNumber (t4 t); VNumber (t5 t)].

(** *** The helpers of [@allmaps/stdlib] and [shared/matrix]

    Modelled from the spec: the helpers are not among the sources.  They
    compute what the definitions of the same name in [Geometry] and
    [Matrix] say; on the heap each reads the arrays it is handed and
    returns a new array (or a number). *)

Definition computeBbox (points : nat) : M nat :=
  ps ← readPoints points; newBbox (Geometry.computeBbox ps).

Definition bboxToCenter (bbox : nat) : M nat :=
  b ← readBbox bbox; newPoint (Geometry.bboxToCenter b).

Definition bboxToSize (bbox : nat) : M nat :=
  b ← readBbox bbox; newPoint (Geometry.bboxToSize b).

Definition bboxToRectangle (bbox : nat) : M nat :=
  b ← readBbox bbox; newPoints (Geometry.bboxToRectangle b).

Definition sizesToScale (size0 size1 : nat) (fit : Fit) : M R :=
  s0 ← readPoint size0; s1 ← readPoint size1;
  mret (Geometry.sizesToScale s0 s1 fit).

Definition bufferBboxByRatio (bbox : nat) (ratio : R) : M nat :=
  b ← readBbox bbox; newBbox (Geometry.bufferBboxByRatio b ratio).

Definition webMercatorToLonLat (point : nat) : M nat :=
  p ← readPoint point; newPoint (Geometry.webMercatorToLonLat p).

Definition scaleSize (size : nat) (scale : R) : M nat :=
  s ← readPoint size; newPoint (Geometry.scaleSize s scale).

Definition scalePoint (point : nat) (scale : R) : M nat :=
  p ← readPoint point; newPoint (Geometry.scalePoint p scale).

Definition scalePoints (points : nat) (scale : R) : M nat :=
  ps ← readPoints points; newPoints (Geometry.scalePoints ps scale).

Definition rotatePoint (point : nat) (angle : option R) : M nat :=
  p ← readPoint point; newPoint (Geometry.rotatePoint p angle).

Definition rotatePoints (points : nat) (angle : option R) : M nat :=
  ps ← readPoints points; newPoints (Geometry.rotatePoints ps angle).

Definition translatePoints (points by_ : nat) (op : AddOrSubstract) : M nat :=
  ps ← readPoints points; b ← readPoint by_;
  newPoints (Geometry.translatePoints ps b op).

Definition sizeToResolution (size : nat) : M R :=
  s ← readPoint size; mret (Geometry.sizeToResolution s).

Definition sizeToBbox (size : nat) : M nat :=
  s ← readPoint size; newBbox (Geometry.sizeToBbox s).

Definition sizeToCenter (size : nat) : M nat :=
  s ← readPoint size; newPoint (Geometry.sizeToCenter s).

Definition sizeToRectangle (size : nat) : M nat :=
  s ← readPoint size; newPoints (Geometry.sizeToRectangle s).

(** [midPoint(...points)]: the points are spread into the arguments. *)
Definition midPoint (points : list Value) : M nat :=
  ps ← mapArray (fun item => point ← reference item; readPoint point) points;
  newPoint (Geometry.midPoint ps).

Definition composeTransform (dx1 dy1 sx sy angle dx2 dy2 : R) : M nat :=
  newTransform (Matrix.composeTransform dx1 dy1 sx sy angle dx2 dy2).

Definition applyTransform (transform point : nat) : M nat :=
  t ← readTransform transform; p ← readPoint point;
  newPoint (Matrix.applyTransform t p).

Definition invertTransform (transform : nat) : M nat :=
  t ← readTransform transform; newTransform (Matrix.invertTransform t).

(** *** The class [Viewport] *)

(** [array[0]] and [array[1]] of an array of two numbers. *)
Definition item0 (ref : nat) : M R := p ← readPoint ref; mret (fst p).
Definition item1 (ref : nat) : M R := p ← readPoint ref; mret (snd p).

Definition computeProjectedGeoRectangle (viewportSize : nat)
    (projectedGeoPerViewportScale rotation : R) (projectedGeoCenter : nat)
    : M nat :=
  scaled ← scaleSize viewportSize projectedGeoPerViewportScale;
  rectangle ← sizeToRectangle scaled;
  corners ← getItems rectangle;
  middle ← midPoint corners;
  centered ← translatePoints rectangle middle substract;
  rotated ← rotatePoints centered (Some rotation);
  translated ← translatePoints rotated projectedGeoCenter add;
  mret translated.

Definition composeProjectedGeoToViewportTransform (this : nat) : M nat :=
  viewportCenter ← getRef this "viewportCenter";
  viewportCenter0 ← item0 viewportCenter;
  viewportCenter1 ← item1 viewportCenter;
  projectedGeoPerViewportScale ← getNumber this "projectedGeoPerViewportScale";
  rotation ← getNumber this "rotation";
  projectedGeoCenter ← getRef this "projectedGeoCenter";
  projectedGeoCenter0 ← item0 projectedGeoCenter;
  projectedGeoCenter1 ← item1 projectedGeoCenter;
  composeTransform viewportCenter0 viewportCenter1
    (1 / projectedGeoPerViewportScale) (- 1 / projectedGeoPerViewportScale)
    (- rotation) (- projectedGeoCenter0) (- projectedGeoCenter1).

Definition composeProjectedGeoToCanvasTransform (this : nat) : M nat :=
  canvasCenter ← getRef this "canvasCenter";
  canvasCenter0 ← item0 canvasCenter;
  canvasCenter1 ← item1 canvasCenter;
  projectedGeoPerCanvasScale ← getNumber this "projectedGeoPerCanvasScale";
  rotation ← getNumber this "rotation";
  projectedGeoCenter ← getRef this "projectedGeoCenter";
  projectedGeoCenter0 ← item0 projectedGeoCenter;
  projectedGeoCenter1 ← item1 projectedGeoCenter;
  composeTransform canvasCenter0 canvasCenter1
    (1 / projectedGeoPerCanvasScale) (- 1 / projectedGeoPerCanvasScale)
    (- rotation) (- projectedGeoCenter0) (- projectedGeoCenter1).

Definition composeProjectedGeoToClipTransform (this : nat) : M nat :=
  projectedGeoPerViewportScale ← getNumber this "projectedGeoPerViewportScale";
  viewportSize ← getRef this "viewportSize";
  viewportSize0 ← item0 viewportSize;
  viewportSize1 ← item1 viewportSize;
  rotation ← getNumber this "rotation";
  projectedGeoCenter ← getRef this "projectedGeoCenter";
  projectedGeoCenter0 ← item0 projectedGeoCenter;
  projectedGeoCenter1 ← item1 projectedGeoCenter;
  composeTransform 0 0
    (2 / (projectedGeoPerViewportScale * viewportSize0))
    (2 / (projectedGeoPerViewportScale * viewportSize1))
    (- rotation) (- projectedGeoCenter0) (- projectedGeoCenter1).

Definition composeViewportToClipTransform (this : nat) : M nat :=
  viewportSize ← getRef this "viewportSize";
  viewportSize0 ← item0 viewportSize;
  viewportSize1 ← item1 viewportSize;
  viewportCenter ← getRef this "viewportCenter";
  viewportCenter0 ← item0 viewportCenter;
  viewportCenter1 ← item1 viewportCenter;
  composeTransform 0 0 (2 / viewportSize0) (- 2 / viewportSize1) 0
    (- viewportCenter0) (- viewportCenter1).

(** The field initialisers [Transform = [1, 0, 0, 1, 0, 0]] and the body of
    the constructor, on the object [this] under construction. *)
Definition initialiseFields (this : nat) : M unit :=
  t ← newTransform identityTransform;
  setField this "projectedGeoToViewportTransform" (VRef t);;
  t ← newTransform identityTransform;
  setField this "projectedGeoToCanvasTransform" (VRef t);;
  t ← newTransform identityTransform;
  setField this "projectedGeoToClipTransform" (VRef t);;
  t ← newTransform identityTransform;
  setField this "viewportToClipTransform" (VRef t).

Definition constructor (this viewportSize projectedGeoCenter : nat)
    (projectedGeoPerViewportScale : R) (rotation devicePixelRatio : option R)
    : M unit :=
  let rotation := orDefault 0 rotation in
  let devicePixelRatio := orDefault 1 devicePixelRatio in
  setField this "projectedGeoCenter" (VRef projectedGeoCenter);;
  setField this "projectedGeoPerViewportScale"
    (VNumber projectedGeoPerViewportScale);;
  setField this "rotation" (VNumber rotation);;
  viewportSize0 ← item0 viewportSize;
  viewportSize1 ← item1 viewportSize;
  rounded ← newArray [VNumber (Math_round viewportSize0);
                      VNumber (Math_round viewportSize1)];
  setField this "viewportSize" (VRef rounded);;
  setField this "devicePixelRatio" (VNumber devicePixelRatio);;

  this_viewportSize ← getRef this "viewportSize";
  this_projectedGeoPerViewportScale ←
    getNumber this "projectedGeoPerViewportScale";
  this_rotation ← getNumber this "rotation";
  this_projectedGeoCenter ← getRef this "projectedGeoCenter";
  rectangle ← computeProjectedGeoRectangle this_viewportSize
                this_projectedGeoPerViewportScale this_rotation
                this_projectedGeoCenter;
  setField this "projectedGeoRectangle" (VRef rectangle);;
  this_projectedGeoRectangle ← getRef this "projectedGeoRectangle";
  bbox ← computeBbox this_projectedGeoRectangle;
  setField this "projectedGeoRectangleBbox" (VRef bbox);;
  this_viewportSize ← getRef this "viewportSize";
  size ← scaleSize this_viewportSize projectedGeoPerViewportScale;
  setField this "projectedGeoSize" (VRef size);;
  this_projectedGeoSize ← getRef this "projectedGeoSize";
  resolution ← sizeToResolution this_projectedGeoSize;
  setField this "projectedGeoResolution" (VNumber resolution);;

  this_projectedGeoCenter ← getRef this "projectedGeoCenter";
  center ← webMercatorToLonLat this_projectedGeoCenter;
  setField this "geoCenter" (VRef center);;
  this_projectedGeoRectangle ← getRef this "projectedGeoRectangle";
  corners ← getItems this_projectedGeoRectangle;
  geoCorners ← mapArray (fun item => point ← reference item;
                                     webMercatorToLonLat point) corners;
  geoRectangle ← newArray (map VRef geoCorners);
  setField this "geoRectangle" (VRef geoRectangle);;
  this_geoRectangle ← getRef this "geoRectangle";
  bbox ← computeBbox this_geoRectangle;
  setField this "geoRectangleBbox" (VRef bbox);;
  this_geoRectangleBbox ← getRef this "geoRectangleBbox";
  size ← bboxToSize this_geoRectangleBbox;
  setField this "geoSize" (VRef size);;
  this_geoSize ← getRef this "geoSize";
  resolution ← sizeToResolution this_geoSize;
  setField this "geoResolution" (VNumber resolution);;

  this_viewportSize ← getRef this "viewportSize";
  resolution ← sizeToResolution this_viewportSize;
  setField this "viewportResolution" (VNumber resolution);;
  this_viewportSize ← getRef this "viewportSize";
  center ← sizeToCenter this_viewportSize;
  setField this "viewportCenter" (VRef center);;
  this_viewportSize ← getRef this "viewportSize";
  bbox ← sizeToBbox this_viewportSize;
  setField this "viewportBbox" (VRef bbox);;
  this_viewportBbox ← getRef this "viewportBbox";
  rectangle ← bboxToRectangle this_viewportBbox;
  setField this "viewportRectangle" (VRef rectangle);;

  this_viewportCenter ← getRef this "viewportCenter";
  this_devicePixelRatio ← getNumber this "devicePixelRatio";
  center ← scalePoint this_viewportCenter this_devicePixelRatio;
  setField this "canvasCenter" (VRef center);;
  this_viewportSize ← getRef this "viewportSize";
  this_devicePixelRatio ← getNumber this "devicePixelRatio";
  size ← scaleSize this_viewportSize this_devicePixelRatio;
  setField this "canvasSize" (VRef size);;
  this_canvasSize ← getRef this "canvasSize";
  resolution ← sizeToResolution this_canvasSize;
  setField this "canvasResolution" (VNumber resolution);;
  this_canvasSize ← getRef this "canvasSize";
  bbox ← sizeToBbox this_canvasSize;
  setField this "canvasBbox" (VRef bbox);;
  this_canvasBbox ← getRef this "canvasBbox";
  rectangle ← bboxToRectangle this_canvasBbox;
  setField this "canvasRectangle" (VRef rectangle);;

  this_projectedGeoPerViewportScale ←
    getNumber this "projectedGeoPerViewportScale";
  this_devicePixelRatio ← getNumber this "devicePixelRatio";
  setField this "projectedGeoPerCanvasScale"
    (VNumber (this_projectedGeoPerViewportScale / this_devicePixelRatio));;

  t ← composeProjectedGeoToViewportTransform this;
  setField this "projectedGeoToViewportTransform" (VRef t);;
  t ← composeProjectedGeoToCanvasTransform this;
  setField this "projectedGeoToCanvasTransform" (VRef t);;
  t ← composeProjectedGeoToClipTransform this;
  setField this "projectedGeoToClipTransform" (VRef t);;
  t ← composeViewportToClipTransform this;
  setField this "viewportToClipTransform" (VRef t).

(** [new Viewport(...)]. *)
Definition new_Viewport (viewportSize projectedGeoCenter : nat)
    (projectedGeoPerViewportScale : R) (rotation devicePixelRatio : option R)
    : M nat :=
  this ← newObject;
  initialiseFields this;;
  constructor this viewportSize projectedGeoCenter projectedGeoPerViewportScale
    rotation devicePixelRatio;;
  mret this.

(** [projectedGeoPolygon[0]]; the helpers raise on [undefined]. *)
Definition firstRing (projectedGeoPolygon : nat) : M nat :=
  rings ← getItems projectedGeoPolygon;
  match rings with
  | ring :: _ => reference ring
  | [] => throw Render.typeError
  end.

Definition fromSizeAndPolygon (viewportSize projectedGeoPolygon : nat)
    (fit : option Fit) (rotation devicePixelRatio zoom : option R) : M nat :=
  let fit := orDefault contain fit in
  let zoom := orDefault 1 zoom in
  projectedGeoRing ← firstRing projectedGeoPolygon;
  rotatedProjectedGeoRing ←
    rotatePoints projectedGeoRing (Render.negatedIfTruthy rotation);
  rotatedProjectedGeoBbox ← computeBbox rotatedProjectedGeoRing;
  rotatedProjectedGeoSize ← bboxToSize rotatedProjectedGeoBbox;
  rotatedProjectedGeoCenter ← bboxToCenter rotatedProjectedGeoBbox;
  projectedGeoPerViewportScale ←
    sizesToScale rotatedProjectedGeoSize viewportSize fit;
  projectedGeoCenter ← rotatePoint rotatedProjectedGeoCenter rotation;
  new_Viewport viewportSize projectedGeoCenter
    (projectedGeoPerViewportScale * zoom) rotation devicePixelRatio.

Definition fromScaleAndPolygon (projectedGeoPolygon : nat)
    (projectedGeoPerViewportScale : R)
    (rotation devicePixelRatio zoom : option R) : M nat :=
  let zoom := orDefault 1 zoom in
  projectedGeoRing ← firstRing projectedGeoPolygon;
  rotated ← rotatePoints projectedGeoRing (Render.negatedIfTruthy rotation);
  viewportRing ← scalePoints rotated (1 / projectedGeoPerViewportScale);
  viewportBbox ← computeBbox viewportRing;
  viewportSize ← bboxToSize viewportBbox;
  viewportCenter ← bboxToCenter viewportBbox;
  scaled ← scalePoint viewportCenter projectedGeoPerViewportScale;
  projectedGeoCenter ← rotatePoint scaled rotation;
  new_Viewport viewportSize projectedGeoCenter
    (projectedGeoPerViewportScale * zoom) rotation devicePixelRatio.

(** The factories over a list of warped maps.  The list and its method
    [getProjectedConvexHull] are not among the sources; the list is handed
    no viewport, and what its method returned, a ring or [undefined], is
    the argument [projectedGeoConvexHull]. *)
Definition fromSizeAndMaps (viewportSize : nat)
    (projectedGeoConvexHull : option nat) (fit : option Fit)
    (rotation devicePixelRatio zoom : option R) : M nat :=
  let fit := orDefault contain fit in
  match projectedGeoConvexHull with
  | None => throw Render.noConvexHullError
  | Some projectedGeoConvexHull =>
      polygon ← newArray [VRef projectedGeoConvexHull];
      fromSizeAndPolygon viewportSize polygon (Some fit) rotation
        devicePixelRatio zoom
  end.

Definition fromScaleAndMaps (projectedGeoPerViewportScale : R)
    (projectedGeoConvexHull : option nat)
    (rotation devicePixelRatio zoom : option R) : M nat :=
  match projectedGeoConvexHull with
  | None => throw Render.noConvexHullError
  | Some projectedGeoConvexHull =>
      polygon ← newArray [VRef projectedGeoConvexHull];
      fromScaleAndPolygon polygon projectedGeoPerViewportScale rotation
        devicePixelRatio zoom
  end.

(** [getProjectedGeoBufferedRectangle], a method of the viewport [this]. *)
Definition getProjectedGeoBufferedRectangle (this : nat) (bufferFraction : R)
    : M nat :=
  this_viewportBbox ← getRef this "viewportBbox";
  viewportBufferedBbox ← bufferBboxByRatio this_viewportBbox bufferFraction;
  viewportBufferedRectangle ← bboxToRectangle viewportBufferedBbox;
  corners ← getItems viewportBufferedRectangle;
  projected ← mapArray
                (fun item =>
                   point ← reference item;
                   this_transform ← getRef this "projectedGeoToViewportTransform";
                   inverse ← invertTransform this_transform;
                   applyTransform inverse point)
                corners;
  newArray (map VRef projected).

(** *** Calls from outside *)

Inductive Operation : Type :=
| OpNew (viewportSize projectedGeoCenter : nat)
    (projectedGeoPerViewportScale : R) (rotation devicePixelRatio : option R)
| OpFromSizeAndMaps (viewportSize : nat) (projectedGeoConvexHull : option nat)
    (fit : option Fit) (rotation devicePixelRatio zoom : option R)
| OpFromSizeAndPolygon (viewportSize projectedGeoPolygon : nat)
    (fit : option Fit) (rotation devicePixelRatio zoom : option R)
| OpFromScaleAndMaps (projectedGeoPerViewportScale : R)
    (projectedGeoConvexHull : option nat)
    (rotation devicePixelRatio zoom : option R)
| OpFromScaleAndPolygon (projectedGeoPolygon : nat)
    (projectedGeoPerViewportScale : R)
    (rotation devicePixelRatio zoom : option R)
| OpGetProjectedGeoBufferedRectangle (this : nat) (bufferFraction : R).

(** The call returns a reference, to the new viewport or to the rectangle,
    or it throws. *)
Definition exec (op : Operation) : M nat :=
  match op with
  | OpNew size center scale rot dpr => new_Viewport size center scale rot dpr
  | OpFromSizeAndMaps size hull fit rot dpr zoom =>
      fromSizeAndMaps size hull fit rot dpr zoom
  | OpFromSizeAndPolygon size polygon fit rot dpr zoom =>
      fromSizeAndPolygon size polygon fit rot dpr zoom
  | OpFromScaleAndMaps scale hull rot dpr zoom =>
      fromScaleAndMaps scale hull rot dpr zoom
  | OpFromScaleAndPolygon polygon scale rot dpr zoom =>
      fromScaleAndPolygon polygon scale rot dpr zoom
  | OpGetProjectedGeoBufferedRectangle this bufferFraction =>
      getProjectedGeoBufferedRectangle this bufferFraction
  end.

(** The calls one after the other; a call that throws is caught by the
    caller, and the next call runs on the heap it left. *)
Definition execAll (ops : list Operation) (heap : Heap) : Heap :=
  fold_left (fun heap op => snd (exec op heap)) ops heap.

(** *** Reading a viewport off the heap *)

Definition getPoint (this : nat) (name : string) : M Point :=
  ref ← getRef this name; readPoint ref.

Definition getPoints (this : nat) (name : string) : M (list Point) :=
  ref ← getRef this name; readPoints ref.

Definition getBbox (this : nat) (name : string) : M Bbox :=
  ref ← getRef this name; readBbox ref.

Definition getTransform (this : nat) (name : string) : M Transform :=
  ref ← getRef this name; readTransform ref.

(** The fields of the object [this], as a viewport of [Render]. *)
Definition readViewport (this : nat) : M Render.Viewport :=
  geoCenter ← getPoint this "geoCenter";
  geoRectangle ← getPoints this "geoRectangle";
  geoSize ← getPoint this "geoSize";
  geoResolution ← getNumber this "geoResolution";
  geoRectangleBbox ← getBbox this "geoRectangleBbox";
  projectedGeoCenter ← getPoint this "projectedGeoCenter";
  projectedGeoRectangle ← getPoints this "projectedGeoRectangle";
  projectedGeoSize ← getPoint this "projectedGeoSize";
  projectedGeoResolution ← getNumber this "projectedGeoResolution";
  projectedGeoRectangleBbox ← getBbox this "projectedGeoRectangleBbox";
  rotation ← getNumber this "rotation";
  projectedGeoPerViewportScale ← getNumber this "projectedGeoPerViewportScale";
  viewportCenter ← getPoint this "viewportCenter";
  viewportRectangle ← getPoints this "viewportRectangle";
  viewportSize ← getPoint this "viewportSize";
  viewportResolution ← getNumber this "viewportResolution";
  viewportBbox ← getBbox this "viewportBbox";
  devicePixelRatio ← getNumber this "devicePixelRatio";
  canvasCenter ← getPoint this "canvasCenter";
  canvasRectangle ← getPoints this "canvasRectangle";
  canvasSize ← getPoint this "canvasSize";
  canvasResolution ← getNumber this "canvasResolution";
  canvasBbox ← getBbox this "canvasBbox";
  projectedGeoPerCanvasScale ← getNumber this "projectedGeoPerCanvasScale";
  projectedGeoToViewportTransform ←
    getTransform this "projectedGeoToViewportTransform";
  projectedGeoToCanvasTransform ←
    getTransform this "projectedGeoToCanvasTransform";
  projectedGeoToClipTransform ← getTransform this "projectedGeoToClipTransform";
  viewportToClipTransform ← getTransform this "viewportToClipTransform";
  mret
    {| Render.geoCenter := geoCenter;
       Render.geoRectangle := geoRectangle;
       Render.geoSize := geoSize;
       Render.geoResolution := geoResolution;
       Render.geoRectangleBbox := geoRectangleBbox;
       Render.projectedGeoCenter := projectedGeoCenter;
       Render.projectedGeoRectangle := projectedGeoRectangle;
       Render.projectedGeoSize := projectedGeoSize;
       Render.projectedGeoResolution := projectedGeoResolution;
       Render.projectedGeoRectangleBbox := projectedGeoRectangleBbox;
       Render.rotation := rotation;
       Render.projectedGeoPerViewportScale := projectedGeoPerViewportScale;
       Render.viewportCenter := viewportCenter;
       Render.viewportRectangle := viewportRectangle;
       Render.viewportSize := viewportSize;
       Render.viewportResolution := viewportResolution;
       Render.viewportBbox := viewportBbox;
       Render.devicePixelRatio := devicePixelRatio;
       Render.canvasCenter := canvasCenter;
       Render.canvasRectangle := canvasRectangle;
       Render.canvasSize := canvasSize;
       Render.canvasResolution := canvasResolution;
       Render.canvasBbox := canvasBbox;
       Render.projectedGeoPerCanvasScale := projectedGeoPerCanvasScale;
       Render.projectedGeoToViewportTransform := projectedGeoToViewportTransform;
       Render.projectedGeoToCanvasTransform := projectedGeoToCanvasTransform;
       Render.projectedGeoToClipTransform := projectedGeoToClipTransform;
       Render.viewportToClipTransform := viewportToClipTransform |}.

(** The heap that holds the two arrays handed to the constructor. *)
Definition argumentHeap (viewportSize projectedGeoCenter : Point) : Heap :=
  [CArray [VNumber (fst viewportSize); VNumber (snd viewportSize)];
   CArray [VNumber (fst projectedGeoCenter); VNumber (snd projectedGeoCenter)]].

(** The heap that holds a viewport size and a polygon of one triangle:
    the size at 0, the polygon at 5. *)
Definition triangleHeap (viewportSize p1 p2 p3 : Point) : Heap :=
  [CArray [VNumber (fst viewportSize); VNumber (snd viewportSize)];
   CArray [VNumber (fst p1); VNumber (snd p1)];
   CArray [VNumber (fst p2); VNumber (snd p2)];
   CArray [VNumber (fst p3); VNumber (snd p3)];
   CArray [VRef 1; VRef 2; VRef 3];
   CArray [VRef 4]].

(** *** Vocabulary *)

(** Every cell of [heap] is in [heap'], at its place and with its content. *)
Definition preserved (heap heap' : Heap) : Prop :=
  forall ref cell, heap !! ref = Some cell -> heap' !! ref = Some cell.

(** A program that only adds cells, and one that writes into no cell other
    than [this]. *)
Definition allocates {A : Type} (m : M A) : Prop :=
  forall heap, preserved heap (snd (m heap)).

Definition writesOnly {A : Type} (this : nat) (m : M A) : Prop :=
  forall heap ref cell,
    ref <> this -> heap !! ref = Some cell -> snd (m heap) !! ref = Some cell.

End Objects.

(** ** The texture atlas ([maps/WebGL2WarpedMap.ts]) *)

Module Atlas.
Local Open Scope Z_scope.

(** Resource coordinates of the viewport ring are fractional; tile
    coordinates and pixel sizes are integers. *)
Definition Bbox : Type := Q * Q * Q * Q.

Module TileZoomLevel.
Record t : Type := mk { scaleFactor : Z; width : Z; height : Z }.
End TileZoomLevel.

Module Tile.
Record t : Type := mk
  { column : Z; row : Z; tileZoomLevel : TileZoomLevel.t; imageSize : Z * Z }.
End Tile.

Module Region.
Record t : Type := mk { x : Z; y : Z; width : Z; height : Z }.
End Region.

Module ImageRequest.
Record t : Type := mk { region : option Region.t }.
End ImageRequest.

Module ImageBitmap.
Record t : Type := mk { width : Z; height : Z }.
End ImageBitmap.

Module CachedTile.
Record t : Type := mk
  { tileUrl : string;
    tile : Tile.t;
    imageRequest : ImageRequest.t;
    data : ImageBitmap.t }.
End CachedTile.

(** The boxes handed to the packer: size, position in the pack, and the
    index of the tile in [cachedTiles]. *)
Module Box.
Record t : Type := mk { w : Z; h : Z; x : Z; y : Z; index : nat }.
End Box.

(** The fields of the warped map that [updateTextures] reads.  The JS [Map]
    keeps its entries in insertion order. *)
Record WebGL2WarpedMap : Type := mkWebGL2WarpedMap
  { CachedTilesByTileUrl : list (string * CachedTile.t);
    resourceViewportRingBbox : option Bbox }.

(** Modelled from the spec: [computeBboxTile] of shared/tiles is not among
    the sources; section 3: "A tile's resource region is (column * tileW * sf,
    row * tileH * sf, tileW * sf, tileH * sf) clipped to image size". *)
Definition computeBboxTile (tile : Tile.t) : Bbox :=
  let level := Tile.tileZoomLevel tile in
  let originalWidth := TileZoomLevel.width level * TileZoomLevel.scaleFactor level in
  let originalHeight := TileZoomLevel.height level * TileZoomLevel.scaleFactor level in
  let tileXMin := Tile.column tile * originalWidth in
  let tileYMin := Tile.row tile * originalHeight in
  let tileXMax := Z.min (tileXMin + originalWidth) (fst (Tile.imageSize tile)) in
  let tileYMax := Z.min (tileYMin + originalHeight) (snd (Tile.imageSize tile)) in
  (inject_Z tileXMin, inject_Z tileYMin, inject_Z tileXMax, inject_Z tileYMax).

(** Modelled from the spec: [isOverlapping] of @allmaps/stdlib is not among
    the sources; section 2, component A: "bbox-overlap": two boxes overlap
    when they do on both axes. *)
Definition isOverlapping (bbox0 bbox1 : Bbox) : bool :=
  let '(a0, b0, a1, b1) := bbox0 in
  let '(c0, d0, c1, d1) := bbox1 in
  Qle_bool c0 a1 && Qle_bool a0 c1 && Qle_bool d0 b1 && Qle_bool b0 d1.

(** The filter of [updateTextures]: "Only pack tiles that are inside the
    viewport (as drawn on the resource)". *)
Definition insideViewport (this : WebGL2WarpedMap) (cachedTile : CachedTile.t)
    : bool :=
  match resourceViewportRingBbox this with
  | Some bbox => isOverlapping (computeBboxTile (CachedTile.tile cachedTile)) bbox
  | None => true
  end.

(** What [updateTextures] hands to WebGL: the size of the packed texture,
    the [texSubImage2D] uploads, and per packed tile the rows of the three
    integer textures together with the [Int32Array] made of them. *)
Record Textures : Type := mkTextures
  { packedTilesTextureSize : Z * Z;
    packedTilesTexture : list (Z * Z * ImageBitmap.t);
    packedTilesPositions : list (list Z);
    packedTilesPositionsTexture : list Z;
    packedTilesResourcePositionsAndDimensions : list (option (list Z));
    packedTilesResourcePositionsAndDimensionsTexture : list Z;
    packedTilesScaleFactors : list Z;
    packedTilesScaleFactorsTexture : list Z }.

Inductive UpdateOutcome : Type :=
| Skipped
| Updated (textures : Textures)
| Failed (msg : string).

(** The conversion of an integer to a 32-bit element ([ToInt32]): the value
    modulo 2^32, taken between -2^31 and 2^31 - 1. *)
Definition toInt32 (z : Z) : Z := (z + 2 ^ 31) mod 2 ^ 32 - 2 ^ 31.

Definition isInt32 (z : Z) : Prop := - 2 ^ 31 <= z < 2 ^ 31.

(** [new Int32Array(values)]: one element per value. *)
Definition Int32Array (values : list Z) : list Z := map toInt32 values.

(** [rows.flat()]: a row gives its integers; an [undefined] row stays one
    element, [undefined], which an [Int32Array] stores as 0. *)
Definition flat (rows : list (option (list Z))) : list Z :=
  flat_map (fun row => match row with Some r => r | None => [0] end) rows.

Definition flatInt32 (rows : list (option (list Z))) : list Z :=
  Int32Array (flat rows).

Definition regionRow (cachedTile : CachedTile.t) : option (list Z) :=
  match ImageRequest.region (CachedTile.imageRequest cachedTile) with
  | Some r => Some [Region.x r; Region.y r; Region.width r; Region.height r]
  | None => None
  end.

Section Packing.

(** The packer of the external library potpack: it reorders the boxes,
    writes their [x] and [y], and returns the size of the pack. *)
Variable potpack : list Box.t -> list Box.t * (Z * Z).

Definition updateTextures (this : WebGL2WarpedMap) : UpdateOutcome :=
  if Nat.eqb (List.length (CachedTilesByTileUrl this)) 0 then Skipped
  else
    let cachedTiles := map snd (CachedTilesByTileUrl this) in
    let cachedTiles := List.filter (insideViewport this) cachedTiles in
    let packedTiles :=
      imap (fun index cachedTile =>
              {| Box.w := ImageBitmap.width (CachedTile.data cachedTile);
                 Box.h := ImageBitmap.height (CachedTile.data cachedTile);
                 Box.x := 0;
                 Box.y := 0;
                 Box.index := index |})
           cachedTiles in
    let '(packedTiles, packedTilesTextureSize) := potpack packedTiles in
    let uploads :=
      mapM (fun packedTile =>
              match cachedTiles !! Box.index packedTile with
              | Some cachedTile =>
                  Some (Box.x packedTile, Box.y packedTile,
                        CachedTile.data cachedTile)
              | None => None
              end)
           packedTiles in
    let packedTilesPositions :=
      map (fun packedTile => [Box.x packedTile; Box.y packedTile]) packedTiles in
    let packedTilesResourcePositionsAndDimensions :=
      map (fun packedTile =>
             match cachedTiles !! Box.index packedTile with
             | Some cachedTile => regionRow cachedTile
             | None => None
             end)
          packedTiles in
    let packedTilesScaleFactors :=
      mapM (fun packedTile =>
              match cachedTiles !! Box.index packedTile with
              | Some cachedTile =>
                  Some (TileZoomLevel.scaleFactor
                          (Tile.tileZoomLevel (CachedTile.tile cachedTile)))
              | None => None
              end)
           packedTiles in
    match uploads, packedTilesScaleFactors with
    | Some uploads, Some scaleFactors =>
        Updated
          {| packedTilesTextureSize := packedTilesTextureSize;
             packedTilesTexture := uploads;
             packedTilesPositions := packedTilesPositions;
             packedTilesPositionsTexture :=
               Int32Array (List.concat packedTilesPositions);
             packedTilesResourcePositionsAndDimensions :=
               packedTilesResourcePositionsAndDimensions;
             packedTilesResourcePositionsAndDimensionsTexture :=
               flatInt32 packedTilesResourcePositionsAndDimensions;
             packedTilesScaleFactors := scaleFactors;
             packedTilesScaleFactorsTexture := Int32Array scaleFactors |}
    | _, _ => Failed "TypeError"
    end.

End Packing.

(** What is known of potpack: the boxes it returns are the boxes it was
    given, in some order, with new positions. *)
Definition boxKey (b : Box.t) : Z * Z * nat := (Box.w b, Box.h b, Box.index b).

Definition packsAllBoxes (potpack : list Box.t -> list Box.t * (Z * Z)) : Prop :=
  forall boxes, Permutation (map boxKey (fst (potpack boxes))) (map boxKey boxes).

(** A packer that satisfies [packsAllBoxes], for concrete runs: the boxes
    side by side in one row, in the order given. *)
Fixpoint rowPackFrom (left : Z) (boxes : list Box.t) : list Box.t :=
  match boxes with
  | [] => []
  | b :: rest =>
      {| Box.w := Box.w b; Box.h := Box.h b; Box.x := left; Box.y := 0;
         Box.index := Box.index b |}
        :: rowPackFrom (left + Box.w b) rest
  end.

Definition rowPack (boxes : list Box.t) : list Box.t * (Z * Z) :=
  (rowPackFrom 0 boxes,
   (fold_right (fun b acc => Box.w b + acc) 0 boxes,
    fold_right (fun b acc => Z.max (Box.h b) acc) 0 boxes)).

(** The atlas entry [i] describes the cached tile: the tile's bitmap was
    uploaded at the recorded origin, and the entry records the tile's
    resource region and scale factor. *)
Definition describes (textures : Textures) (i : nat) (cachedTile : CachedTile.t)
    : Prop :=
  exists x y : Z,
    packedTilesTexture textures !! i = Some (x, y, CachedTile.data cachedTile)
    /\ packedTilesPositions textures !! i = Some [x; y]
    /\ packedTilesResourcePositionsAndDimensions textures !! i
       = Some (regionRow cachedTile)
    /\ packedTilesScaleFactors textures !! i
       = Some (TileZoomLevel.scaleFactor
                 (Tile.tileZoomLevel (CachedTile.tile cachedTile))).

(** Two cached tiles of a 1024 x 1024 image at scale factor 1, 256 pixels
    square: the tile at column 0, row 0 and the tile at column 3, row 3;
    and a map whose viewport ring covers the lower right quarter of the
    image. *)
Definition level1 : TileZoomLevel.t :=
  {| TileZoomLevel.scaleFactor := 1; TileZoomLevel.width := 256;
     TileZoomLevel.height := 256 |}.

Definition cachedTileAt (url : string) (column row : Z) : CachedTile.t :=
  {| CachedTile.tileUrl := url;
     CachedTile.tile :=
       {| Tile.column := column; Tile.row := row; Tile.tileZoomLevel := level1;
          Tile.imageSize := (1024, 1024) |};
     CachedTile.imageRequest :=
       {| ImageRequest.region :=
            Some {| Region.x := column * 256; Region.y := row * 256;
                    Region.width := 256; Region.height := 256 |} |};
     CachedTile.data := {| ImageBitmap.width := 256; ImageBitmap.height := 256 |} |}.

Definition lowerRightMap : WebGL2WarpedMap :=
  {| CachedTilesByTileUrl :=
       [("tile-0-0", cachedTileAt "tile-0-0" 0 0);
        ("tile-3-3", cachedTileAt "tile-3-3" 3 3)];
     resourceViewportRingBbox :=
       Some (inject_Z 600, inject_Z 600, inject_Z 1024, inject_Z 1024) |}.

End Atlas.

(** ** The cached tiles of a warped map and its vertex buffers
       ([maps/WebGL2WarpedMap.ts]) *)

Module AtlasOps.
Import Atlas.

(** [Map.prototype.set]: an entry with the key keeps its place and gets the
    new value; a new key goes to the end. *)
Definition mapSet {V : Type} (key : string) (value : V)
    (entries : list (string * V)) : list (string * V) :=
  if existsb (fun e => String.eqb (fst e) key) entries
  then map (fun e => if String.eqb (fst e) key then (key, value) else e) entries
  else entries ++ [(key, value)].

(** [Map.prototype.delete]. *)
Definition mapDelete {V : Type} (key : string) (entries : list (string * V))
    : list (string * V) :=
  List.filter (fun e => negb (String.eqb (fst e) key)) entries.

(** [Map.prototype.get]. *)
Definition mapGet {V : Type} (key : string) (entries : list (string * V))
    : option V :=
  match List.find (fun e => String.eqb (fst e) key) entries with
  | Some e => Some (snd e)
  | None => None
  end.

(** [addCachedTileAndUpdateTextures] and [removeCachedTileAndUpdateTextures]:
    the change of the map's collection; the throttled call that follows
    runs [updateTextures] on the changed map at some later time. *)
Definition addCachedTileAndUpdateTextures (this : WebGL2WarpedMap)
    (cachedTile : CachedTile.t) : WebGL2WarpedMap :=
  {| CachedTilesByTileUrl :=
       mapSet (CachedTile.tileUrl cachedTile) cachedTile
         (CachedTilesByTileUrl this);
     resourceViewportRingBbox := resourceViewportRingBbox this |}.

Definition removeCachedTileAndUpdateTextures (this : WebGL2WarpedMap)
    (tileUrl : string) : WebGL2WarpedMap :=
  {| CachedTilesByTileUrl := mapDelete tileUrl (CachedTilesByTileUrl this);
     resourceViewportRingBbox := resourceViewportRingBbox this |}.

(** The tiles [updateTextures] packs, and the box it makes for the tile at
    an index. *)
Definition tilesToPack (this : WebGL2WarpedMap) : list CachedTile.t :=
  List.filter (insideViewport this) (map snd (CachedTilesByTileUrl this)).

Definition tileBox (index : nat) (cachedTile : CachedTile.t) : Box.t :=
  {| Box.w := ImageBitmap.width (CachedTile.data cachedTile);
     Box.h := ImageBitmap.height (CachedTile.data cachedTile);
     Box.x := 0%Z;
     Box.y := 0%Z;
     Box.index := index |}.

(** [Math.round] on a fraction. *)
Definition Math_roundQ (q : Q) : Z := Qfloor (q + (1 # 2)).

(** The triangle index buffer of [updateVertexBuffersInternal]:
    [new Float32Array(n).map((_v, i) => Math.round((i - 1) / 3))], for [n]
    triangle points. *)
Definition trianglePointsTriangleIndex (n : nat) : list Z :=
  map (fun i => Math_roundQ ((inject_Z (Z.of_nat i) - 1) / 3)) (seq 0 n).

(** A map with two cached tiles and no viewport ring yet: the overview tile
    that shows the whole 1024 x 1024 image at scale factor 4, requested
    without a region, and the tile at column 3, row 3. *)
Definition wholeImageTile : CachedTile.t :=
  {| CachedTile.tileUrl := "full";
     CachedTile.tile :=
       {| Tile.column := 0; Tile.row := 0;
          Tile.tileZoomLevel :=
            {| TileZoomLevel.scaleFactor := 4; TileZoomLevel.width := 256;
               TileZoomLevel.height := 256 |};
          Tile.imageSize := (1024, 1024)%Z |};
     CachedTile.imageRequest := {| ImageRequest.region := None |};
     CachedTile.data := {| ImageBitmap.width := 256; ImageBitmap.height := 256 |} |}.

(** The tiles that were requested without a region. *)
Definition withoutRegion (cachedTile : CachedTile.t) : bool :=
  match ImageRequest.region (CachedTile.imageRequest cachedTile) with
  | Some _ => false
  | None => true
  end.

Definition wholeImageMap : WebGL2WarpedMap :=
  {| CachedTilesByTileUrl :=
       [("full", wholeImageTile); ("tile-3-3", cachedTileAt "tile-3-3" 3 3)];
     resourceViewportRingBbox := None |}.

End AtlasOps.

(** ** Fetching a tile through a worker ([CacheableWorkerImageDataTile]) *)

Module TileFetch.

Inductive FetchError : Type :=
| AbortError
| OtherError (name : string).

Inductive WarpedMapEventType : Type :=
| TILEFETCHED
| TILEFETCHERROR.

(** Where one call of [fetch()] stands.  After the blob has arrived the
    worker is started (creating it is taken to succeed), its promise is left
    unawaited, and [fetch()] itself returns; the callback of [.then] runs
    when the worker answers. *)
Inductive Phase : Type :=
| AwaitingFetchUrl
| AwaitingBlob
| AwaitingWorker
| Settled.

Record TileState (ImageData : Type) : Type := mkTileState
  { phase : Phase;
    data : option ImageData;
    dispatched : list WarpedMapEventType;
    aborted : bool;
    fetchUrlCalls : nat;
    returned : option (option ImageData);
    unhandledRejections : nat }.
Arguments mkTileState {ImageData}.
Arguments phase {ImageData}.
Arguments data {ImageData}.
Arguments dispatched {ImageData}.
Arguments aborted {ImageData}.
Arguments fetchUrlCalls {ImageData}.
Arguments returned {ImageData}.
Arguments unhandledRejections {ImageData}.

(** What the environment does to a pending [fetch()]: it settles the
    promise being waited for, or calls [abortController.abort()]. *)
Inductive Signal (ImageData : Type) : Type :=
| FetchUrlResolved
| FetchUrlRejected (err : FetchError)
| BlobResolved
| BlobRejected (err : FetchError)
| WorkerResolved (response : ImageData)
| WorkerRejected
| Abort.
Arguments FetchUrlResolved {ImageData}.
Arguments FetchUrlRejected {ImageData}.
Arguments BlobResolved {ImageData}.
Arguments BlobRejected {ImageData}.
Arguments WorkerResolved {ImageData}.
Arguments WorkerRejected {ImageData}.
Arguments Abort {ImageData}.

Section Fetch.
Context {ImageData : Type}.

(** [fetch()] has been called: [fetchUrl] was invoked once with the abort
    signal and is pending. *)
Definition fetchCalled : TileState ImageData :=
  {| phase := AwaitingFetchUrl; data := None; dispatched := [];
     aborted := false; fetchUrlCalls := 1; returned := None;
     unhandledRejections := 0 |}.

(** The [catch] block, followed by [return this.data]. *)
Definition catch (err : FetchError) (s : TileState ImageData) : TileState ImageData :=
  {| phase := Settled;
     data := data s;
     dispatched :=
       match err with
       | AbortError => dispatched s
       | OtherError _ => dispatched s ++ [TILEFETCHERROR]
       end;
     aborted := aborted s;
     fetchUrlCalls := fetchUrlCalls s;
     returned := Some (data s);
     unhandledRejections := unhandledRejections s |}.

Definition setPhase (ph : Phase) (s : TileState ImageData) : TileState ImageData :=
  {| phase := ph; data := data s; dispatched := dispatched s;
     aborted := aborted s; fetchUrlCalls := fetchUrlCalls s;
     returned := returned s; unhandledRejections := unhandledRejections s |}.

Definition step (s : TileState ImageData) (ev : Signal ImageData)
    : TileState ImageData :=
  match ev, phase s with
  | Abort, _ =>
      {| phase := phase s; data := data s; dispatched := dispatched s;
         aborted := true; fetchUrlCalls := fetchUrlCalls s;
         returned := returned s; unhandledRejections := unhandledRejections s |}
  | FetchUrlResolved, AwaitingFetchUrl => setPhase AwaitingBlob s
  | FetchUrlRejected err, AwaitingFetchUrl => catch err s
  | BlobResolved, AwaitingBlob =>
      (* the worker is started; [return this.data] *)
      {| phase := AwaitingWorker; data := data s; dispatched := dispatched s;
         aborted := aborted s; fetchUrlCalls := fetchUrlCalls s;
         returned := Some (data s);
         unhandledRejections := unhandledRejections s |}
  | BlobRejected err, AwaitingBlob => catch err s
  | WorkerResolved response, AwaitingWorker =>
      (* the [.then] callback *)
      {| phase := Settled; data := Some response;
         dispatched := dispatched s ++ [TILEFETCHED];
         aborted := aborted s; fetchUrlCalls := fetchUrlCalls s;
         returned := returned s;
         unhandledRejections := unhandledRejections s |}
  | WorkerRejected, AwaitingWorker =>
      (* nothing handles the rejection of the [.then] chain *)
      {| phase := Settled; data := data s; dispatched := dispatched s;
         aborted := aborted s; fetchUrlCalls := fetchUrlCalls s;
         returned := returned s;
         unhandledRejections := S (unhandledRejections s) |}
  | _, _ => s
  end.

Definition run (s : TileState ImageData) (trace : list (Signal ImageData))
    : TileState ImageData :=
  fold_left step trace s.

(** The network stage of the fetch fails with [err] at signal [ev]. *)
Definition networkFailure (s : TileState ImageData) (ev : Signal ImageData)
    (err : FetchError) : Prop :=
  (phase s = AwaitingFetchUrl /\ ev = FetchUrlRejected err)
  \/ (phase s = AwaitingBlob /\ ev = BlobRejected err).

(** While the network stage is pending nothing has been stored or
    dispatched, and [fetchUrl] has been called once. *)
Definition pendingClean (s : TileState ImageData) : Prop :=
  fetchUrlCalls s = 1%nat
  /\ (phase s = AwaitingFetchUrl \/ phase s = AwaitingBlob ->
      data s = None /\ dispatched s = []).

End Fetch.

End TileFetch.

(** ** Annotation validation ([MapSchema]) *)

Module Annotation.

#[local] Unset Elimination Schemes.
Inductive json : Type :=
| JNull
| JBool (b : bool)
| JNumber (q : Q)
| JString (s : string)
| JArray (items : list json)
| JObject (entries : list (string * json)).
#[local] Set Elimination Schemes.

(** Property access: a missing key reads as [undefined] ([None]). *)
Definition lookupKey (key : string) (entries : list (string * json)) : option json :=
  match List.find (fun e => String.eqb (fst e) key) entries with
  | Some e => Some (snd e)
  | None => None
  end.

(** A zod schema, as the set of values (or [undefined]) it accepts. *)
Definition Schema : Type := option json -> bool.

Definition z_string (check : string -> bool) : Schema :=
  fun v => match v with Some (JString s) => check s | _ => false end.

Definition z_literal (lit : string) : Schema := z_string (String.eqb lit).

Definition z_number (check : Q -> bool) : Schema :=
  fun v => match v with Some (JNumber q) => check q | _ => false end.

Definition positive (q : Q) : bool := negb (Qle_bool q 0).

Definition z_array (item : Schema) : Schema :=
  fun v =>
    match v with
    | Some (JArray items) => forallb (fun i => item (Some i)) items
    | _ => false
    end.

Definition z_optional (schema : Schema) : Schema :=
  fun v => match v with None => true | Some _ => schema v end.

Definition z_object (shape : list (string * Schema)) : Schema :=
  fun v =>
    match v with
    | Some (JObject entries) =>
        forallb (fun field => snd field (lookupKey (fst field) entries)) shape
    | _ => false
    end.

Inductive TransformationKind : Type :=
| helmert
| polynomial1
| polynomial2
| polynomial3
| thinPlateSpline
| projective.

(** Modelled from the spec: the transformation kinds of section 3, under
    the names used there. *)
Definition transformationKindOfString (s : string) : option TransformationKind :=
  if String.eqb s "helmert" then Some helmert
  else if String.eqb s "polynomial-1" then Some polynomial1
  else if String.eqb s "polynomial-2" then Some polynomial2
  else if String.eqb s "polynomial-3" then Some polynomial3
  else if String.eqb s "thin-plate-spline" then Some thinPlateSpline
  else if String.eqb s "projective" then Some projective
  else None.

(** Modelled from the spec: section 3 gives the minimum number of ground
    control points for three kinds: "3 for affine/polynomial-1, 6 for
    polynomial-2, one for helmert". *)
Definition minimumGcps (kind : TransformationKind) : option nat :=
  match kind with
  | helmert => Some 1%nat
  | polynomial1 => Some 3%nat
  | polynomial2 => Some 6%nat
  | _ => None
  end.

(** Modelled from the spec: the schemas of [../shared.js] are not among the
    sources; section 6 gives the shapes: "resource: [x,y], geo: [lon,lat]",
    "type: ImageServiceN", "resourceMask: [[x,y], ...]" (section 3: "at
    least three vertices"), "transformation?: { type, options? }". *)
Definition PointSchema : Schema :=
  fun v =>
    match v with
    | Some (JArray [JNumber _; JNumber _]) => true
    | _ => false
    end.

Definition ImageServiceSchema : Schema :=
  z_string (fun s =>
              String.eqb s "ImageService1" || String.eqb s "ImageService2"
              || String.eqb s "ImageService3").

Definition ResourceMaskSchema : Schema :=
  fun v =>
    match v with
    | Some (JArray items) =>
        forallb (fun i => PointSchema (Some i)) items
        && Nat.leb 3 (List.length items)
    | _ => false
    end.

Definition TransformationSchema : Schema :=
  z_object
    [("type", z_string (fun s => match transformationKindOfString s with
                                 | Some _ => true
                                 | None => false
                                 end));
     ("options", z_optional (fun _ => true))].

Section Schemas.

(** String formats of zod ([.url()], [.datetime()]) and the schema of
    [partOf] entries, which no claim depends on. *)
Variable isUrl : string -> bool.
Variable isDatetime : string -> bool.
Variable PartOfSchema : Schema.

Definition GCPSchema : Schema :=
  z_object [("resource", PointSchema); ("geo", PointSchema)].

Definition ResourceSchema : Schema :=
  z_object
    [("id", z_string isUrl);
     ("height", z_optional (z_number positive));
     ("width", z_optional (z_number positive));
     ("type", ImageServiceSchema);
     ("partOf", z_optional (z_array PartOfSchema))].

Definition MapSchema : Schema :=
  z_object
    [("@context",
      z_optional (z_literal "https://schemas.allmaps.org/map/2/context.json"));
     ("type", z_literal "GeoreferencedMap");
     ("id", z_optional (z_string (fun _ => true)));
     ("created", z_optional (z_string isDatetime));
     ("modified", z_optional (z_string isDatetime));
     ("resource", ResourceSchema);
     ("gcps", z_array GCPSchema);
     ("resourceMask", ResourceMaskSchema);
     ("transformation", z_optional TransformationSchema)].

End Schemas.

(** The ground control points and the transformation kind of a map. *)
Definition gcpsOf (map : json) : option (list json) :=
  match map with
  | JObject entries =>
      match lookupKey "gcps" entries with
      | Some (JArray items) => Some items
      | _ => None
      end
  | _ => None
  end.

Definition transformationKindOf (map : json) : option TransformationKind :=
  match map with
  | JObject entries =>
      match lookupKey "transformation" entries with
      | Some (JObject t) =>
          match lookupKey "type" t with
          | Some (JString s) => transformationKindOfString s
          | _ => None
          end
      | _ => None
      end
  | _ => None
  end.

(** A map without ground control points, to be transformed by a helmert
    transformation. *)
Definition mapWithoutGcps : json :=
  JObject
    [("type", JString "GeoreferencedMap");
     ("resource",
      JObject [("id", JString "https://example.org/iiif/1");
               ("type", JString "ImageService2")]);
     ("gcps", JArray []);
     ("resourceMask",
      JArray [JArray [JNumber 0; JNumber 0]; JArray [JNumber 100; JNumber 0];
              JArray [JNumber 100; JNumber 100]]);
     ("transformation", JObject [("type", JString "helmert")])].

(** A URL check for concrete runs: the string starts with "https://". *)
Definition startsWithHttps (s : string) : bool := String.prefix "https://" s.

Definition mapWithTwoGcps : json :=
  JObject
    [("type", JString "GeoreferencedMap");
     ("resource",
      JObject [("id", JString "https://example.org/iiif/1");
               ("type", JString "ImageService2")]);
     ("gcps",
      JArray
        [JObject [("resource", JArray [JNumber 0; JNumber 0]);
                  ("geo", JArray [JNumber 4; JNumber 52])];
         JObject [("resource", JArray [JNumber 100; JNumber 100]);
                  ("geo", JArray [JNumber 5; JNumber 53])]]);
     ("resourceMask",
      JArray [JArray [JNumber 0; JNumber 0]; JArray [JNumber 100; JNumber 0];
              JArray [JNumber 100; JNumber 100]])].

End Annotation.

(** ** The tile server ([warped-tile-response.ts]) *)

Module Tileserver.
Import JS.

(** Tile coordinates are JavaScript numbers: IEEE 754 values, with NaN,
    infinities and signed zeros. *)
Record XYZTile : Type := mkXYZTile
  { x : spec_float; y : spec_float; z : spec_float }.

Definition js_zero : spec_float := S754_zero false.

(** [a >= b] and [a < b] on numbers; both are false when an operand is NaN. *)
Definition js_ge (a b : spec_float) : bool := SFleb b a.

Definition js_lt (a b : spec_float) : bool := SFltb a b.

Definition js_isNaN (a : spec_float) : bool :=
  match a with
  | S754_nan => true
  | _ => false
  end.

Definition positiveIntegersError : string :=
  "x, y and z must be positive integers".

Section Response.

(** The rest of [createWarpedTileResponse], after the guard: it renders the
    requested tile of the given maps (a closure over the maps, the options
    and the resolution). *)
Variable Response : Type.
Variable renderWarpedTile : XYZTile -> result Response.

Definition createWarpedTileResponse (tile : XYZTile) : result Response :=
  if negb (js_ge (x tile) js_zero && js_ge (y tile) js_zero
           && js_ge (z tile) js_zero)
  then Throw positiveIntegersError
  else renderWarpedTile tile.

End Response.

Definition negativeOrNaN (a : spec_float) : bool := js_lt a js_zero || js_isNaN a.

(** One half, as a number: mantissa 1, exponent -1. *)
Definition half : spec_float := S754_finite false 1 (-1).

End Tileserver.

(** ** IIIF image profiles ([iiif-parser/dist/lib/profile.js]) *)

Module Profile.
Import JS.
Local Open Scope Z_scope.

Definition anyRegionAndSizeFeatures : list string := ["regionByPx"; "sizeByWh"].

Definition unsupportedProfileError : string := "Unsupported IIIF Image Profile".

Definition invalidImageError : string := "Invalid Image".

Definition parseProfileUri (uri : string) : result Z :=
  if String.eqb uri "http://iiif.io/api/image/2/level0.json" then Return 0
  else if String.eqb uri "http://iiif.io/api/image/2/level1.json" then Return 1
  else if String.eqb uri "http://iiif.io/api/image/2/level2.json" then Return 2
  else Throw unsupportedProfileError.

(** [array.includes(feature)]. *)
Definition includes (features : list string) (feature : string) : bool :=
  existsb (String.eqb feature) features.

(** [anyRegionAndSizeFeatures.every(feature => features &&
    features.includes(feature))]: an absent list is falsy, an empty one is
    not. *)
Definition supportsAll (features : option (list string)) : bool :=
  forallb (fun feature =>
             match features with
             | Some fs => includes fs feature
             | None => false
             end)
          anyRegionAndSizeFeatures.

(** A profile description of an Image API 2 service, as parsed. *)
Module Description.
Record t : Type := mk
  { maxWidth : option Z;
    maxHeight : option Z;
    maxArea : option Z;
    supports : option (list string) }.
End Description.

(** What [getProfileProperties] returns. *)
Module Properties.
Record t : Type := mk
  { maxWidth : option Z;
    maxHeight : option Z;
    maxArea : option Z;
    supportsAnyRegionAndSize : bool }.
End Properties.

Definition parseImage2ProfileDescription (d : Description.t) : Properties.t :=
  {| Properties.maxWidth := Description.maxWidth d;
     Properties.maxHeight := Description.maxHeight d;
     Properties.maxArea := Description.maxArea d;
     Properties.supportsAnyRegionAndSize := supportsAll (Description.supports d) |}.

(** An entry of the [profile] array of an Image API 2 service: a URI or a
    description. *)
Inductive Profile2 : Type :=
| ProfileUri (uri : string)
| ProfileDescription (d : Description.t).

(** A parsed Image API 3 service (it has an [id]). *)
Module Image3.
Record t : Type := mk
  { profile : string;
    extraFeatures : option (list string);
    maxWidth : option Z;
    maxHeight : option Z;
    maxArea : option Z }.
End Image3.

(** A parsed image: it has an [id] (Image API 3), an [@id] with an array of
    profiles (Image API 2), or neither. *)
Inductive ParsedImage : Type :=
| WithId (image : Image3.t)
| WithAtId (profile : list Profile2)
| WithNeither.

(** The running maxima of the loop start at [Number.NEGATIVE_INFINITY]
    ([None]); [Math.max(value, max)]. *)
Definition Math_max (value : Z) (max : option Z) : option Z :=
  match max with
  | None => Some value
  | Some m => Some (Z.max value m)
  end.

Definition updateMax (value : option Z) (max : option Z) : option Z :=
  match value with
  | Some v => Math_max v max
  | None => max
  end.

(** [max >= 0 ? max : undefined]. *)
Definition nonNegativeOrUndefined (max : option Z) : option Z :=
  match max with
  | Some m => if 0 <=? m then Some m else None
  | None => None
  end.

(** The state of the [forEach] loop over the profiles. *)
Record LoopState : Type := mkLoopState
  { supportsAnyRegionAndSize : bool;
    maxHeight : option Z;
    maxWidth : option Z;
    maxArea : option Z }.

Definition loopStart : LoopState :=
  {| supportsAnyRegionAndSize := false; maxHeight := None; maxWidth := None;
     maxArea := None |}.

Definition loopBody (st : LoopState) (profile : Profile2) : result LoopState :=
  match profile with
  | ProfileUri uri =>
      match parseProfileUri uri with
      | Return profileLevel =>
          Return
            {| supportsAnyRegionAndSize :=
                 supportsAnyRegionAndSize st || (1 <=? profileLevel);
               maxHeight := maxHeight st; maxWidth := maxWidth st;
               maxArea := maxArea st |}
      | Throw msg => Throw msg
      end
  | ProfileDescription d =>
      let p := parseImage2ProfileDescription d in
      Return
        {| supportsAnyRegionAndSize :=
             supportsAnyRegionAndSize st || Properties.supportsAnyRegionAndSize p;
           maxHeight := updateMax (Properties.maxHeight p) (maxHeight st);
           maxWidth := updateMax (Properties.maxWidth p) (maxWidth st);
           maxArea := updateMax (Properties.maxArea p) (maxArea st) |}
  end.

Fixpoint forEach (profiles : list Profile2) (st : LoopState) : result LoopState :=
  match profiles with
  | [] => Return st
  | profile :: rest =>
      match loopBody st profile with
      | Return st' => forEach rest st'
      | Throw msg => Throw msg
      end
  end.

Definition getProfileProperties (parsedImage : ParsedImage) : result Properties.t :=
  match parsedImage with
  | WithId image =>
      let supportsAnyRegionAndSize :=
        if String.eqb (Image3.profile image) "level0"
        then match Image3.extraFeatures image with
             | Some _ => supportsAll (Image3.extraFeatures image)
             | None => false
             end
        else true in
      Return
        {| Properties.maxWidth := Image3.maxWidth image;
           Properties.maxHeight := Image3.maxHeight image;
           Properties.maxArea := Image3.maxArea image;
           Properties.supportsAnyRegionAndSize := supportsAnyRegionAndSize |}
  | WithAtId profiles =>
      match forEach profiles loopStart with
      | Return st =>
          Return
            {| Properties.maxWidth := nonNegativeOrUndefined (maxWidth st);
               Properties.maxHeight := nonNegativeOrUndefined (maxHeight st);
               Properties.maxArea := nonNegativeOrUndefined (maxArea st);
               Properties.supportsAnyRegionAndSize := supportsAnyRegionAndSize st |}
      | Throw msg => Throw msg
      end
  | WithNeither => Throw invalidImageError
  end.

(** Vocabulary for the statements: the URIs [parseProfileUri] knows, the
    limits the descriptions give, and what makes a profile support any
    region and size. *)
Definition knownUri (uri : string) : bool :=
  String.eqb uri "http://iiif.io/api/image/2/level0.json"
  || String.eqb uri "http://iiif.io/api/image/2/level1.json"
  || String.eqb uri "http://iiif.io/api/image/2/level2.json".

Definition unknownUriIn (profile : Profile2) : bool :=
  match profile with
  | ProfileUri uri => negb (knownUri uri)
  | ProfileDescription _ => false
  end.

Definition givenValues (field : Description.t -> option Z)
    (profiles : list Profile2) : list Z :=
  flat_map (fun profile =>
              match profile with
              | ProfileDescription d =>
                  match field d with
                  | Some value => [value]
                  | None => []
                  end
              | ProfileUri _ => []
              end)
           profiles.

(** [limit] is what the loop leaves of the values given: the largest one,
    when it is not negative. *)
Definition largestNonNegative (values : list Z) (limit : option Z) : Prop :=
  match limit with
  | Some m => 0 <= m /\ In m values /\ forall v, In v values -> v <= m
  | None => forall v, In v values -> v < 0
  end.

Definition profileSupports (profile : Profile2) : bool :=
  match profile with
  | ProfileUri uri =>
      String.eqb uri "http://iiif.io/api/image/2/level1.json"
      || String.eqb uri "http://iiif.io/api/image/2/level2.json"
  | ProfileDescription d =>
      match Description.supports d with
      | Some fs => includes fs "regionByPx" && includes fs "sizeByWh"
      | None => false
      end
  end.

(** The profiles of a level-1 service with two descriptions. *)
Definition exampleProfiles : list Profile2 :=
  [ProfileUri "http://iiif.io/api/image/2/level1.json";
   ProfileDescription
     {| Description.maxWidth := Some 4000; Description.maxHeight := None;
        Description.maxArea := Some 10000000;
        Description.supports := Some ["regionByPx"] |};
   ProfileDescription
     {| Description.maxWidth := Some 2000; Description.maxHeight := Some (-1);
        Description.maxArea := None;
        Description.supports := None |}].

End Profile.

(** ** The Leaflet layer ([WarpedMapLayer]) *)

Module Leaflet.
Import JS Geometry Matrix.

(** The value of a character matched by [[a-f\d]] under the flag [i]. *)
Definition hexDigitValue (c : ascii) : option Z :=
  let n := Z.of_nat (nat_of_ascii c) in
  if (48 <=? n)%Z && (n <=? 57)%Z then Some (n - 48)%Z
  else if (97 <=? n)%Z && (n <=? 102)%Z then Some (n - 87)%Z
  else if (65 <=? n)%Z && (n <=? 70)%Z then Some (n - 55)%Z
  else None.

(** [parseInt(pair, 16)] of two hexadecimal digits. *)
Definition parseHexPair (hi lo : ascii) : option Z :=
  match hexDigitValue hi, hexDigitValue lo with
  | Some h, Some l => Some (16 * h + l)%Z
  | _, _ => None
  end.

(** The optional leading [#] of the pattern. *)
Definition stripHash (s : string) : string :=
  match s with
  | String "#"%char rest => rest
  | _ => s
  end.

(** [hexToRgb]: nothing for [undefined] and for the empty string; nothing
    unless the pattern [/^#?([a-f\d]{2})([a-f\d]{2})([a-f\d]{2})$/i]
    matches; otherwise the three pairs, each divided by 256. *)
Definition hexToRgb (hex : option string) : option (Q * Q * Q) :=
  match hex with
  | None => None
  | Some EmptyString => None
  | Some s =>
      match stripHash s with
      | String r1 (String r2 (String g1 (String g2 (String b1 (String b2
          EmptyString))))) =>
          match parseHexPair r1 r2, parseHexPair g1 g2, parseHexPair b1 b2 with
          | Some r, Some g, Some b =>
              Some (inject_Z r / 256, inject_Z g / 256, inject_Z b / 256)%Q
          | _, _, _ => None
          end
      | _ => None
      end
  end.

Local Open Scope R_scope.

Record FrameState : Type := mkFrameState
  { size : Size;
    rotation : R;
    resolution : R;
    center : Point;
    extent : Bbox;
    coordinateToPixelTransform : Transform }.

(** [computeFrameState], from what the Leaflet map reports: its size in
    pixels and the projected south-west and north-east corners of its
    bounds. *)
Definition computeFrameState (mapSize : Size) (southWest northEast : Point)
    : FrameState :=
  let size := mapSize in
  let rotation := 0 in
  let extent := (fst southWest, snd southWest, fst northEast, snd northEast) in
  let '(e0, e1, e2, e3) := extent in
  let xResolution := (e2 - e0) / fst size in
  let yResolution := (e3 - e1) / snd size in
  let resolution := Rmax xResolution yResolution in
  let center := ((e0 + e2) / 2, (e1 + e3) / 2) in
  let coordinateToPixelTransform :=
    composeTransform (fst size / 2) (snd size / 2)
      (1 / resolution) (- 1 / resolution) (- rotation)
      (- fst center) (- snd center) in
  {| size := size; rotation := rotation; resolution := resolution;
     center := center; extent := extent;
     coordinateToPixelTransform := coordinateToPixelTransform |}.

(** [makeProjectionTransform]. *)
Definition makeProjectionTransform (frameState : FrameState) : Transform :=
  let size := size frameState in
  let rotation := rotation frameState in
  let resolution := resolution frameState in
  let center := center frameState in
  composeTransform 0 0
    (2 / (resolution * fst size)) (2 / (resolution * snd size))
    (- rotation) (- fst center) (- snd center).

End Leaflet.

(** ** The command [annotation image-ids] ([cli]) *)

Module Cli.

(** [new Set(ids)]: the values in the order of their first occurrence. *)
Definition setAdd (value : string) (set : list string) : list string :=
  if existsb (String.eqb value) set then set else set ++ [value].

Definition newSet (values : list string) : list string :=
  fold_left (fun set value => setAdd value set) values [].

(** What [image-ids] prints for maps with the given resource ids:
    [[...imageIds].join('\n')]. *)
Definition newline : string := String (ascii_of_nat 10) EmptyString.

Definition imageIdsOutput (resourceIds : list string) : string :=
  String.concat newline (newSet resourceIds).

End Cli.

(* ===================================================================== *)
(** * Part II: theorems                                                   *)
(* ===================================================================== *)

Module RenderFacts.
Import JS Geometry Matrix Render.
Local Open Scope R_scope.

Lemma Math_round_int (z : Z) : Math_round (IZR z) = IZR z.
Proof.
  unfold Math_round. f_equal. apply Zfloor_eq. lra.
Qed.

Lemma Math_round_idem (x : R) : Math_round (Math_round x) = Math_round x.
Proof. unfold Math_round at 2. apply Math_round_int. Qed.

Lemma sin2_cos2' (a : R) : sin a * sin a + cos a * cos a = 1.
Proof. pose proof (sin2_cos2 a) as H. unfold Rsqr in H. exact H. Qed.

(** ** The viewport rectangle *)

(** C6: for every viewport the projectedGeoRectangle is the axis-aligned
    rectangle of size viewportSize times projectedGeoPerViewportScale,
    centered at the origin, rotated by the rotation and translated to
    projectedGeoCenter, and the midpoint of its four corners is
    projectedGeoCenter. *)
Theorem projectedGeoRectangle_is_rotated_rectangle
    (size : Size) (center : Point) (scale : R) (rot dpr : option R) :
  let v := new_Viewport size center scale rot dpr in
  projectedGeoRectangle v =
    rotatedRectangleSpec (viewportSize v) (projectedGeoPerViewportScale v)
      (rotation v) (projectedGeoCenter v)
  /\ midPoint (projectedGeoRectangle v) = projectedGeoCenter v.
Proof.
  destruct center as [cx cy]. cbn zeta.
  unfold new_Viewport, computeProjectedGeoRectangle, rotatedRectangleSpec; cbn.
  set (w := Math_round (fst size) * scale).
  set (h := Math_round (snd size) * scale).
  set (a := orDefault 0 rot).
  split.
  - repeat (f_equal; try (apply injective_projections; cbn; field)).
  - unfold midPoint; cbn. apply injective_projections; cbn; field.
Qed.

(** ** The projected-geo to viewport transform *)

Lemma determinant_composeTransform (dx1 dy1 sx sy angle dx2 dy2 : R) :
  determinant (composeTransform dx1 dy1 sx sy angle dx2 dy2) = sx * sy.
Proof.
  unfold determinant, composeTransform; cbn.
  pose proof (sin2_cos2' angle) as H.
  replace (sx * cos angle * (sy * cos angle) - sy * sin angle * (- sx * sin angle))
    with (sx * sy * (sin angle * sin angle + cos angle * cos angle)) by ring.
  rewrite H. ring.
Qed.

Lemma invertTransform_left (t : Transform) (p : Point) :
  determinant t <> 0 ->
  applyTransform (invertTransform t) (applyTransform t p) = p.
Proof.
  intros Hdet. destruct p as [x y]. destruct t as [a b c d e f].
  unfold determinant in Hdet. cbn in Hdet.
  unfold applyTransform, invertTransform, determinant; cbn.
  apply injective_projections; cbn; field; exact Hdet.
Qed.

Lemma invertTransform_right (t : Transform) (p : Point) :
  determinant t <> 0 ->
  applyTransform t (applyTransform (invertTransform t) p) = p.
Proof.
  intros Hdet. destruct p as [x y]. destruct t as [a b c d e f].
  unfold determinant in Hdet. cbn in Hdet.
  unfold applyTransform, invertTransform, determinant; cbn.
  apply injective_projections; cbn; field; exact Hdet.
Qed.

Lemma applyTransform_identity (p : Point) : applyTransform identityTransform p = p.
Proof.
  destruct p as [x y]. unfold applyTransform; cbn.
  apply injective_projections; cbn; ring.
Qed.

Lemma determinant_projectedGeoToViewport
    (size : Size) (center : Point) (scale : R) (rot dpr : option R) :
  scale <> 0 ->
  determinant (projectedGeoToViewportTransform
                 (new_Viewport size center scale rot dpr)) <> 0.
Proof.
  intros Hs. cbn. unfold composeProjectedGeoToViewportTransform.
  rewrite determinant_composeTransform.
  assert (H : 1 / scale <> 0).
  { unfold Rdiv. rewrite Rmult_1_l. apply Rinv_neq_0_compat. exact Hs. }
  replace (-1 / scale) with (- (1 / scale)) by (field; exact Hs).
  intros Hz. apply H. nra.
Qed.

Lemma applyTransform_multiply (t u : Transform) (p : Point) :
  applyTransform (multiplyTransform t u) p = applyTransform t (applyTransform u p).
Proof.
  destruct p as [x y]. unfold applyTransform, multiplyTransform; cbn.
  apply injective_projections; cbn; ring.
Qed.

Lemma multiplyTransform_inverse (t : Transform) :
  determinant t <> 0 ->
  multiplyTransform (invertTransform t) t = identityTransform
  /\ multiplyTransform t (invertTransform t) = identityTransform.
Proof.
  intros Hdet. destruct t as [a b c d e f].
  unfold determinant in Hdet. cbn in Hdet.
  unfold multiplyTransform, invertTransform, identityTransform, determinant; cbn.
  split; f_equal; field; exact Hdet.
Qed.

(** C2: for every viewport with a non-zero scale, the
    projectedGeoToViewportTransform composed with its inverse, in either
    order, is the identity transform (exactly, over the reals, hence within
    every tolerance), as transforms and on every point, and the transform
    sends projectedGeoCenter to viewportCenter. *)
Theorem projectedGeoToViewport_inverse_and_center
    (size : Size) (center : Point) (scale : R) (rot dpr : option R) :
  scale <> 0 ->
  let v := new_Viewport size center scale rot dpr in
  let t := projectedGeoToViewportTransform v in
  multiplyTransform (invertTransform t) t = identityTransform
  /\ multiplyTransform t (invertTransform t) = identityTransform
  /\ (forall p, applyTransform (invertTransform t) (applyTransform t p) = p)
  /\ (forall p, applyTransform t (applyTransform (invertTransform t) p) = p)
  /\ applyTransform t (projectedGeoCenter v) = viewportCenter v.
Proof.
  intros Hs v t.
  pose proof (determinant_projectedGeoToViewport size center scale rot dpr Hs) as Hdet.
  fold v in Hdet. fold t in Hdet.
  destruct (multiplyTransform_inverse t Hdet) as [Hl Hr].
  repeat split.
  - exact Hl.
  - exact Hr.
  - intros p. apply invertTransform_left, Hdet.
  - intros p. apply invertTransform_right, Hdet.
  - subst t v. destruct center as [cx cy].
    unfold applyTransform; cbn. apply injective_projections; cbn; field; exact Hs.
Qed.

(** A viewport of size 200 x 100 at scale 2, turned by a quarter. *)
Lemma projectedGeoToViewport_inverse_and_center_witness :
  let v := new_Viewport (200, 100) (50, 50) 2 (Some (PI / 2)) None in
  let t := projectedGeoToViewportTransform v in
  multiplyTransform (invertTransform t) t = identityTransform
  /\ multiplyTransform t (invertTransform t) = identityTransform
  /\ (forall p, applyTransform (invertTransform t) (applyTransform t p) = p)
  /\ (forall p, applyTransform t (applyTransform (invertTransform t) p) = p)
  /\ applyTransform t (projectedGeoCenter v) = viewportCenter v.
Proof.
  apply (projectedGeoToViewport_inverse_and_center
           (200, 100) (50, 50) 2 (Some (PI / 2)) None).
  lra.
Defined.

(** ** Rounding of the viewport size *)

Lemma nearestInteger_Math_round (x : R) (z : Z) :
  nearestInteger x z <-> Math_round x = IZR z.
Proof.
  unfold nearestInteger, Math_round. split.
  - intros H. f_equal. apply Zfloor_eq. lra.
  - intros H. apply eq_IZR in H. subst z.
    pose proof (Zfloor_bound (x + / 2)) as B. lra.
Qed.

(** C9: the viewportSize of a constructed viewport is the given size with
    both components rounded to the nearest integer (ties upwards): its
    components are integers, each within one half of the component given;
    viewportCenter, viewportBbox, canvasSize, projectedGeoRectangle and the
    four transforms are computed from these integers, not from the size
    passed in; and two sizes that round to the same integers give the same
    viewport. *)
Theorem viewport_derived_from_rounded_size
    (size : Size) (center : Point) (scale : R) (rot dpr : option R) :
  let v := new_Viewport size center scale rot dpr in
  exists zw zh : Z,
    nearestInteger (fst size) zw /\ nearestInteger (snd size) zh
    /\ viewportSize v = (IZR zw, IZR zh)
    /\ viewportCenter v = (IZR zw / 2, IZR zh / 2)
    /\ viewportBbox v = (0, 0, IZR zw, IZR zh)
    /\ canvasSize v = (IZR zw * devicePixelRatio v, IZR zh * devicePixelRatio v)
    /\ projectedGeoRectangle v =
         rotatedRectangleSpec (IZR zw, IZR zh) scale (rotation v) center
    /\ projectedGeoToViewportTransform v =
         composeTransform (IZR zw / 2) (IZR zh / 2) (1 / scale) (- 1 / scale)
           (- rotation v) (- fst center) (- snd center)
    /\ projectedGeoToCanvasTransform v =
         composeTransform (IZR zw / 2 * devicePixelRatio v)
           (IZR zh / 2 * devicePixelRatio v)
           (1 / (scale / devicePixelRatio v))
           (- 1 / (scale / devicePixelRatio v))
           (- rotation v) (- fst center) (- snd center)
    /\ projectedGeoToClipTransform v =
         composeTransform 0 0 (2 / (scale * IZR zw)) (2 / (scale * IZR zh))
           (- rotation v) (- fst center) (- snd center)
    /\ viewportToClipTransform v =
         composeTransform 0 0 (2 / IZR zw) (- 2 / IZR zh) 0
           (- (IZR zw / 2)) (- (IZR zh / 2))
    /\ (forall size' : Size,
           nearestInteger (fst size') zw -> nearestInteger (snd size') zh ->
           new_Viewport size' center scale rot dpr = v).
Proof.
  cbn zeta.
  exists (Zfloor (fst size + / 2)), (Zfloor (snd size + / 2)).
  split; [apply nearestInteger_Math_round; reflexivity |].
  split; [apply nearestInteger_Math_round; reflexivity |].
  repeat (split; [reflexivity |]).
  split.
  - destruct center as [cx cy].
    unfold new_Viewport, computeProjectedGeoRectangle, rotatedRectangleSpec; cbn.
    unfold Math_round.
    set (w := IZR (Zfloor (fst size + / 2))).
    set (h := IZR (Zfloor (snd size + / 2))).
    repeat (f_equal; try (apply injective_projections; cbn; field)).
  - repeat (split; [reflexivity |]).
    intros size' Hw Hh.
    apply nearestInteger_Math_round in Hw, Hh.
    unfold new_Viewport. rewrite Hw, Hh. reflexivity.
Qed.

(** The size 200.4 x 99.5 is stored as 200 x 100: the fraction is dropped
    and the tie goes up. *)
Example viewportSize_rounds :
  viewportSize (new_Viewport (200.4, 99.5) (0, 0) 1 None None) = (200, 100).
Proof.
  cbn. unfold Math_round.
  f_equal; f_equal; apply Zfloor_eq; lra.
Qed.

(** ** Fitting a polygon: [fromSizeAndPolygon] *)

Lemma fold_bbox_grows (rest : list Point) (x0 y0 x1 y1 : R) :
  let b := fold_left
             (fun '(x0, y0, x1, y1) '(x, y) =>
                (Rmin x0 x, Rmin y0 y, Rmax x1 x, Rmax y1 y))
             rest (x0, y0, x1, y1) in
  (forall p, inBbox (x0, y0, x1, y1) p -> inBbox b p)
  /\ (forall p, In p rest -> inBbox b p).
Proof.
  revert x0 y0 x1 y1.
  induction rest as [| [x y] rest IH]; intros x0 y0 x1 y1; cbn zeta.
  - split; [auto | intros p []].
  - cbn [fold_left].
    destruct (IH (Rmin x0 x) (Rmin y0 y) (Rmax x1 x) (Rmax y1 y)) as [IH1 IH2].
    pose proof (Rmin_l x0 x). pose proof (Rmin_r x0 x).
    pose proof (Rmin_l y0 y). pose proof (Rmin_r y0 y).
    pose proof (Rmax_l x1 x). pose proof (Rmax_r x1 x).
    pose proof (Rmax_l y1 y). pose proof (Rmax_r y1 y).
    split.
    + intros p Hp. apply IH1. unfold inBbox in *. lra.
    + intros p [<- | Hp]; [| auto].
      apply IH1. unfold inBbox; cbn. lra.
Qed.

Lemma computeBbox_contains (points : list Point) (p : Point) :
  In p points -> inBbox (computeBbox points) p.
Proof.
  destruct points as [| q rest]; [intros [] |].
  unfold computeBbox.
  destruct (fold_bbox_grows rest (fst q) (snd q) (fst q) (snd q)) as [H1 H2].
  intros [<- | Hp]; [| auto].
  apply H1. unfold inBbox. lra.
Qed.

Lemma computeBbox_ordered (points : list Point) (x0 y0 x1 y1 : R) :
  points <> [] -> computeBbox points = (x0, y0, x1, y1) -> x0 <= x1 /\ y0 <= y1.
Proof.
  intros Hne Hb. destruct points as [| q rest]; [congruence |].
  pose proof (computeBbox_contains (q :: rest) q (or_introl eq_refl)) as H.
  rewrite Hb in H. unfold inBbox in H. lra.
Qed.

Lemma angle_negatedIfTruthy (rot : option R) :
  orDefault 0 (negatedIfTruthy rot) = - orDefault 0 rot.
Proof.
  destruct rot as [r |]; cbn; [| lra].
  destruct (Req_dec_T r 0) as [-> | _]; cbn; lra.
Qed.

Lemma rotatePoint_zero (p : Point) (a : option R) :
  orDefault 0 a = 0 -> rotatePoint p a = p.
Proof.
  intros H. destruct p as [x y]. unfold rotatePoint. rewrite H, cos_0, sin_0.
  apply injective_projections; cbn; ring.
Qed.

Lemma rotatePoints_zero (ps : list Point) (a : option R) :
  orDefault 0 a = 0 -> rotatePoints ps a = ps.
Proof.
  intros H. unfold rotatePoints.
  rewrite (map_ext _ (fun p => p)); [apply map_id |].
  intros p. apply rotatePoint_zero, H.
Qed.

Lemma rotatePoint_back (p : Point) (rot : option R) :
  rotatePoint (rotatePoint p (negatedIfTruthy rot)) rot = p.
Proof.
  destruct p as [x y]. unfold rotatePoint.
  rewrite angle_negatedIfTruthy, cos_neg, sin_neg.
  pose proof (sin2_cos2' (orDefault 0 rot)) as H.
  set (c := cos (orDefault 0 rot)) in *. set (sn := sin (orDefault 0 rot)) in *.
  apply injective_projections; cbn [fst snd].
  - transitivity (x * (sn * sn + c * c)); [ring | rewrite H; ring].
  - transitivity (y * (sn * sn + c * c)); [ring | rewrite H; ring].
Qed.

(** A point of an axis-aligned box stays in the box when both are turned. *)
Lemma inRectangle_rotated (a : option R) (x0 y0 x1 y1 : R) (u : Point) :
  x0 <= x1 -> y0 <= y1 -> inBbox (x0, y0, x1, y1) u ->
  inRectangle (rotatePoints (bboxToRectangle (x0, y0, x1, y1)) a) (rotatePoint u a).
Proof.
  intros Hx Hy [Hux Huy]. destruct u as [ux uy]. cbn [fst snd] in *.
  assert (Hs : exists s, 0 <= s <= 1 /\ s * (x1 - x0) = ux - x0).
  { destruct (Req_dec_T x1 x0) as [E | E].
    - exists 0. split; lra.
    - exists ((ux - x0) / (x1 - x0)). split.
      + split.
        * apply Rmult_le_pos; [lra |]. left. apply Rinv_0_lt_compat. lra.
        * apply Rmult_le_reg_r with (x1 - x0); [lra |].
          unfold Rdiv. rewrite Rmult_assoc, Rinv_l; lra.
      + field. lra. }
  assert (Ht : exists t, 0 <= t <= 1 /\ t * (y1 - y0) = uy - y0).
  { destruct (Req_dec_T y1 y0) as [E | E].
    - exists 0. split; lra.
    - exists ((uy - y0) / (y1 - y0)). split.
      + split.
        * apply Rmult_le_pos; [lra |]. left. apply Rinv_0_lt_compat. lra.
        * apply Rmult_le_reg_r with (y1 - y0); [lra |].
          unfold Rdiv. rewrite Rmult_assoc, Rinv_l; lra.
      + field. lra. }
  destruct Hs as [s [Hs Es]]. destruct Ht as [t [Ht Et]].
  cbn. exists s, t. repeat split; try lra.
  - set (c := cos (orDefault 0 a)). set (sn := sin (orDefault 0 a)).
    transitivity (x0 * c - y0 * sn + (s * (x1 - x0)) * c - (t * (y1 - y0)) * sn);
      [rewrite Es, Et; ring | ring].
  - set (c := cos (orDefault 0 a)). set (sn := sin (orDefault 0 a)).
    transitivity (x0 * sn + y0 * c + (s * (x1 - x0)) * sn + (t * (y1 - y0)) * c);
      [rewrite Es, Et; ring | ring].
Qed.

(** The viewport rectangle is a turned axis-aligned box around the center
    taken in the viewport frame. *)
Lemma computeProjectedGeoRectangle_box (size : Size) (scale : R)
    (rot : option R) (qc : Point) :
  computeProjectedGeoRectangle size scale (orDefault 0 rot) (rotatePoint qc rot)
  = rotatePoints
      (bboxToRectangle
         (fst qc - fst size * scale / 2, snd qc - snd size * scale / 2,
          fst qc + fst size * scale / 2, snd qc + snd size * scale / 2))
      rot.
Proof.
  destruct qc as [qx qy], size as [w h].
  unfold computeProjectedGeoRectangle, rotatePoints, rotatePoint, midPoint; cbn.
  set (c := cos (orDefault 0 rot)). set (sn := sin (orDefault 0 rot)).
  repeat (f_equal; try (apply injective_projections; cbn; field)).
Qed.

Lemma projectedGeoRectangle_fromSizeAndPolygon
    (w h : R) (ring : Ring) (rings : list Ring) (fit : Fit) (rot dpr : option R) :
  Math_round w = w -> Math_round h = h ->
  exists v,
    fromSizeAndPolygon (w, h) (ring :: rings) (Some fit) rot dpr None = Return v
    /\ let b := computeBbox (rotatePoints ring (negatedIfTruthy rot)) in
       let k := sizesToScale (bboxToSize b) (w, h) fit in
       let qc := bboxToCenter b in
       projectedGeoRectangle v
       = rotatePoints
           (bboxToRectangle
              (fst qc - w * k / 2, snd qc - h * k / 2,
               fst qc + w * k / 2, snd qc + h * k / 2))
           rot.
Proof.
  intros Hw Hh. eexists. split; [reflexivity |].
  cbn zeta. cbn [projectedGeoRectangle new_Viewport fst snd orDefault].
  rewrite Hw, Hh.
  rewrite (computeProjectedGeoRectangle_box (w, h)). cbn [fst snd].
  rewrite Rmult_1_r. reflexivity.
Qed.

Lemma contain_scale_bounds (w h dx dy : R) :
  0 < w -> 0 < h ->
  let k := sizesToScale (dx, dy) (w, h) contain in
  dx <= w * k /\ dy <= h * k.
Proof.
  intros Hw Hh. cbn.
  pose proof (Rmax_l (dx / w) (dy / h)) as Hl.
  pose proof (Rmax_r (dx / w) (dy / h)) as Hr.
  assert (Ex : w * (dx / w) = dx) by (field; lra).
  assert (Ey : h * (dy / h) = dy) by (field; lra).
  split; nra.
Qed.

Lemma cover_scale_bounds (w h dx dy : R) :
  0 < w -> 0 < h -> 0 <= dx -> 0 <= dy ->
  let k := sizesToScale (dx, dy) (w, h) cover in
  0 <= w * k <= dx /\ 0 <= h * k <= dy.
Proof.
  intros Hw Hh Hdx Hdy. cbn.
  pose proof (Rmin_l (dx / w) (dy / h)) as Hl.
  pose proof (Rmin_r (dx / w) (dy / h)) as Hr.
  assert (Ex : w * (dx / w) = dx) by (field; lra).
  assert (Ey : h * (dy / h) = dy) by (field; lra).
  assert (Hk : 0 <= Rmin (dx / w) (dy / h)).
  { apply Rmin_glb; apply Rmult_le_pos; try lra;
      left; apply Rinv_0_lt_compat; lra. }
  repeat split; nra.
Qed.

Lemma fromSizeAndPolygon_contain_encloses
    (w h : R) (ring : Ring) (rings : list Ring) (rot dpr : option R) :
  0 < w -> 0 < h -> Math_round w = w -> Math_round h = h -> ring <> [] ->
  exists v,
    fromSizeAndPolygon (w, h) (ring :: rings) (Some contain) rot dpr None = Return v
    /\ Forall (inRectangle (projectedGeoRectangle v)) ring.
Proof.
  intros Hw Hh Rw Rh Hne.
  destruct (projectedGeoRectangle_fromSizeAndPolygon w h ring rings contain rot dpr Rw Rh)
    as [v [Ev Hrect]].
  exists v. split; [exact Ev |].
  cbn zeta in Hrect. rewrite Hrect. clear Hrect Ev v.
  set (rring := rotatePoints ring (negatedIfTruthy rot)).
  destruct (computeBbox rring) as [[[x0 y0] x1] y1] eqn:Eb.
  assert (Hrne : rring <> []).
  { subst rring. destruct ring; [congruence | discriminate]. }
  destruct (computeBbox_ordered rring x0 y0 x1 y1 Hrne Eb) as [Hx Hy].
  cbn [bboxToSize bboxToCenter fst snd].
  destruct (contain_scale_bounds w h (x1 - x0) (y1 - y0) Hw Hh) as [Kx Ky].
  set (k := sizesToScale (x1 - x0, y1 - y0) (w, h) contain) in *.
  apply Forall_forall. intros p Hp.
  rewrite <- (rotatePoint_back p rot).
  apply inRectangle_rotated; try lra.
  assert (Hq : In (rotatePoint p (negatedIfTruthy rot)) rring).
  { subst rring. unfold rotatePoints.
    apply (in_map (fun q => rotatePoint q (negatedIfTruthy rot))). exact Hp. }
  pose proof (computeBbox_contains rring _ Hq) as Hb. rewrite Eb in Hb.
  unfold inBbox in *. lra.
Qed.

Lemma fromSizeAndPolygon_cover_enclosed
    (w h : R) (ring : Ring) (rings : list Ring) (rot dpr : option R) :
  0 < w -> 0 < h -> Math_round w = w -> Math_round h = h -> ring <> [] ->
  exists v,
    fromSizeAndPolygon (w, h) (ring :: rings) (Some cover) rot dpr None = Return v
    /\ Forall (inRectangle (rotatedBboxRectangle ring rot)) (projectedGeoRectangle v).
Proof.
  intros Hw Hh Rw Rh Hne.
  destruct (projectedGeoRectangle_fromSizeAndPolygon w h ring rings cover rot dpr Rw Rh)
    as [v [Ev Hrect]].
  exists v. split; [exact Ev |].
  cbn zeta in Hrect. rewrite Hrect. clear Hrect Ev v.
  unfold rotatedBboxRectangle.
  set (rring := rotatePoints ring (negatedIfTruthy rot)).
  destruct (computeBbox rring) as [[[x0 y0] x1] y1] eqn:Eb.
  assert (Hrne : rring <> []).
  { subst rring. destruct ring; [congruence | discriminate]. }
  destruct (computeBbox_ordered rring x0 y0 x1 y1 Hrne Eb) as [Hx Hy].
  cbn [bboxToSize bboxToCenter fst snd].
  destruct (cover_scale_bounds w h (x1 - x0) (y1 - y0) Hw Hh) as [Kx Ky]; try lra.
  set (k := sizesToScale (x1 - x0, y1 - y0) (w, h) cover) in *.
  unfold rotatePoints at 2. cbn [bboxToRectangle map].
  repeat constructor;
    apply inRectangle_rotated; try lra; unfold inBbox; cbn [fst snd]; lra.
Qed.

Lemma fromSizeAndPolygon_center
    (size : Size) (ring : Ring) (rings : list Ring) (fit : option Fit)
    (rot dpr zoom : option R) (v : Viewport) :
  orDefault 0 rot = 0 ->
  fromSizeAndPolygon size (ring :: rings) fit rot dpr zoom = Return v ->
  projectedGeoCenter v = bboxToCenter (computeBbox ring).
Proof.
  intros H0 Ev. cbn in Ev. injection Ev as <-.
  cbn [projectedGeoCenter new_Viewport].
  rewrite rotatePoint_zero by exact H0.
  rewrite rotatePoints_zero; [reflexivity |].
  rewrite angle_negatedIfTruthy, H0. lra.
Qed.

Ltac simpl_minmax :=
  repeat match goal with
    | |- context [Rmin ?a ?b] =>
        first [rewrite (Rmin_left a b) by lra | rewrite (Rmin_right a b) by lra]
    | |- context [Rmax ?a ?b] =>
        first [rewrite (Rmax_left a b) by lra | rewrite (Rmax_right a b) by lra]
    end.

(** Scenario E of the specification. *)
Lemma fromSizeAndPolygon_scenario_E :
  exists v,
    fromSizeAndPolygon (200, 100) [[(0, 0); (100, 0); (100, 100); (0, 100)]]
      (Some contain) (Some 0) None None = Return v
    /\ projectedGeoCenter v = (50, 50)
    /\ projectedGeoPerViewportScale v = 1.
Proof.
  eexists. split; [reflexivity |].
  cbn [projectedGeoCenter projectedGeoPerViewportScale new_Viewport orDefault].
  rewrite rotatePoints_zero by (rewrite angle_negatedIfTruthy; cbn; lra).
  rewrite rotatePoint_zero by reflexivity.
  cbn. simpl_minmax. split; [apply injective_projections; cbn; lra |].
  replace ((100 - 0) / 200) with (/ 2) by lra.
  replace ((100 - 0) / 100) with 1 by lra.
  simpl_minmax. lra.
Qed.

(** C1 (as amended): for every viewport size with positive integer
    components, default zoom and every polygon whose first ring P is not
    empty, [fromSizeAndPolygon] with 'contain' gives a viewport whose
    projectedGeoRectangle encloses every vertex of P; with 'cover' every
    corner of the projectedGeoRectangle lies in the bounding box of P taken
    in the viewport's frame; for every size and fit, when the rotation is
    zero or absent the projectedGeoCenter is the center of P's bounding box;
    and scenario E yields center (50, 50) and scale 1. *)
Theorem fromSizeAndPolygon_fit
    (w h : R) (ring : Ring) (rings : list Ring) (rot dpr : option R) :
  0 < w -> 0 < h -> Math_round w = w -> Math_round h = h -> ring <> [] ->
  (exists v,
      fromSizeAndPolygon (w, h) (ring :: rings) (Some contain) rot dpr None = Return v
      /\ Forall (inRectangle (projectedGeoRectangle v)) ring)
  /\ (exists v,
         fromSizeAndPolygon (w, h) (ring :: rings) (Some cover) rot dpr None = Return v
         /\ Forall (inRectangle (rotatedBboxRectangle ring rot))
              (projectedGeoRectangle v))
  /\ (forall size fit zoom,
         orDefault 0 rot = 0 ->
         exists v,
           fromSizeAndPolygon size (ring :: rings) fit rot dpr zoom = Return v
           /\ projectedGeoCenter v = bboxToCenter (computeBbox ring))
  /\ (exists v,
         fromSizeAndPolygon (200, 100) [[(0, 0); (100, 0); (100, 100); (0, 100)]]
           (Some contain) (Some 0) None None = Return v
         /\ projectedGeoCenter v = (50, 50)
         /\ projectedGeoPerViewportScale v = 1).
Proof.
  intros Hw Hh Rw Rh Hne.
  split; [apply fromSizeAndPolygon_contain_encloses; assumption |].
  split; [apply fromSizeAndPolygon_cover_enclosed; assumption |].
  split; [| apply fromSizeAndPolygon_scenario_E].
  intros size fit zoom H0.
  destruct (fromSizeAndPolygon size (ring :: rings) fit rot dpr zoom)
    as [v | msg] eqn:Ev; [| discriminate Ev].
  exists v. split; [reflexivity |].
  exact (fromSizeAndPolygon_center size ring rings fit rot dpr zoom v H0 Ev).
Qed.

(** A 200 x 100 viewport turned by a quarter around a square. *)
Lemma fromSizeAndPolygon_fit_witness :
  let ring := [(0, 0); (100, 0); (100, 100); (0, 100)] in
  let rot := Some (PI / 2) in
  (exists v,
      fromSizeAndPolygon (200, 100) [ring] (Some contain) rot None None = Return v
      /\ Forall (inRectangle (projectedGeoRectangle v)) ring)
  /\ (exists v,
         fromSizeAndPolygon (200, 100) [ring] (Some cover) rot None None = Return v
         /\ Forall (inRectangle (rotatedBboxRectangle ring rot))
              (projectedGeoRectangle v))
  /\ (forall size fit zoom,
         orDefault 0 rot = 0 ->
         exists v,
           fromSizeAndPolygon size [ring] fit rot None zoom = Return v
           /\ projectedGeoCenter v = bboxToCenter (computeBbox ring))
  /\ (exists v,
         fromSizeAndPolygon (200, 100) [[(0, 0); (100, 0); (100, 100); (0, 100)]]
           (Some contain) (Some 0) None None = Return v
         /\ projectedGeoCenter v = (50, 50)
         /\ projectedGeoPerViewportScale v = 1).
Proof.
  apply (fromSizeAndPolygon_fit 200 100
           [(0, 0); (100, 0); (100, 100); (0, 100)] [] (Some (PI / 2)) None).
  - lra.
  - lra.
  - exact (Math_round_int 200).
  - exact (Math_round_int 100).
  - discriminate.
Defined.

Lemma Math_round_7_5 : Math_round (7 / 5) = 1.
Proof. unfold Math_round. f_equal. apply Zfloor_eq. lra. Qed.

(** C1, as stated, fails twice.  With 'contain' and the size 1.4 x 1.4 the
    scale is computed from the given size but the rectangle from the rounded
    size 1 x 1: around the square (0,0)-(7,7) the rectangle is (1,1)-(6,6)
    and leaves the vertex (0,0) outside.  With 'cover' and the triangle
    (0,0),(4,0),(0,4) in a 4 x 4 viewport the rectangle is the square
    (0,0)-(4,4), whose corner (4,4) is beyond the line x + y = 4 that bounds
    the triangle. *)
Lemma fromSizeAndPolygon_counterexample :
  (exists v,
      fromSizeAndPolygon (7 / 5, 7 / 5) [[(0, 0); (7, 0); (7, 7); (0, 7)]]
        (Some contain) None None None = Return v
      /\ ~ Forall (inRectangle (projectedGeoRectangle v))
             [(0, 0); (7, 0); (7, 7); (0, 7)])
  /\ (exists v,
         fromSizeAndPolygon (4, 4) [[(0, 0); (4, 0); (0, 4)]]
           (Some cover) None None None = Return v
         /\ exists corner,
              In corner (projectedGeoRectangle v)
              /\ separatedFrom [(0, 0); (4, 0); (0, 4)] corner).
Proof.
  split.
  - eexists. split; [reflexivity |].
    intros HF. apply Forall_inv in HF. revert HF.
    cbn [projectedGeoRectangle new_Viewport orDefault fst snd].
    rewrite Math_round_7_5.
    rewrite rotatePoints_zero by reflexivity.
    rewrite rotatePoint_zero by reflexivity.
    cbn. simpl_minmax.
    replace ((7 - 0) / (7 / 5)) with 5 by lra. simpl_minmax.
    rewrite cos_0, sin_0.
    intros [s [t [Hs [Ht [E1 E2]]]]]. cbn in E1, E2. lra.
  - eexists. split; [reflexivity |].
    exists (4, 4). split.
    + cbn [projectedGeoRectangle new_Viewport orDefault fst snd].
      rewrite (Math_round_int 4).
      rewrite rotatePoints_zero by reflexivity.
      rewrite rotatePoint_zero by reflexivity.
      cbn. simpl_minmax.
      replace ((4 - 0) / 4) with 1 by lra. simpl_minmax.
      rewrite cos_0, sin_0.
      right. right. left.
      apply injective_projections; cbn; lra.
    + exists 1, 1, 4. split; [| cbn; lra].
      repeat constructor; cbn; lra.
Qed.

(** ** Factories over warped maps *)




End RenderFacts.

(** * Viewports on the heap *)

Module ObjectsFacts.
Import JS Geometry Matrix Objects.
Local Open Scope R_scope.

(** ** The heap programs compute the viewports of [Render] *)

(** On the heap that holds the two argument arrays, [new Viewport] fills an
    object whose fields are those of [Render.new_Viewport]. *)
Lemma new_Viewport_fields (size center : Point) (scale : R) (rot dpr : option R) :
  fst ((this ← new_Viewport 0 1 scale rot dpr; readViewport this)
         (argumentHeap size center))
  = Return (Render.new_Viewport size center scale rot dpr).
Proof. destruct size, center. reflexivity. Qed.

(** The buffered rectangle of that viewport is the one of [Render]. *)
Lemma getProjectedGeoBufferedRectangle_points (size center : Point)
    (scale bufferFraction : R) (rot dpr : option R) :
  fst ((this ← new_Viewport 0 1 scale rot dpr;
        rectangle ← getProjectedGeoBufferedRectangle this bufferFraction;
        readPoints rectangle)
         (argumentHeap size center))
  = Return (Render.getProjectedGeoBufferedRectangle
              (Render.new_Viewport size center scale rot dpr) bufferFraction).
Proof. destruct size, center. reflexivity. Qed.

(** The factories over a polygon, here a triangle, hand to the constructor
    what the factories of [Render] hand to it: the viewports they build
    have the center, scale, size, rotation and device pixel ratio of the
    viewports of [Render]. *)
Lemma fromSizeAndPolygon_arguments (size p1 p2 p3 : Point) (fit : option Fit)
    (rot dpr zoom : option R) :
  fst ((this ← fromSizeAndPolygon 0 5 fit rot dpr zoom;
        center ← getPoint this "projectedGeoCenter";
        scale ← getNumber this "projectedGeoPerViewportScale";
        viewportSize ← getPoint this "viewportSize";
        rotation ← getNumber this "rotation";
        devicePixelRatio ← getNumber this "devicePixelRatio";
        mret (center, scale, viewportSize, rotation, devicePixelRatio))
         (triangleHeap size p1 p2 p3))
  = match Render.fromSizeAndPolygon size [[p1; p2; p3]] fit rot dpr zoom with
    | Return v =>
        Return (Render.projectedGeoCenter v, Render.projectedGeoPerViewportScale v,
                Render.viewportSize v, Render.rotation v,
                Render.devicePixelRatio v)
    | Throw msg => Throw msg
    end.
Proof. destruct size, p1, p2, p3. reflexivity. Qed.

Lemma fromScaleAndPolygon_arguments (size p1 p2 p3 : Point) (scale : R)
    (rot dpr zoom : option R) :
  fst ((this ← fromScaleAndPolygon 5 scale rot dpr zoom;
        center ← getPoint this "projectedGeoCenter";
        scale ← getNumber this "projectedGeoPerViewportScale";
        viewportSize ← getPoint this "viewportSize";
        rotation ← getNumber this "rotation";
        devicePixelRatio ← getNumber this "devicePixelRatio";
        mret (center, scale, viewportSize, rotation, devicePixelRatio))
         (triangleHeap size p1 p2 p3))
  = match Render.fromScaleAndPolygon [[p1; p2; p3]] scale rot dpr zoom with
    | Return v =>
        Return (Render.projectedGeoCenter v, Render.projectedGeoPerViewportScale v,
                Render.viewportSize v, Render.rotation v,
                Render.devicePixelRatio v)
    | Throw msg => Throw msg
    end.
Proof. destruct size, p1, p2, p3. reflexivity. Qed.

(** ** Programs that only add cells *)

Lemma preserved_refl (heap : Heap) : preserved heap heap.
Proof. intros ref cell H. exact H. Qed.

Lemma preserved_trans (heap1 heap2 heap3 : Heap) :
  preserved heap1 heap2 -> preserved heap2 heap3 -> preserved heap1 heap3.
Proof. intros H12 H23 ref cell H. apply H23, H12, H. Qed.

Lemma preserved_app (heap cells : Heap) : preserved heap (heap ++ cells).
Proof. intros ref cell H. apply lookup_app_l_Some. exact H. Qed.

Lemma allocates_ret {A : Type} (a : A) : allocates (mret a : M A).
Proof. intros heap. apply preserved_refl. Qed.

Lemma allocates_throw {A : Type} (msg : string) : allocates (@throw A msg).
Proof. intros heap. apply preserved_refl. Qed.

Lemma allocates_bind {A B : Type} (m : M A) (k : A -> M B) :
  allocates m -> (forall a, allocates (k a)) -> allocates (m ≫= k).
Proof.
  intros Hm Hk heap. specialize (Hm heap).
  unfold mbind, M_bind. destruct (m heap) as [[a | msg] heap']; cbn in *.
  - eapply preserved_trans; [exact Hm | apply Hk].
  - exact Hm.
Qed.

Lemma allocates_newArray (items : list Value) : allocates (newArray items).
Proof. intros heap. apply preserved_app. Qed.

Lemma allocates_getItems (ref : nat) : allocates (getItems ref).
Proof.
  intros heap. unfold getItems.
  destruct (heap !! ref) as [[items | fields] |]; apply preserved_refl.
Qed.

Lemma allocates_getField (this : nat) (name : string) :
  allocates (getField this name).
Proof.
  intros heap. unfold getField.
  destruct (heap !! this) as [[items | fields] |]; try apply preserved_refl.
  destruct (fields !! name); apply preserved_refl.
Qed.

Lemma allocates_number (value : Value) : allocates (number value).
Proof. destruct value; [apply allocates_ret | apply allocates_throw]. Qed.

Lemma allocates_reference (value : Value) : allocates (reference value).
Proof. destruct value; [apply allocates_throw | apply allocates_ret]. Qed.

Lemma allocates_mapArray {A B : Type} (f : A -> M B) (items : list A) :
  (forall item, allocates (f item)) -> allocates (mapArray f items).
Proof.
  intros Hf. induction items as [| item rest IH]; cbn [mapArray].
  - apply allocates_ret.
  - apply allocates_bind; [apply Hf | intros b].
    apply allocates_bind; [exact IH | intros bs]. apply allocates_ret.
Qed.

Lemma allocates_readPoint (ref : nat) : allocates (readPoint ref).
Proof.
  apply allocates_bind; [apply allocates_getItems | intros items].
  destruct items as [| [x |] [| [y |] [|]]];
    first [apply allocates_ret | apply allocates_throw].
Qed.

Lemma allocates_readBbox (ref : nat) : allocates (readBbox ref).
Proof.
  apply allocates_bind; [apply allocates_getItems | intros items].
  destruct items as [| [a |] [| [b |] [| [c |] [| [d |] [|]]]]];
    first [apply allocates_ret | apply allocates_throw].
Qed.

Lemma allocates_readTransform (ref : nat) : allocates (readTransform ref).
Proof.
  apply allocates_bind; [apply allocates_getItems | intros items].
  destruct items
    as [| [a |] [| [b |] [| [c |] [| [d |] [| [e |] [| [f |] [|]]]]]]];
    first [apply allocates_ret | apply allocates_throw].
Qed.

Lemma allocates_newBbox (bbox : Bbox) : allocates (newBbox bbox).
Proof. destruct bbox as [[[x0 y0] x1] y1]. apply allocates_newArray. Qed.

Create HintDb frame.

#[local] Hint Resolve allocates_ret allocates_throw allocates_newArray
  allocates_getItems allocates_getField allocates_number allocates_reference
  allocates_readPoint allocates_readBbox allocates_readTransform
  allocates_newBbox : frame.

(** A program made of reads and allocations only adds cells. *)
Ltac allocation :=
  repeat first
    [ progress intros
    | solve [auto with frame]
    | apply allocates_bind
    | apply allocates_mapArray ].

Lemma allocates_readPoints (ref : nat) : allocates (readPoints ref).
Proof. unfold readPoints. allocation. Qed.

Lemma allocates_newPoints (points : list Point) : allocates (newPoints points).
Proof.
  unfold newPoints. allocation. intros point. apply allocates_newArray.
Qed.

Lemma allocates_newPoint (point : Point) : allocates (newPoint point).
Proof. apply allocates_newArray. Qed.

Lemma allocates_newTransform (t : Transform) : allocates (newTransform t).
Proof. apply allocates_newArray. Qed.

#[local] Hint Resolve allocates_readPoints allocates_newPoints
  allocates_newPoint allocates_newTransform : frame.

(** The helpers and the methods that read [this]. *)
Ltac unfold_programs :=
  unfold computeProjectedGeoRectangle, composeProjectedGeoToViewportTransform,
    composeProjectedGeoToCanvasTransform, composeProjectedGeoToClipTransform,
    composeViewportToClipTransform, firstRing, item0, item1, getRef, getNumber;
  unfold computeBbox, bboxToCenter, bboxToSize, bboxToRectangle, sizesToScale,
    bufferBboxByRatio, webMercatorToLonLat, scaleSize, scalePoint, scalePoints,
    rotatePoint, rotatePoints, translatePoints, sizeToResolution, sizeToBbox,
    sizeToCenter, sizeToRectangle, midPoint, composeTransform, applyTransform,
    invertTransform.

Lemma allocates_getProjectedGeoBufferedRectangle (this : nat) (bufferFraction : R) :
  allocates (getProjectedGeoBufferedRectangle this bufferFraction).
Proof.
  unfold getProjectedGeoBufferedRectangle. unfold_programs. allocation.
Qed.

(** ** The constructor writes into the new object only *)

Lemma writesOnly_allocates {A : Type} (this : nat) (m : M A) :
  allocates m -> writesOnly this m.
Proof. intros Hm heap ref cell _ H. apply Hm, H. Qed.

Lemma writesOnly_bind {A B : Type} (this : nat) (m : M A) (k : A -> M B) :
  writesOnly this m -> (forall a, writesOnly this (k a)) ->
  writesOnly this (m ≫= k).
Proof.
  intros Hm Hk heap ref cell Hne H. specialize (Hm heap ref cell Hne H).
  unfold mbind, M_bind. destruct (m heap) as [[a | msg] heap']; cbn in *.
  - apply Hk; assumption.
  - exact Hm.
Qed.

Lemma writesOnly_setField (this : nat) (name : string) (value : Value) :
  writesOnly this (setField this name value).
Proof.
  intros heap ref cell Hne H. unfold setField.
  destruct (heap !! this) as [[items | fields] |]; cbn [snd]; try exact H.
  unfold Heap in *. rewrite list_lookup_insert_ne by congruence. exact H.
Qed.

(** [this.name = value] does change the object [this]. *)
Lemma setField_writes (this : nat) (name : string) (value : Value)
    (heap : Heap) (fields : gmap string Value) :
  heap !! this = Some (CViewport fields) ->
  snd (setField this name value heap) !! this
  = Some (CViewport (<[name := value]> fields)).
Proof.
  intros H. unfold setField. rewrite H. cbn [snd]. unfold Heap in *.
  apply list_lookup_insert_eq. eapply lookup_lt_Some, H.
Qed.

Ltac frame :=
  repeat first
    [ progress intros
    | apply writesOnly_setField
    | apply writesOnly_allocates; solve [allocation]
    | apply writesOnly_bind ].

Lemma writesOnly_initialiseFields (this : nat) :
  writesOnly this (initialiseFields this).
Proof. unfold initialiseFields. unfold_programs. frame. Qed.

Lemma writesOnly_constructor (this viewportSize projectedGeoCenter : nat)
    (scale : R) (rot dpr : option R) :
  writesOnly this (constructor this viewportSize projectedGeoCenter scale rot dpr).
Proof. unfold constructor. unfold_programs. frame. Qed.

(** The object under construction is new: what is written into it is
    written into no cell that existed before. *)
Lemma allocates_new_Viewport (viewportSize projectedGeoCenter : nat)
    (scale : R) (rot dpr : option R) :
  allocates (new_Viewport viewportSize projectedGeoCenter scale rot dpr).
Proof.
  intros heap ref cell H. unfold new_Viewport.
  assert (Hbody : writesOnly (List.length heap)
                    (initialiseFields (List.length heap);;
                     constructor (List.length heap) viewportSize
                       projectedGeoCenter scale rot dpr;;
                     mret (List.length heap))).
  { apply writesOnly_bind; [apply writesOnly_initialiseFields | intros _].
    apply writesOnly_bind; [apply writesOnly_constructor | intros _].
    apply writesOnly_allocates, allocates_ret. }
  unfold mbind at 1, M_bind at 1. unfold newObject at 1.
  apply Hbody.
  - apply lookup_lt_Some in H. lia.
  - apply lookup_app_l_Some. exact H.
Qed.

#[local] Hint Resolve allocates_new_Viewport : frame.

Lemma allocates_fromSizeAndPolygon (viewportSize projectedGeoPolygon : nat)
    (fit : option Fit) (rot dpr zoom : option R) :
  allocates (fromSizeAndPolygon viewportSize projectedGeoPolygon fit rot dpr zoom).
Proof.
  unfold fromSizeAndPolygon. unfold_programs.
  apply allocates_bind; [| allocation].
  apply allocates_bind; [allocation | intros rings].
  destruct rings; allocation.
Qed.

Lemma allocates_fromScaleAndPolygon (projectedGeoPolygon : nat) (scale : R)
    (rot dpr zoom : option R) :
  allocates (fromScaleAndPolygon projectedGeoPolygon scale rot dpr zoom).
Proof.
  unfold fromScaleAndPolygon. unfold_programs.
  apply allocates_bind; [| allocation].
  apply allocates_bind; [allocation | intros rings].
  destruct rings; allocation.
Qed.

Lemma allocates_exec (op : Operation) : allocates (exec op).
Proof.
  destruct op as [size center scale rot dpr | size hull fit rot dpr zoom
                 | size polygon fit rot dpr zoom | scale hull rot dpr zoom
                 | polygon scale rot dpr zoom | this bufferFraction];
    cbn [exec].
  - apply allocates_new_Viewport.
  - unfold fromSizeAndMaps. destruct hull as [hull |]; [| apply allocates_throw].
    apply allocates_bind; [apply allocates_newArray | intros polygon].
    apply allocates_fromSizeAndPolygon.
  - apply allocates_fromSizeAndPolygon.
  - unfold fromScaleAndMaps. destruct hull as [hull |]; [| apply allocates_throw].
    apply allocates_bind; [apply allocates_newArray | intros polygon].
    apply allocates_fromScaleAndPolygon.
  - apply allocates_fromScaleAndPolygon.
  - apply allocates_getProjectedGeoBufferedRectangle.
Qed.

(** C7: a viewport is never mutated after creation.  Fields are written by
    [this.name = value] in the constructor alone, into the object under
    construction; the constructor, the four static factories and
    [getProjectedGeoBufferedRectangle], called in any number and order and
    with any arguments, leave every object that already exists as it was:
    every field of every existing viewport keeps its value, and the arrays
    the fields refer to keep their items.  The calls only add objects to the
    heap. *)
Theorem viewport_never_mutated (ops : list Operation) (heap : Heap) (this : nat) :
  is_Some (heap !! this) ->
  execAll ops heap !! this = heap !! this
  /\ (forall fields,
         heap !! this = Some (CViewport fields) ->
         execAll ops heap !! this = Some (CViewport fields)
         /\ forall name array items,
              fields !! name = Some (VRef array) ->
              heap !! array = Some (CArray items) ->
              execAll ops heap !! array = Some (CArray items))
  /\ preserved heap (execAll ops heap).
Proof.
  intros [cell Hthis].
  assert (Hall : preserved heap (execAll ops heap)).
  { clear. revert heap. unfold execAll.
    induction ops as [| op ops IH]; intros heap; cbn [fold_left].
    - apply preserved_refl.
    - eapply preserved_trans; [apply (allocates_exec op) | apply IH]. }
  split; [rewrite Hthis; apply Hall, Hthis |].
  split; [| exact Hall].
  intros fields Hfields. split; [apply Hall, Hfields |].
  intros name array items _ Harray. apply Hall, Harray.
Qed.

(** A 200 x 100 viewport, constructed on the heap that holds a triangle,
    survives a construction, a buffered-rectangle query on itself, a factory
    call that throws for want of a convex hull, and two factory calls on the
    triangle. *)
Lemma viewport_never_mutated_witness :
  let heap :=
    snd (new_Viewport 0 1 1 None None
           (triangleHeap (200, 100) (0, 0) (100, 0) (0, 100))) in
  let ops :=
    [OpNew 0 1 2 (Some 1) None;
     OpGetProjectedGeoBufferedRectangle 6 (1 / 4);
     OpFromScaleAndMaps 1 None None None None;
     OpFromSizeAndMaps 0 (Some 4%nat) (Some cover) None None None;
     OpFromScaleAndPolygon 5 2 (Some 1) None None] in
  execAll ops heap !! 6%nat = heap !! 6%nat
  /\ (forall fields,
         heap !! 6%nat = Some (CViewport fields) ->
         execAll ops heap !! 6%nat = Some (CViewport fields)
         /\ forall name array items,
              fields !! name = Some (VRef array) ->
              heap !! array = Some (CArray items) ->
              execAll ops heap !! array = Some (CArray items))
  /\ preserved heap (execAll ops heap).
Proof.
  cbn zeta. apply viewport_never_mutated.
  apply lookup_lt_is_Some_2. vm_compute. lia.
Defined.

End ObjectsFacts.

(** * The tile-server guard *)

Module TileserverFacts.
Import JS Tileserver.

Lemma js_ge_zero (a : spec_float) : js_ge a js_zero = negb (negativeOrNaN a).
Proof. destruct a as [s | s | | s m e]; try destruct s; reflexivity. Qed.

(** C10: [createWarpedTileResponse] throws 'x, y and z must be positive
    integers' exactly when one of x, y, z is negative or NaN, and otherwise
    goes on to render; the tile (0, 0, 0) and the non-integer tile
    (0.5, 0.5, 0.5) pass the guard. *)
Theorem createWarpedTileResponse_guard (Response : Type)
    (renderWarpedTile : XYZTile -> result Response) (tile : XYZTile) :
  createWarpedTileResponse Response renderWarpedTile tile
  = (if negativeOrNaN (x tile) || negativeOrNaN (y tile) || negativeOrNaN (z tile)
     then Throw positiveIntegersError
     else renderWarpedTile tile)
  /\ createWarpedTileResponse Response renderWarpedTile
       (mkXYZTile js_zero js_zero js_zero)
     = renderWarpedTile (mkXYZTile js_zero js_zero js_zero)
  /\ createWarpedTileResponse Response renderWarpedTile (mkXYZTile half half half)
     = renderWarpedTile (mkXYZTile half half half).
Proof.
  split; [| split; reflexivity].
  unfold createWarpedTileResponse. rewrite !js_ge_zero.
  destruct (negativeOrNaN (x tile)), (negativeOrNaN (y tile)),
    (negativeOrNaN (z tile)); reflexivity.
Qed.

(** The guard at work: -1 and NaN are refused. *)
Example createWarpedTileResponse_refuses (Response : Type)
    (renderWarpedTile : XYZTile -> result Response) :
  createWarpedTileResponse Response renderWarpedTile
    (mkXYZTile (S754_finite true 1 0) js_zero js_zero)
  = Throw positiveIntegersError
  /\ createWarpedTileResponse Response renderWarpedTile
       (mkXYZTile js_zero S754_nan js_zero)
     = Throw positiveIntegersError.
Proof. split; reflexivity. Qed.

End TileserverFacts.

(** * Annotation validation *)

Module AnnotationFacts.
Import Annotation.

Lemma z_array_accepts (item : Schema) (v : option json) :
  z_array item v = true ->
  exists items, v = Some (JArray items)
                /\ Forall (fun i => item (Some i) = true) items.
Proof.
  unfold z_array. destruct v as [[| | | | items |] |]; try discriminate.
  intros H. exists items. split; [reflexivity |].
  apply Forall_forall. intros i Hi.
  rewrite forallb_forall in H. apply H, Hi.
Qed.

(** C8 (as amended): every map accepted by [MapSchema] has an array of
    ground control points, possibly empty, each accepted by [GCPSchema] (a
    resource point and a geo point); [MapSchema] accepts maps whose array
    of ground control points is empty. *)
Theorem MapSchema_gcps (isUrl isDatetime : string -> bool)
    (PartOfSchema : Schema) (map : json) :
  MapSchema isUrl isDatetime PartOfSchema (Some map) = true ->
  (exists gcps,
      gcpsOf map = Some gcps
      /\ Forall (fun gcp => GCPSchema (Some gcp) = true) gcps)
  /\ (isUrl "https://example.org/iiif/1" = true ->
      MapSchema isUrl isDatetime PartOfSchema (Some mapWithoutGcps) = true
      /\ gcpsOf mapWithoutGcps = Some []).
Proof.
  intros H. split.
  - revert H. unfold MapSchema, z_object.
    destruct map as [| | | | | entries]; try discriminate.
    cbn [forallb fst snd]. intros H.
    do 6 (apply andb_prop in H; destruct H as [_ H]).
    apply andb_prop in H. destruct H as [Hg _].
    apply z_array_accepts in Hg. destruct Hg as [items [E HF]].
    exists items. split; [| exact HF].
    unfold gcpsOf. rewrite E. reflexivity.
  - intros Hurl. split; [| reflexivity].
    unfold MapSchema, ResourceSchema, z_object, mapWithoutGcps.
    cbn. rewrite Hurl. reflexivity.
Qed.

Lemma MapSchema_gcps_witness :
  (exists gcps,
      gcpsOf mapWithTwoGcps = Some gcps
      /\ Forall (fun gcp => GCPSchema (Some gcp) = true) gcps)
  /\ (startsWithHttps "https://example.org/iiif/1" = true ->
      MapSchema startsWithHttps (fun _ => true) (fun _ => true)
        (Some mapWithoutGcps) = true
      /\ gcpsOf mapWithoutGcps = Some []).
Proof.
  apply (MapSchema_gcps startsWithHttps (fun _ => true) (fun _ => true)
           mapWithTwoGcps).
  vm_compute. reflexivity.
Defined.

(** C8, as stated, fails: [MapSchema] accepts a map that asks for a helmert
    transformation, for which one ground control point is the minimum, and
    has none. *)
Lemma MapSchema_counterexample :
  MapSchema startsWithHttps (fun _ => true) (fun _ => true) (Some mapWithoutGcps)
  = true
  /\ gcpsOf mapWithoutGcps = Some []
  /\ transformationKindOf mapWithoutGcps = Some helmert
  /\ minimumGcps helmert = Some 1%nat
  /\ ~ (1 <= List.length (@nil json))%nat.
Proof.
  repeat split; try (vm_compute; reflexivity).
  cbn. lia.
Qed.

End AnnotationFacts.

(** * Fetching a tile *)

Module TileFetchFacts.
Import TileFetch.

Section Policy.
Context {ImageData : Type}.

Lemma pendingClean_step (s : TileState ImageData) (ev : Signal ImageData) :
  pendingClean s -> pendingClean (step s ev).
Proof.
  intros [Hc Hp]. unfold pendingClean.
  destruct ev, (phase s) eqn:Eph; cbn; rewrite ?Eph;
    try (split; [exact Hc | intros [E | E]; try discriminate E; auto]).
  all: try destruct err; cbn; split; try exact Hc; intros [E | E]; discriminate E.
Qed.

Lemma pendingClean_run (trace : list (Signal ImageData)) (s : TileState ImageData) :
  pendingClean s -> pendingClean (run s trace).
Proof.
  revert s. induction trace as [| ev trace IH]; intros s H; [exact H |].
  change (run s (ev :: trace)) with (run (step s ev) trace).
  apply IH, pendingClean_step, H.
Qed.

Lemma pendingClean_fetchCalled : pendingClean (@fetchCalled ImageData).
Proof. split; [reflexivity | intros _; split; reflexivity]. Qed.

(** Once settled, a fetch does nothing more: no signal stores data,
    dispatches an event or calls [fetchUrl]. *)
Lemma settled_step (s : TileState ImageData) (ev : Signal ImageData) :
  phase s = Settled ->
  phase (step s ev) = Settled /\ data (step s ev) = data s
  /\ dispatched (step s ev) = dispatched s
  /\ fetchUrlCalls (step s ev) = fetchUrlCalls s.
Proof.
  intros E. destruct ev; cbn; rewrite E; cbn; auto.
Qed.

Lemma settled_run (trace : list (Signal ImageData)) (s : TileState ImageData) :
  phase s = Settled ->
  phase (run s trace) = Settled /\ data (run s trace) = data s
  /\ dispatched (run s trace) = dispatched s
  /\ fetchUrlCalls (run s trace) = fetchUrlCalls s.
Proof.
  revert s. induction trace as [| ev trace IH]; intros s E; [cbn; auto |].
  change (run s (ev :: trace)) with (run (step s ev) trace).
  destruct (settled_step s ev E) as [E1 [E2 [E3 E4]]].
  destruct (IH (step s ev) E1) as [F1 [F2 [F3 F4]]].
  rewrite F2, F3, F4, E2, E3, E4. auto.
Qed.

Lemma worker_callback_stores (s : TileState ImageData) (response : ImageData) :
  phase s = AwaitingWorker ->
  data (step s (WorkerResolved response)) = Some response
  /\ dispatched (step s (WorkerResolved response)) = dispatched s ++ [TILEFETCHED].
Proof. intros E. cbn. rewrite E. cbn. auto. Qed.

(** C5 (as amended): when the network stage of a tile fetch ([fetchUrl] or
    [response.blob()]) fails with a non-abort error, the tile dispatches
    exactly one TILEFETCHERROR and [fetchUrl] is not called again; when it
    fails with an AbortError, no event is dispatched; in both cases the
    [data] field is never set, whatever happens afterwards.  Once the blob
    has arrived, the answer of the worker is stored in [data], aborted or
    not. *)
Theorem fetch_network_failure (pre rest : list (Signal ImageData))
    (ev : Signal ImageData) (err : FetchError) :
  networkFailure (run fetchCalled pre) ev err ->
  let final := run fetchCalled (pre ++ ev :: rest) in
  dispatched final
  = match err with
    | AbortError => []
    | OtherError _ => [TILEFETCHERROR]
    end
  /\ data final = None
  /\ fetchUrlCalls final = 1%nat
  /\ phase final = Settled
  /\ (forall (trace : list (Signal ImageData)) (response : ImageData),
         phase (run fetchCalled trace) = AwaitingWorker ->
         data (run fetchCalled (trace ++ [WorkerResolved response]))
         = Some response).
Proof.
  intros Hfail. cbn zeta. unfold run. rewrite fold_left_app. cbn [fold_left].
  fold (run fetchCalled pre).
  destruct (pendingClean_run pre fetchCalled pendingClean_fetchCalled) as [Hc Hp].
  set (s := run fetchCalled pre) in *.
  assert (Hs : phase (step s ev) = Settled
               /\ data (step s ev) = None
               /\ dispatched (step s ev)
                  = match err with
                    | AbortError => []
                    | OtherError _ => [TILEFETCHERROR]
                    end
               /\ fetchUrlCalls (step s ev) = 1%nat).
  { destruct Hfail as [[Eph ->] | [Eph ->]];
      (destruct Hp as [Hd He]; [auto |]);
      cbn; rewrite Eph; cbn; rewrite Hd, He;
      destruct err; cbn; auto. }
  destruct Hs as [S1 [S2 [S3 S4]]].
  fold (run (step s ev) rest).
  destruct (settled_run rest (step s ev) S1) as [F1 [F2 [F3 F4]]].
  rewrite F2, F3, F4, S2, S3, S4. repeat split; auto.
  intros trace response Eph. rewrite fold_left_app. cbn [fold_left].
  apply worker_callback_stores. exact Eph.
Qed.

End Policy.

(** The server answers 500 to [fetchUrl] after an abort that came too late
    to matter, and more signals follow. *)
Lemma fetch_network_failure_witness :
  let final :=
    run (@fetchCalled string)
      ([Abort] ++ FetchUrlRejected (OtherError "Error")
         :: [Abort; WorkerResolved "pixels"; FetchUrlResolved]) in
  dispatched final = [TILEFETCHERROR]
  /\ data final = None
  /\ fetchUrlCalls final = 1%nat
  /\ phase final = Settled
  /\ (forall (trace : list (Signal string)) (response : string),
         phase (run fetchCalled trace) = AwaitingWorker ->
         data (run fetchCalled (trace ++ [WorkerResolved response]))
         = Some response).
Proof.
  apply (fetch_network_failure (ImageData := string) [Abort]
           [Abort; WorkerResolved "pixels"; FetchUrlResolved]
           (FetchUrlRejected (OtherError "Error")) (OtherError "Error")).
  left. split; reflexivity.
Defined.

(** C5, as stated, fails: the abort signal reaches only [fetchUrl].  When
    the abort comes after the blob has arrived, the worker still answers
    and its callback stores the image in [data], after the abort. *)
Lemma fetch_late_abort_counterexample :
  let beforeAbort := run (@fetchCalled string) [FetchUrlResolved; BlobResolved] in
  let atAbort := step beforeAbort Abort in
  let afterwards := step atAbort (WorkerResolved "pixels") in
  aborted atAbort = true
  /\ data atAbort = None
  /\ data afterwards = Some "pixels"
  /\ dispatched afterwards = [TILEFETCHED].
Proof. repeat split. Qed.

(** A failure of the decoding worker is not reported: its promise is not
    awaited, so the rejection bypasses the [catch] block. *)
Example worker_failure_unreported :
  let final :=
    run (@fetchCalled string) [FetchUrlResolved; BlobResolved; WorkerRejected] in
  dispatched final = [] /\ unhandledRejections final = 1%nat.
Proof. split; reflexivity. Qed.

End TileFetchFacts.

(** * The texture atlas *)

Module AtlasFacts.
Import Atlas.
Local Open Scope Z_scope.

Lemma lookup_map {A B : Type} (f : A -> B) (l : list A) (i : nat) :
  map f l !! i = f <$> l !! i.
Proof.
  revert i. induction l as [| a l IH]; intros [| i]; cbn; auto.
Qed.

Lemma lookup_mapM {A B : Type} (f : A -> option B) (l : list A) (k : list B)
    (i : nat) (a : A) :
  mapM f l = Some k -> l !! i = Some a ->
  exists b, k !! i = Some b /\ f a = Some b.
Proof.
  intros HM Ha. apply mapM_Some_1 in HM.
  destruct (Forall2_lookup_l _ _ _ _ _ HM Ha) as [b [Hb Hf]].
  exists b. auto.
Qed.

Lemma rowPackFrom_keys (boxes : list Box.t) (left : Z) :
  map boxKey (rowPackFrom left boxes) = map boxKey boxes.
Proof.
  revert left. induction boxes as [| b boxes IH]; intros left; cbn; [reflexivity |].
  rewrite IH. reflexivity.
Qed.

Lemma rowPack_packsAllBoxes : packsAllBoxes rowPack.
Proof.
  intros boxes. unfold rowPack; cbn [fst].
  rewrite rowPackFrom_keys. apply Permutation_refl.
Qed.

(** C4 (as amended): when [updateTextures] rebuilds the atlas, every cached
    tile of the map that passes the viewport filter (its resource box
    overlaps [resourceViewportRingBbox], or no such box is set) has an atlas
    entry: its bitmap is uploaded at the origin recorded for the entry, and
    the entry records the tile's resource region and scale factor. *)
Theorem updateTextures_packs_visible_tiles
    (potpack : list Box.t -> list Box.t * (Z * Z)) (this : WebGL2WarpedMap)
    (textures : Textures) (url : string) (cachedTile : CachedTile.t) :
  packsAllBoxes potpack ->
  updateTextures potpack this = Updated textures ->
  In (url, cachedTile) (CachedTilesByTileUrl this) ->
  insideViewport this cachedTile = true ->
  exists i, describes textures i cachedTile.
Proof.
  intros Hpack Hup Hin Hvis. unfold updateTextures in Hup.
  destruct (Nat.eqb _ 0); [discriminate |].
  set (cachedTiles := List.filter (insideViewport this)
                        (map snd (CachedTilesByTileUrl this))) in *.
  set (boxes := imap _ cachedTiles) in *.
  specialize (Hpack boxes).
  destruct (potpack boxes) as [packed size] eqn:Epack. cbn [fst] in Hpack.
  destruct (mapM _ packed) as [uploads |] eqn:Eup; [| discriminate].
  destruct (mapM _ packed) as [scaleFactors |] eqn:Esf in Hup; [| discriminate].
  injection Hup as <-.
  (* the tile sits at some index j of the filtered list *)
  assert (Hct : In cachedTile cachedTiles).
  { apply filter_In. split; [| exact Hvis].
    apply (in_map snd) in Hin. exact Hin. }
  apply list_elem_of_In, list_elem_of_lookup in Hct. destruct Hct as [j Hj].
  (* its box is among the packed ones, at some index i *)
  set (key := (ImageBitmap.width (CachedTile.data cachedTile),
               ImageBitmap.height (CachedTile.data cachedTile), j)).
  assert (Hkey : In key (map boxKey boxes)).
  { apply list_elem_of_In, list_elem_of_lookup. exists j.
    rewrite lookup_map. subst boxes. rewrite list_lookup_imap, Hj. reflexivity. }
  apply (Permutation_in _ (Permutation_sym Hpack)) in Hkey.
  apply in_map_iff in Hkey. destruct Hkey as [b [Hb Hbin]].
  apply list_elem_of_In, list_elem_of_lookup in Hbin. destruct Hbin as [i Hi].
  assert (Hidx : Box.index b = j) by (unfold boxKey, key in Hb; congruence).
  exists i, (Box.x b), (Box.y b). cbn.
  destruct (lookup_mapM _ _ _ _ _ Eup Hi) as [u [Hu Hfu]].
  destruct (lookup_mapM _ _ _ _ _ Esf Hi) as [sf [Hsf Hfsf]].
  rewrite Hidx, Hj in Hfu, Hfsf.
  injection Hfu as <-. injection Hfsf as <-.
  repeat split.
  - exact Hu.
  - rewrite lookup_map, Hi. reflexivity.
  - rewrite lookup_map, Hi. cbn. rewrite Hidx, Hj. reflexivity.
  - exact Hsf.
Qed.

(** The tile in the lower right quarter is packed. *)
Lemma updateTextures_packs_visible_tiles_witness :
  exists i,
    describes
      {| packedTilesTextureSize := (256, 256);
         packedTilesTexture := [(0, 0, ImageBitmap.mk 256 256)];
         packedTilesPositions := [[0; 0]];
         packedTilesPositionsTexture := [0; 0];
         packedTilesResourcePositionsAndDimensions := [Some [768; 768; 256; 256]];
         packedTilesResourcePositionsAndDimensionsTexture := [768; 768; 256; 256];
         packedTilesScaleFactors := [1];
         packedTilesScaleFactorsTexture := [1] |}
      i (cachedTileAt "tile-3-3" 3 3).
Proof.
  apply (updateTextures_packs_visible_tiles rowPack lowerRightMap _
           "tile-3-3" (cachedTileAt "tile-3-3" 3 3)).
  - exact rowPack_packsAllBoxes.
  - vm_compute. reflexivity.
  - right. left. reflexivity.
  - vm_compute. reflexivity.
Defined.

(** C4, as stated, fails: the tile at column 0, row 0 is in the map's
    collection of cached tiles, but it lies outside the viewport ring, is
    filtered out before packing, and no entry of the rebuilt atlas describes
    it. *)
Lemma updateTextures_counterexample :
  In ("tile-0-0", cachedTileAt "tile-0-0" 0 0) (CachedTilesByTileUrl lowerRightMap)
  /\ exists textures,
       updateTextures rowPack lowerRightMap = Updated textures
       /\ forall i, ~ describes textures i (cachedTileAt "tile-0-0" 0 0).
Proof.
  split; [left; reflexivity |].
  eexists. split; [vm_compute; reflexivity |].
  intros i [x [y [_ [_ [Hregion _]]]]]. cbn in Hregion.
  destruct i as [| i]; cbn in Hregion; [| destruct i; discriminate Hregion].
  vm_compute in Hregion. discriminate Hregion.
Qed.

End AtlasFacts.

(** * More on the viewport: clip, canvas and buffered rectangle *)

Module ViewportFacts.
Import JS Geometry Matrix Render RenderFacts.
Local Open Scope R_scope.

(** A transform composed with angle [-r] and offset [-c] undoes the turn
    and the shift of a point [rot r d + c]. *)
Lemma composeTransform_unrotates (dx1 dy1 sx sy r dx dy cx cy : R) :
  applyTransform
    (composeTransform dx1 dy1 sx sy (- r) (- cx) (- cy))
    (dx * cos r - dy * sin r + cx, dx * sin r + dy * cos r + cy)
  = (sx * dx + dx1, sy * dy + dy1).
Proof.
  unfold applyTransform, composeTransform; cbn.
  rewrite cos_neg, sin_neg.
  pose proof (sin2_cos2' r) as H.
  set (cs := cos r) in *. set (sn := sin r) in *.
  apply injective_projections; cbn [fst snd].
  - transitivity (sx * dx * (sn * sn + cs * cs) + dx1); [ring | rewrite H; ring].
  - transitivity (sy * dy * (sn * sn + cs * cs) + dy1); [ring | rewrite H; ring].
Qed.

Lemma projectedGeoRectangle_corners
    (size : Size) (center : Point) (scale : R) (rot dpr : option R) :
  let v := new_Viewport size center scale rot dpr in
  let w := fst (viewportSize v) * scale in
  let h := snd (viewportSize v) * scale in
  let r := rotation v in
  let corner := fun dx dy : R =>
    (dx * cos r - dy * sin r + fst center,
     dx * sin r + dy * cos r + snd center) in
  projectedGeoRectangle v
  = [corner (- w / 2) (- h / 2); corner (w / 2) (- h / 2);
     corner (w / 2) (h / 2); corner (- w / 2) (h / 2)].
Proof.
  destruct center as [cx cy]. cbn zeta.
  unfold new_Viewport, computeProjectedGeoRectangle; cbn.
  repeat (f_equal; try (apply injective_projections; cbn; field)).
Qed.

(** X1: the corners of the projectedGeoRectangle go to the corners of the
    clip square. *)
Theorem projectedGeoToClip_maps_rectangle_to_square
    (size : Size) (center : Point) (scale : R) (rot dpr : option R) :
  scale <> 0 -> Math_round (fst size) <> 0 -> Math_round (snd size) <> 0 ->
  let v := new_Viewport size center scale rot dpr in
  map (applyTransform (projectedGeoToClipTransform v)) (projectedGeoRectangle v)
  = [(-1, -1); (1, -1); (1, 1); (-1, 1)].
Proof.
  intros Hs Hw Hh v.
  pose proof (projectedGeoRectangle_corners size center scale rot dpr) as Hc.
  cbn zeta in Hc. fold v in Hc. rewrite Hc. clear Hc.
  subst v. cbn [projectedGeoToClipTransform new_Viewport viewportSize rotation
                  fst snd map].
  unfold composeProjectedGeoToClipTransform. cbn [fst snd].
  rewrite !composeTransform_unrotates. cbn [fst snd].
  repeat (f_equal; try (apply injective_projections; cbn [fst snd]; field; auto)).
Qed.

Lemma projectedGeoToClip_maps_rectangle_to_square_witness :
  let v := new_Viewport (200, 100) (50, 50) 2 (Some (PI / 2)) None in
  map (applyTransform (projectedGeoToClipTransform v)) (projectedGeoRectangle v)
  = [(-1, -1); (1, -1); (1, 1); (-1, 1)].
Proof.
  apply (projectedGeoToClip_maps_rectangle_to_square
           (200, 100) (50, 50) 2 (Some (PI / 2)) None).
  - lra.
  - cbn [fst]. rewrite (Math_round_int 200). lra.
  - cbn [snd]. rewrite (Math_round_int 100). lra.
Defined.

(** X2: the corners of the viewport rectangle go to the corners of the clip
    square, the top left pixel corner to (-1, 1). *)
Theorem viewportToClip_maps_rectangle_to_square
    (size : Size) (center : Point) (scale : R) (rot dpr : option R) :
  Math_round (fst size) <> 0 -> Math_round (snd size) <> 0 ->
  let v := new_Viewport size center scale rot dpr in
  map (applyTransform (viewportToClipTransform v)) (viewportRectangle v)
  = [(-1, 1); (1, 1); (1, -1); (-1, -1)].
Proof.
  intros Hw Hh. cbn zeta.
  cbn [viewportToClipTransform viewportRectangle new_Viewport].
  unfold composeViewportToClipTransform, composeTransform, applyTransform,
    sizeToCenter, sizeToBbox; cbn.
  rewrite cos_0, sin_0.
  repeat (f_equal; try (apply injective_projections; cbn [fst snd]; field; auto)).
Qed.

Lemma viewportToClip_maps_rectangle_to_square_witness :
  let v := new_Viewport (200, 100) (50, 50) 2 None None in
  map (applyTransform (viewportToClipTransform v)) (viewportRectangle v)
  = [(-1, 1); (1, 1); (1, -1); (-1, -1)].
Proof.
  apply (viewportToClip_maps_rectangle_to_square (200, 100) (50, 50) 2 None None).
  - cbn [fst]. rewrite (Math_round_int 200). lra.
  - cbn [snd]. rewrite (Math_round_int 100). lra.
Defined.

(** X3: a canvas pixel is the viewport pixel times the device pixel
    ratio. *)
Theorem projectedGeoToCanvas_scales_viewport
    (size : Size) (center : Point) (scale : R) (rot dpr : option R) (p : Point) :
  scale <> 0 -> orDefault 1 dpr <> 0 ->
  let v := new_Viewport size center scale rot dpr in
  applyTransform (projectedGeoToCanvasTransform v) p
  = scalePoint (applyTransform (projectedGeoToViewportTransform v) p)
      (devicePixelRatio v).
Proof.
  intros Hs Hd. cbn zeta. destruct p as [x y], center as [cx cy].
  cbn [projectedGeoToCanvasTransform projectedGeoToViewportTransform
         devicePixelRatio new_Viewport].
  unfold composeProjectedGeoToCanvasTransform,
    composeProjectedGeoToViewportTransform, composeTransform, applyTransform,
    scalePoint, sizeToCenter; cbn.
  apply injective_projections; cbn [fst snd]; field; auto.
Qed.

Lemma projectedGeoToCanvas_scales_viewport_witness :
  let v := new_Viewport (200, 100) (50, 50) 2 (Some 1) (Some 2) in
  applyTransform (projectedGeoToCanvasTransform v) (3, 4)
  = scalePoint (applyTransform (projectedGeoToViewportTransform v) (3, 4))
      (devicePixelRatio v).
Proof.
  apply (projectedGeoToCanvas_scales_viewport
           (200, 100) (50, 50) 2 (Some 1) (Some 2) (3, 4)); cbn; lra.
Defined.

(** The viewport transform sends the corners of the projectedGeoRectangle
    to the corners of the viewport rectangle, the last corner first: the
    y axis is flipped. *)
Lemma projectedGeoToViewport_maps_rectangle
    (size : Size) (center : Point) (scale : R) (rot dpr : option R) :
  scale <> 0 ->
  let v := new_Viewport size center scale rot dpr in
  map (applyTransform (projectedGeoToViewportTransform v)) (projectedGeoRectangle v)
  = rev (viewportRectangle v).
Proof.
  intros Hs v.
  pose proof (projectedGeoRectangle_corners size center scale rot dpr) as Hc.
  cbn zeta in Hc. fold v in Hc. rewrite Hc. clear Hc.
  subst v. cbn [projectedGeoToViewportTransform new_Viewport viewportSize rotation
                  viewportRectangle fst snd map].
  unfold composeProjectedGeoToViewportTransform.
  rewrite !composeTransform_unrotates.
  unfold sizeToCenter, sizeToBbox; cbn.
  repeat (f_equal; try (apply injective_projections; cbn [fst snd]; field; auto)).
Qed.

(** X4: without a buffer, [getProjectedGeoBufferedRectangle] gives back the
    corners of the projectedGeoRectangle, in reverse order. *)
Theorem getProjectedGeoBufferedRectangle_zero
    (size : Size) (center : Point) (scale : R) (rot dpr : option R) :
  scale <> 0 ->
  let v := new_Viewport size center scale rot dpr in
  getProjectedGeoBufferedRectangle v 0 = rev (projectedGeoRectangle v).
Proof.
  intros Hs v.
  pose proof (projectedGeoToViewport_maps_rectangle size center scale rot dpr Hs)
    as Hmap.
  pose proof (determinant_projectedGeoToViewport size center scale rot dpr Hs)
    as Hdet.
  cbn zeta in Hmap. fold v in Hmap, Hdet.
  unfold getProjectedGeoBufferedRectangle.
  assert (Hb : bboxToRectangle (bufferBboxByRatio (viewportBbox v) 0)
               = viewportRectangle v).
  { subst v. cbn [viewportBbox viewportRectangle new_Viewport].
    unfold bufferBboxByRatio, bufferBbox, sizeToBbox, bboxToSize, bboxToRectangle;
      cbn.
    repeat (f_equal; try (apply injective_projections; cbn [fst snd]; ring)). }
  rewrite Hb.
  rewrite <- (rev_involutive (viewportRectangle v)), <- Hmap.
  rewrite <- map_rev, map_map.
  rewrite (map_ext _ (fun p => p)); [apply map_id |].
  intros p. apply invertTransform_left, Hdet.
Qed.

Lemma getProjectedGeoBufferedRectangle_zero_witness :
  let v := new_Viewport (200, 100) (50, 50) 2 (Some (PI / 2)) None in
  getProjectedGeoBufferedRectangle v 0 = rev (projectedGeoRectangle v).
Proof.
  apply (getProjectedGeoBufferedRectangle_zero
           (200, 100) (50, 50) 2 (Some (PI / 2)) None).
  lra.
Defined.

End ViewportFacts.

(** * More on the viewport factories: zoom and scale *)

Module FactoryFacts.
Import JS Geometry Matrix Render RenderFacts.
Local Open Scope R_scope.

Lemma projectedGeoRectangle_fromSizeAndPolygon_zoom
    (w h : R) (ring : Ring) (rings : list Ring) (fit : Fit)
    (rot dpr zoom : option R) :
  Math_round w = w -> Math_round h = h ->
  exists v,
    fromSizeAndPolygon (w, h) (ring :: rings) (Some fit) rot dpr zoom = Return v
    /\ let b := computeBbox (rotatePoints ring (negatedIfTruthy rot)) in
       let k := sizesToScale (bboxToSize b) (w, h) fit * orDefault 1 zoom in
       let qc := bboxToCenter b in
       projectedGeoRectangle v
       = rotatePoints
           (bboxToRectangle
              (fst qc - w * k / 2, snd qc - h * k / 2,
               fst qc + w * k / 2, snd qc + h * k / 2))
           rot.
Proof.
  intros Hw Hh. eexists. split; [reflexivity |].
  cbn zeta. cbn [projectedGeoRectangle new_Viewport fst snd].
  rewrite Hw, Hh.
  rewrite (computeProjectedGeoRectangle_box (w, h)). reflexivity.
Qed.

(** X5: zooming out keeps a contained polygon contained, and zooming in
    keeps a covering polygon covering. *)
Theorem fromSizeAndPolygon_zoom
    (w h z : R) (ring : Ring) (rings : list Ring) (rot dpr : option R) :
  0 < w -> 0 < h -> Math_round w = w -> Math_round h = h -> ring <> [] ->
  (1 <= z ->
   exists v,
     fromSizeAndPolygon (w, h) (ring :: rings) (Some contain) rot dpr (Some z)
     = Return v
     /\ Forall (inRectangle (projectedGeoRectangle v)) ring)
  /\ (0 <= z <= 1 ->
      exists v,
        fromSizeAndPolygon (w, h) (ring :: rings) (Some cover) rot dpr (Some z)
        = Return v
        /\ Forall (inRectangle (rotatedBboxRectangle ring rot))
             (projectedGeoRectangle v)).
Proof.
  intros Hw Hh Rw Rh Hne.
  set (rring := rotatePoints ring (negatedIfTruthy rot)).
  assert (Hrne : rring <> []).
  { subst rring. destruct ring; [congruence | discriminate]. }
  destruct (computeBbox rring) as [[[x0 y0] x1] y1] eqn:Eb.
  destruct (computeBbox_ordered rring x0 y0 x1 y1 Hrne Eb) as [Hx Hy].
  split; intros Hz.
  - destruct (projectedGeoRectangle_fromSizeAndPolygon_zoom
                w h ring rings contain rot dpr (Some z) Rw Rh) as [v [Ev Hrect]].
    exists v. split; [exact Ev |].
    cbn zeta in Hrect. rewrite Hrect. clear Hrect Ev v.
    fold rring. rewrite Eb. cbn [bboxToSize bboxToCenter fst snd orDefault].
    destruct (contain_scale_bounds w h (x1 - x0) (y1 - y0) Hw Hh) as [Kx Ky].
    set (k := sizesToScale (x1 - x0, y1 - y0) (w, h) contain) in *.
    assert (Kx' : x1 - x0 <= w * (k * z)) by nra.
    assert (Ky' : y1 - y0 <= h * (k * z)) by nra.
    apply Forall_forall. intros p Hp.
    rewrite <- (rotatePoint_back p rot).
    apply inRectangle_rotated; try lra.
    assert (Hq : In (rotatePoint p (negatedIfTruthy rot)) rring).
    { subst rring. unfold rotatePoints.
      apply (in_map (fun q => rotatePoint q (negatedIfTruthy rot))). exact Hp. }
    pose proof (computeBbox_contains rring _ Hq) as Hb. rewrite Eb in Hb.
    unfold inBbox in *. cbn [fst snd] in *. lra.
  - destruct (projectedGeoRectangle_fromSizeAndPolygon_zoom
                w h ring rings cover rot dpr (Some z) Rw Rh) as [v [Ev Hrect]].
    exists v. split; [exact Ev |].
    cbn zeta in Hrect. rewrite Hrect. clear Hrect Ev v.
    unfold rotatedBboxRectangle. fold rring. rewrite Eb.
    cbn [bboxToSize bboxToCenter fst snd orDefault].
    destruct (cover_scale_bounds w h (x1 - x0) (y1 - y0) Hw Hh) as [Kx Ky];
      try lra.
    set (k := sizesToScale (x1 - x0, y1 - y0) (w, h) cover) in *.
    assert (Kx' : 0 <= w * (k * z) <= x1 - x0) by nra.
    assert (Ky' : 0 <= h * (k * z) <= y1 - y0) by nra.
    unfold rotatePoints at 2. cbn [bboxToRectangle map].
    repeat constructor;
      apply inRectangle_rotated; try lra; unfold inBbox; cbn [fst snd]; lra.
Qed.

Lemma fromSizeAndPolygon_zoom_witness :
  let ring := [(0, 0); (100, 0); (100, 100); (0, 100)] in
  (1 <= 1 ->
   exists v,
     fromSizeAndPolygon (200, 100) [ring] (Some contain) (Some 1) None (Some 1)
     = Return v
     /\ Forall (inRectangle (projectedGeoRectangle v)) ring)
  /\ (0 <= 1 <= 1 ->
      exists v,
        fromSizeAndPolygon (200, 100) [ring] (Some cover) (Some 1) None (Some 1)
        = Return v
        /\ Forall (inRectangle (rotatedBboxRectangle ring (Some 1)))
             (projectedGeoRectangle v)).
Proof.
  apply (fromSizeAndPolygon_zoom 200 100 1
           [(0, 0); (100, 0); (100, 100); (0, 100)] [] (Some 1) None).
  - lra.
  - lra.
  - exact (Math_round_int 200).
  - exact (Math_round_int 100).
  - discriminate.
Defined.

Lemma Rmin_scale (a b k : R) : 0 <= k -> Rmin (a * k) (b * k) = Rmin a b * k.
Proof.
  intros Hk. unfold Rmin.
  destruct (Rle_dec (a * k) (b * k)), (Rle_dec a b); try reflexivity; nra.
Qed.

Lemma Rmax_scale (a b k : R) : 0 <= k -> Rmax (a * k) (b * k) = Rmax a b * k.
Proof.
  intros Hk. unfold Rmax.
  destruct (Rle_dec (a * k) (b * k)), (Rle_dec a b); try reflexivity; nra.
Qed.

Lemma fold_bbox_scale (rest : list Point) (x0 y0 x1 y1 k : R) :
  0 <= k ->
  fold_left
    (fun '(x0, y0, x1, y1) '(x, y) =>
       (Rmin x0 x, Rmin y0 y, Rmax x1 x, Rmax y1 y))
    (scalePoints rest k) (x0 * k, y0 * k, x1 * k, y1 * k)
  = let '(a0, b0, a1, b1) :=
      fold_left
        (fun '(x0, y0, x1, y1) '(x, y) =>
           (Rmin x0 x, Rmin y0 y, Rmax x1 x, Rmax y1 y))
        rest (x0, y0, x1, y1) in
    (a0 * k, b0 * k, a1 * k, b1 * k).
Proof.
  intros Hk. revert x0 y0 x1 y1.
  induction rest as [| [x y] rest IH]; intros x0 y0 x1 y1; [reflexivity |].
  cbn [scalePoints map fold_left scalePoint fst snd].
  rewrite !Rmin_scale, !Rmax_scale by exact Hk.
  apply IH.
Qed.

Lemma computeBbox_scalePoints (points : list Point) (k : R) :
  0 <= k ->
  computeBbox (scalePoints points k)
  = let '(x0, y0, x1, y1) := computeBbox points in
    (x0 * k, y0 * k, x1 * k, y1 * k).
Proof.
  intros Hk. destruct points as [| [x y] rest].
  - cbn. repeat f_equal; ring.
  - unfold computeBbox. cbn [scalePoints map scalePoint fst snd].
    apply (fold_bbox_scale rest x y x y k Hk).
Qed.

Lemma Math_round_near (x : R) : - / 2 < Math_round x - x <= / 2.
Proof.
  unfold Math_round. pose proof (Zfloor_bound (x + / 2)) as H. lra.
Qed.

(** X6: [fromScaleAndPolygon] with a positive scale centers the viewport
    where [fromSizeAndPolygon] does, keeps the scale (times the zoom), and
    sizes the viewport to the polygon's bounding box in the viewport frame,
    in pixels, to the nearest integer. *)
Theorem fromScaleAndPolygon_center_and_size
    (scale : R) (ring : Ring) (rings : list Ring) (rot dpr zoom : option R) :
  0 < scale -> ring <> [] ->
  let b := computeBbox (rotatePoints ring (negatedIfTruthy rot)) in
  exists v,
    fromScaleAndPolygon (ring :: rings) scale rot dpr zoom = Return v
    /\ projectedGeoCenter v = rotatePoint (bboxToCenter b) rot
    /\ (forall size fit zoom',
           exists v',
             fromSizeAndPolygon size (ring :: rings) fit rot dpr zoom' = Return v'
             /\ projectedGeoCenter v' = projectedGeoCenter v)
    /\ projectedGeoPerViewportScale v = scale * orDefault 1 zoom
    /\ viewportSize v
       = (Math_round (fst (bboxToSize b) / scale),
          Math_round (snd (bboxToSize b) / scale))
    /\ - / 2 < fst (viewportSize v) - fst (bboxToSize b) / scale <= / 2
    /\ - / 2 < snd (viewportSize v) - snd (bboxToSize b) / scale <= / 2.
Proof.
  intros Hs _ b.
  assert (Hk : 0 <= 1 / scale).
  { unfold Rdiv. rewrite Rmult_1_l. left. apply Rinv_0_lt_compat. exact Hs. }
  eexists. split; [reflexivity |].
  cbn [projectedGeoCenter projectedGeoPerViewportScale viewportSize new_Viewport].
  rewrite (computeBbox_scalePoints _ (1 / scale) Hk). fold b.
  destruct b as [[[x0 y0] x1] y1] eqn:Eb.
  cbn [bboxToCenter bboxToSize fst snd scalePoint].
  assert (Ec : rotatePoint
                 ((x0 * (1 / scale) + x1 * (1 / scale)) / 2 * scale,
                  (y0 * (1 / scale) + y1 * (1 / scale)) / 2 * scale) rot
               = rotatePoint ((x0 + x1) / 2, (y0 + y1) / 2) rot).
  { f_equal. apply injective_projections; cbn [fst snd]; field; lra. }
  replace (x1 * (1 / scale) - x0 * (1 / scale)) with ((x1 - x0) / scale)
    by (field; lra).
  replace (y1 * (1 / scale) - y0 * (1 / scale)) with ((y1 - y0) / scale)
    by (field; lra).
  repeat split.
  - exact Ec.
  - intros size fit zoom'. eexists. split; [reflexivity |].
    cbn [projectedGeoCenter new_Viewport].
    subst b. rewrite Eb. cbn [bboxToCenter]. symmetry. exact Ec.
  - apply Math_round_near.
  - apply Math_round_near.
  - apply Math_round_near.
  - apply Math_round_near.
Qed.

Lemma fromScaleAndPolygon_center_and_size_witness :
  let ring := [(0, 0); (100, 0); (100, 50); (0, 50)] in
  let b := computeBbox (rotatePoints ring (negatedIfTruthy None)) in
  exists v,
    fromScaleAndPolygon [ring] 3 None None None = Return v
    /\ projectedGeoCenter v = rotatePoint (bboxToCenter b) None
    /\ (forall size fit zoom',
           exists v',
             fromSizeAndPolygon size [ring] fit None None zoom' = Return v'
             /\ projectedGeoCenter v' = projectedGeoCenter v)
    /\ projectedGeoPerViewportScale v = 3 * orDefault 1 None
    /\ viewportSize v
       = (Math_round (fst (bboxToSize b) / 3),
          Math_round (snd (bboxToSize b) / 3))
    /\ - / 2 < fst (viewportSize v) - fst (bboxToSize b) / 3 <= / 2
    /\ - / 2 < snd (viewportSize v) - snd (bboxToSize b) / 3 <= / 2.
Proof.
  apply (fromScaleAndPolygon_center_and_size 3
           [(0, 0); (100, 0); (100, 50); (0, 50)] [] None None None).
  - lra.
  - discriminate.
Defined.

End FactoryFacts.

(** * More on the texture atlas *)

Module AtlasOpsFacts.
Import Atlas AtlasOps AtlasFacts.
Local Open Scope Z_scope.

(** What a rebuilt atlas is made of. *)
Lemma updateTextures_Updated_inv
    (potpack : list Box.t -> list Box.t * (Z * Z)) (this : WebGL2WarpedMap)
    (textures : Textures) :
  updateTextures potpack this = Updated textures ->
  exists packed size,
    potpack (imap tileBox (tilesToPack this)) = (packed, size)
    /\ CachedTilesByTileUrl this <> []
    /\ Forall2
         (fun b u =>
            exists ct, tilesToPack this !! Box.index b = Some ct
                       /\ u = (Box.x b, Box.y b, CachedTile.data ct))
         packed (packedTilesTexture textures)
    /\ packedTilesPositions textures = map (fun b => [Box.x b; Box.y b]) packed
    /\ packedTilesResourcePositionsAndDimensions textures
       = map (fun b => match tilesToPack this !! Box.index b with
                       | Some ct => regionRow ct
                       | None => None
                       end) packed
    /\ Forall2
         (fun b sf =>
            exists ct, tilesToPack this !! Box.index b = Some ct
                       /\ sf = TileZoomLevel.scaleFactor
                                 (Tile.tileZoomLevel (CachedTile.tile ct)))
         packed (packedTilesScaleFactors textures)
    /\ packedTilesTextureSize textures = size
    /\ packedTilesPositionsTexture textures
       = Int32Array (List.concat (packedTilesPositions textures))
    /\ packedTilesResourcePositionsAndDimensionsTexture textures
       = flatInt32 (packedTilesResourcePositionsAndDimensions textures)
    /\ packedTilesScaleFactorsTexture textures
       = Int32Array (packedTilesScaleFactors textures).
Proof.
  unfold updateTextures. intros Hup.
  destruct (CachedTilesByTileUrl this) as [| e es] eqn:Emap; [discriminate |].
  cbn [List.length Nat.eqb] in Hup. rewrite <- Emap in Hup.
  change (List.filter (insideViewport this) (map snd (CachedTilesByTileUrl this)))
    with (tilesToPack this) in Hup.
  change (imap _ (tilesToPack this)) with (imap tileBox (tilesToPack this)) in Hup.
  destruct (potpack (imap tileBox (tilesToPack this))) as [packed size].
  destruct (mapM _ packed) as [uploads |] eqn:Eup; [| discriminate].
  destruct (mapM _ packed) as [scaleFactors |] eqn:Esf in Hup; [| discriminate].
  injection Hup as <-. cbn.
  exists packed, size. repeat split; try reflexivity.
  - discriminate.
  - apply mapM_Some_1 in Eup. eapply Forall2_impl; [| exact Eup].
    intros b u Hb. cbn in Hb.
    destruct (tilesToPack this !! Box.index b) as [ct |]; [| discriminate].
    exists ct. split; [reflexivity | congruence].
  - apply mapM_Some_1 in Esf. eapply Forall2_impl; [| exact Esf].
    intros b sf Hb. cbn in Hb.
    destruct (tilesToPack this !! Box.index b) as [ct |]; [| discriminate].
    exists ct. split; [reflexivity | congruence].
Qed.

(** A packer that returns the boxes it was given returns boxes that point
    at packed tiles, one box per tile. *)
Lemma packed_boxes_valid (potpack : list Box.t -> list Box.t * (Z * Z))
    (tiles : list CachedTile.t) (b : Box.t) :
  packsAllBoxes potpack ->
  In b (fst (potpack (imap tileBox tiles))) ->
  exists ct, tiles !! Box.index b = Some ct.
Proof.
  intros Hpack Hb. specialize (Hpack (imap tileBox tiles)).
  apply (in_map boxKey) in Hb.
  apply (Permutation_in _ Hpack) in Hb.
  apply in_map_iff in Hb. destruct Hb as [b0 [Hkey Hb0]].
  apply list_elem_of_In, list_elem_of_lookup in Hb0. destruct Hb0 as [j Hj].
  rewrite list_lookup_imap in Hj.
  destruct (tiles !! j) as [ct |] eqn:Ej; [| discriminate].
  injection Hj as <-. exists ct.
  unfold boxKey in Hkey; cbn in Hkey.
  assert (E : Box.index b = j) by congruence. rewrite E. exact Ej.
Qed.

Lemma packed_boxes_length (potpack : list Box.t -> list Box.t * (Z * Z))
    (tiles : list CachedTile.t) :
  packsAllBoxes potpack ->
  List.length (fst (potpack (imap tileBox tiles))) = List.length tiles.
Proof.
  intros Hpack. specialize (Hpack (imap tileBox tiles)).
  apply Permutation_length in Hpack.
  rewrite !length_map in Hpack. rewrite Hpack. apply length_imap.
Qed.

(** X7: with a packer that returns the boxes it was given, [updateTextures]
    never fails: it returns early exactly when the map has no cached tile,
    and rebuilds the atlas otherwise, even when no tile is inside the
    viewport. *)
Theorem updateTextures_never_fails
    (potpack : list Box.t -> list Box.t * (Z * Z)) (this : WebGL2WarpedMap) :
  packsAllBoxes potpack ->
  (CachedTilesByTileUrl this = [] /\ updateTextures potpack this = Skipped)
  \/ (CachedTilesByTileUrl this <> []
      /\ exists textures, updateTextures potpack this = Updated textures).
Proof.
  intros Hpack.
  destruct (CachedTilesByTileUrl this) as [| e es] eqn:Emap.
  - left. split; [reflexivity |]. unfold updateTextures. rewrite Emap. reflexivity.
  - right. split; [discriminate |].
    unfold updateTextures. rewrite Emap. cbn [List.length Nat.eqb].
    rewrite <- Emap.
    change (List.filter (insideViewport this) (map snd (CachedTilesByTileUrl this)))
      with (tilesToPack this).
    change (imap _ (tilesToPack this)) with (imap tileBox (tilesToPack this)).
    pose proof (packed_boxes_valid potpack (tilesToPack this)) as Hvalid.
    destruct (potpack (imap tileBox (tilesToPack this))) as [packed size].
    cbn [fst] in Hvalid.
    assert (Hall : Forall (fun b => exists ct, tilesToPack this !! Box.index b = Some ct)
                     packed).
    { apply Forall_forall. intros b Hb. apply Hvalid; assumption. }
    assert (Hsome : forall (B : Type) (f : Box.t -> option B),
               (forall b ct, tilesToPack this !! Box.index b = Some ct ->
                             is_Some (f b)) ->
               is_Some (mapM f packed)).
    { intros B f Hf. apply mapM_is_Some_2.
      eapply Forall_impl; [| exact Hall].
      intros b [ct Hct]. exact (Hf b ct Hct). }
    match goal with
    | |- context [mapM ?f packed] =>
        destruct (Hsome _ f) as [uploads Eup];
        [intros b ct Hct; rewrite Hct; eauto | rewrite Eup]
    end.
    match goal with
    | |- context [mapM ?f packed] =>
        destruct (Hsome _ f) as [scaleFactors Esf];
        [intros b ct Hct; rewrite Hct; eauto | rewrite Esf]
    end.
    eexists. reflexivity.
Qed.

Lemma updateTextures_never_fails_witness :
  (CachedTilesByTileUrl lowerRightMap = []
   /\ updateTextures rowPack lowerRightMap = Skipped)
  \/ (CachedTilesByTileUrl lowerRightMap <> []
      /\ exists textures, updateTextures rowPack lowerRightMap = Updated textures).
Proof.
  apply (updateTextures_never_fails rowPack lowerRightMap).
  exact rowPack_packsAllBoxes.
Defined.

(** X8: a rebuilt atlas has one entry per cached tile inside the viewport:
    that many uploads, position rows, region rows and scale factors, two
    integers per entry in the positions texture and one in the scale factor
    texture. *)
Theorem updateTextures_entry_count
    (potpack : list Box.t -> list Box.t * (Z * Z)) (this : WebGL2WarpedMap)
    (textures : Textures) :
  packsAllBoxes potpack ->
  updateTextures potpack this = Updated textures ->
  let n := List.length (tilesToPack this) in
  List.length (packedTilesTexture textures) = n
  /\ List.length (packedTilesPositions textures) = n
  /\ List.length (packedTilesResourcePositionsAndDimensions textures) = n
  /\ List.length (packedTilesScaleFactors textures) = n
  /\ List.length (packedTilesPositionsTexture textures) = (2 * n)%nat
  /\ List.length (packedTilesScaleFactorsTexture textures) = n.
Proof.
  intros Hpack Hup n.
  destruct (updateTextures_Updated_inv potpack this textures Hup)
    as (packed & size & Epack & _ & Hu & Hp & Hr & Hs & _ & Hpt & _ & Hst).
  pose proof (packed_boxes_length potpack (tilesToPack this) Hpack) as Hlen.
  rewrite Epack in Hlen. cbn [fst] in Hlen. fold n in Hlen.
  apply Forall2_length in Hu. apply Forall2_length in Hs.
  assert (Hc : forall l : list Box.t,
             List.length (List.concat (map (fun b => [Box.x b; Box.y b]) l))
             = (2 * List.length l)%nat).
  { induction l as [| b l IH]; cbn; [reflexivity |]. rewrite IH. lia. }
  unfold Int32Array in Hpt, Hst.
  rewrite Hpt, Hst, Hp, Hr, !length_map, Hc.
  repeat split; lia.
Qed.

Lemma updateTextures_entry_count_witness :
  exists textures,
    updateTextures rowPack lowerRightMap = Updated textures
    /\ let n := List.length (tilesToPack lowerRightMap) in
       List.length (packedTilesTexture textures) = n
       /\ List.length (packedTilesPositions textures) = n
       /\ List.length (packedTilesResourcePositionsAndDimensions textures) = n
       /\ List.length (packedTilesScaleFactors textures) = n
       /\ List.length (packedTilesPositionsTexture textures) = (2 * n)%nat
       /\ List.length (packedTilesScaleFactorsTexture textures) = n.
Proof.
  eexists. split; [vm_compute; reflexivity |].
  apply (updateTextures_entry_count rowPack lowerRightMap).
  - exact rowPack_packsAllBoxes.
  - vm_compute. reflexivity.
Defined.

(** X9: every entry of a rebuilt atlas describes a tile that is cached for
    the map and inside the viewport. *)
Theorem updateTextures_entries_are_visible_cached_tiles
    (potpack : list Box.t -> list Box.t * (Z * Z)) (this : WebGL2WarpedMap)
    (textures : Textures) (i : nat) :
  updateTextures potpack this = Updated textures ->
  (i < List.length (packedTilesPositions textures))%nat ->
  exists url cachedTile,
    In (url, cachedTile) (CachedTilesByTileUrl this)
    /\ insideViewport this cachedTile = true
    /\ describes textures i cachedTile.
Proof.
  intros Hup Hi.
  destruct (updateTextures_Updated_inv potpack this textures Hup)
    as (packed & size & _ & _ & Hu & Hp & Hr & Hs & _).
  rewrite Hp, length_map in Hi.
  destruct (lookup_lt_is_Some_2 packed i Hi) as [b Hb].
  destruct (Forall2_lookup_l _ _ _ _ _ Hu Hb) as (u & Hui & ct & Hct & ->).
  destruct (Forall2_lookup_l _ _ _ _ _ Hs Hb) as (sf & Hsi & ct' & Hct' & ->).
  assert (ct' = ct) by congruence. subst ct'.
  assert (Hin : In ct (tilesToPack this)).
  { apply list_elem_of_In, list_elem_of_lookup. eauto. }
  unfold tilesToPack in Hin. apply filter_In in Hin. destruct Hin as [Hin Hvis].
  apply in_map_iff in Hin. destruct Hin as [[url ct0] [E Hin]].
  cbn in E. subst ct0.
  exists url, ct. split; [exact Hin |]. split; [exact Hvis |].
  exists (Box.x b), (Box.y b). repeat split.
  - exact Hui.
  - rewrite Hp, lookup_map, Hb. reflexivity.
  - rewrite Hr, lookup_map, Hb. cbn. rewrite Hct. reflexivity.
  - exact Hsi.
Qed.

Lemma updateTextures_entries_are_visible_cached_tiles_witness :
  exists textures,
    updateTextures rowPack lowerRightMap = Updated textures
    /\ exists url cachedTile,
         In (url, cachedTile) (CachedTilesByTileUrl lowerRightMap)
         /\ insideViewport lowerRightMap cachedTile = true
         /\ describes textures 0 cachedTile.
Proof.
  eexists. split; [vm_compute; reflexivity |].
  apply (updateTextures_entries_are_visible_cached_tiles rowPack lowerRightMap).
  - vm_compute. reflexivity.
  - cbn. lia.
Defined.

(** ** The integer textures *)

Lemma toInt32_isInt32 (z : Z) : isInt32 (toInt32 z).
Proof.
  unfold isInt32, toInt32.
  pose proof (Z.mod_pos_bound (z + 2 ^ 31) (2 ^ 32) ltac:(lia)) as H. lia.
Qed.

Lemma toInt32_id (z : Z) : isInt32 z -> toInt32 z = z.
Proof.
  unfold isInt32, toInt32. intros H.
  rewrite Z.mod_small by lia. lia.
Qed.

Lemma toInt32_congruent (z : Z) : exists k, toInt32 z = z + k * 2 ^ 32.
Proof.
  unfold toInt32. exists (- ((z + 2 ^ 31) / 2 ^ 32)).
  pose proof (Z.div_mod (z + 2 ^ 31) (2 ^ 32) ltac:(lia)) as H. lia.
Qed.

Lemma Int32Array_lookup (values : list Z) (i : nat) :
  Int32Array values !! i = toInt32 <$> values !! i.
Proof. apply lookup_map. Qed.

(** Rows of four integers lie one after the other. *)
Lemma flat_lookup (rows : list (option (list Z))) (i k : nat) (row : list Z) :
  Forall (fun r => exists l, r = Some l /\ List.length l = 4%nat) rows ->
  rows !! i = Some (Some row) -> (k < 4)%nat ->
  flat rows !! (4 * i + k)%nat = row !! k.
Proof.
  revert i. induction rows as [| r rows IH]; intros i Hall Hi Hk.
  - destruct i; discriminate.
  - apply Forall_cons_1 in Hall. destruct Hall as [[l [-> Hl]] Hall].
    unfold flat. cbn [flat_map]. fold (flat rows).
    destruct i as [| i].
    + cbn in Hi. injection Hi as ->. cbn [Nat.mul Nat.add].
      apply lookup_app_l. lia.
    + cbn in Hi. rewrite lookup_app_r by lia.
      replace (4 * S i + k - List.length l)%nat with (4 * i + k)%nat by lia.
      apply IH; assumption.
Qed.

Lemma flat_length (rows : list (option (list Z))) :
  Forall (fun r => exists l, r = Some l /\ List.length l = 4%nat) rows ->
  List.length (flat rows) = (4 * List.length rows)%nat.
Proof.
  induction rows as [| r rows IH]; intros Hall; [reflexivity |].
  apply Forall_cons_1 in Hall. destruct Hall as [[l [-> Hl]] Hall].
  unfold flat. cbn [flat_map]. fold (flat rows).
  rewrite length_app, IH by exact Hall. cbn [List.length]. lia.
Qed.

(** The first [undefined] row is one element, and the row after it starts
    right behind. *)
Lemma flat_undefined_row (rows : list (option (list Z))) (i : nat) :
  (forall j, (j < i)%nat ->
             exists l, rows !! j = Some (Some l) /\ List.length l = 4%nat) ->
  rows !! i = Some None ->
  flat rows !! (4 * i)%nat = Some 0
  /\ (forall a rest, rows !! S i = Some (Some (a :: rest)) ->
                     flat rows !! (4 * i + 1)%nat = Some a).
Proof.
  revert i. induction rows as [| r rows IH]; intros i Hbefore Hi.
  - destruct i; discriminate.
  - unfold flat. cbn [flat_map]. fold (flat rows).
    destruct i as [| i].
    + cbn in Hi. injection Hi as ->. split; [reflexivity |].
      intros a rest Hnext. cbn in Hnext. cbn.
      destruct rows as [| r' rows]; [discriminate |].
      cbn in Hnext. injection Hnext as ->. reflexivity.
    + destruct (Hbefore 0%nat ltac:(lia)) as [l [Hl Hlen]].
      cbn in Hl. injection Hl as ->. cbn in Hi.
      destruct (IH i) as [H0 H1].
      * intros j Hj. destruct (Hbefore (S j) ltac:(lia)) as [l' [Hl' Hlen']].
        exists l'. split; assumption.
      * exact Hi.
      * split.
        -- rewrite lookup_app_r by lia.
           replace (4 * S i - List.length l)%nat with (4 * i)%nat by lia.
           exact H0.
        -- intros a rest Hnext. rewrite lookup_app_r by lia.
           replace (4 * S i + 1 - List.length l)%nat with (4 * i + 1)%nat by lia.
           apply (H1 a rest). exact Hnext.
Qed.

(** Four integers for a tile with a region, one for a tile without. *)
Lemma flat_regionRow_length (tiles : list CachedTile.t) :
  (List.length (flat (map regionRow tiles))
   + 3 * List.length (List.filter withoutRegion tiles)
   = 4 * List.length tiles)%nat.
Proof.
  induction tiles as [| ct tiles IH]; [reflexivity |].
  unfold flat in *. cbn [map flat_map List.filter].
  rewrite length_app. unfold regionRow at 1, withoutRegion at 1.
  destruct (ImageRequest.region (CachedTile.imageRequest ct));
    cbn [List.length]; lia.
Qed.

Lemma regionRow_length (ct : CachedTile.t) (l : list Z) :
  regionRow ct = Some l -> List.length l = 4%nat.
Proof.
  unfold regionRow. destruct (ImageRequest.region _); [| discriminate].
  intros [= <-]. reflexivity.
Qed.

(** With a packer that returns the boxes it was given, the region rows of
    the atlas are the region rows of the packed tiles, in some order. *)
Lemma region_rows_permutation
    (potpack : list Box.t -> list Box.t * (Z * Z)) (tiles : list CachedTile.t) :
  packsAllBoxes potpack ->
  Permutation
    (map (fun b => match tiles !! Box.index b with
                   | Some ct => regionRow ct
                   | None => None
                   end)
         (fst (potpack (imap tileBox tiles))))
    (map regionRow tiles).
Proof.
  intros Hpack. specialize (Hpack (imap tileBox tiles)).
  set (row := fun j : nat => match tiles !! j with
                             | Some ct => regionRow ct
                             | None => None
                             end).
  apply (Permutation_map (fun key : Z * Z * nat => row (snd key))) in Hpack.
  rewrite !map_map in Hpack. cbn [boxKey snd] in Hpack.
  eapply Permutation_trans; [exact Hpack |].
  assert (E : forall (k : nat) (l : list CachedTile.t),
             (forall j ct, l !! j = Some ct -> tiles !! (k + j)%nat = Some ct) ->
             map (fun b => row (Box.index b)) (imap (fun j => tileBox (k + j)) l)
             = map regionRow l).
  { intros k l. revert k. induction l as [| ct l IHl]; intros k Hl; [reflexivity |].
    cbn [imap map]. f_equal.
    - unfold row. cbn [tileBox Box.index].
      rewrite (Hl 0%nat ct eq_refl). reflexivity.
    - rewrite <- (IHl (S k)).
      + f_equal. apply imap_ext. intros j x _. cbn. f_equal. lia.
      + intros j ct' Hj. replace (S k + j)%nat with (k + S j)%nat by lia.
        apply Hl. exact Hj. }
  rewrite <- (E 0%nat tiles); [apply Permutation_refl | intros j ct Hj; exact Hj].
Qed.

(** X10: when every cached tile inside the viewport was requested with a
    region, the integer textures of a rebuilt atlas hold entry [i] at fixed
    offsets: its origin at [2 i] and [2 i + 1] of the positions texture, and
    its resource region (x, y, width, height) at [4 i] to [4 i + 3] of the
    region texture, which has four integers per entry.  Every value is
    stored as a 32-bit integer: unchanged when it is between -2^31 and
    2^31 - 1, and otherwise wrapped around by a multiple of 2^32. *)
Theorem updateTextures_texture_layout
    (potpack : list Box.t -> list Box.t * (Z * Z)) (this : WebGL2WarpedMap)
    (textures : Textures) (i : nat) (x y : Z) (region : Region.t)
    (cachedTile : CachedTile.t) :
  updateTextures potpack this = Updated textures ->
  Forall (fun ct => is_Some (ImageRequest.region (CachedTile.imageRequest ct)))
    (tilesToPack this) ->
  packedTilesPositions textures !! i = Some [x; y] ->
  packedTilesResourcePositionsAndDimensions textures !! i
  = Some (regionRow cachedTile) ->
  ImageRequest.region (CachedTile.imageRequest cachedTile) = Some region ->
  packedTilesPositionsTexture textures !! (2 * i)%nat = Some (toInt32 x)
  /\ packedTilesPositionsTexture textures !! (2 * i + 1)%nat = Some (toInt32 y)
  /\ packedTilesResourcePositionsAndDimensionsTexture textures !! (4 * i)%nat
     = Some (toInt32 (Region.x region))
  /\ packedTilesResourcePositionsAndDimensionsTexture textures !! (4 * i + 1)%nat
     = Some (toInt32 (Region.y region))
  /\ packedTilesResourcePositionsAndDimensionsTexture textures !! (4 * i + 2)%nat
     = Some (toInt32 (Region.width region))
  /\ packedTilesResourcePositionsAndDimensionsTexture textures !! (4 * i + 3)%nat
     = Some (toInt32 (Region.height region))
  /\ List.length (packedTilesResourcePositionsAndDimensionsTexture textures)
     = (4 * List.length (packedTilesResourcePositionsAndDimensions textures))%nat
  /\ (forall value : Z,
         isInt32 (toInt32 value)
         /\ (exists k : Z, toInt32 value = value + k * 2 ^ 32)
         /\ (isInt32 value -> toInt32 value = value)).
Proof.
  intros Hup Hall Hpos Hreg Hregion.
  destruct (updateTextures_Updated_inv potpack this textures Hup)
    as (packed & size & _ & _ & Hu & Hp & Hr & _ & _ & Hpt & Hrt & _).
  assert (Hrows : Forall (fun r => exists l, r = Some l /\ List.length l = 4%nat)
                    (packedTilesResourcePositionsAndDimensions textures)).
  { rewrite Hr. apply Forall_forall. intros r Hin.
    apply in_map_iff in Hin. destruct Hin as [b [<- Hb]].
    apply list_elem_of_In, list_elem_of_lookup in Hb. destruct Hb as [j Hj].
    destruct (Forall2_lookup_l _ _ _ _ _ Hu Hj) as (u & _ & ct & Hct & _).
    rewrite Hct.
    assert (Hin : In ct (tilesToPack this)).
    { apply list_elem_of_In, list_elem_of_lookup. eauto. }
    rewrite Forall_forall in Hall. destruct (Hall ct Hin) as [rg Hrg].
    unfold regionRow. rewrite Hrg. eexists. split; reflexivity. }
  assert (Hrow : regionRow cachedTile
                 = Some [Region.x region; Region.y region;
                         Region.width region; Region.height region]).
  { unfold regionRow. rewrite Hregion. reflexivity. }
  rewrite Hrow in Hreg.
  assert (Hconcat : forall (rows : list (list Z)) (j k : nat) (row : list Z),
             Forall (fun r => List.length r = 2%nat) rows ->
             rows !! j = Some row -> (k < 2)%nat ->
             List.concat rows !! (2 * j + k)%nat = row !! k).
  { clear. induction rows as [| r rows IH]; intros j k row Hall Hj Hk.
    - destruct j; discriminate.
    - apply Forall_cons_1 in Hall. destruct Hall as [Hl Hall]. cbn [List.concat].
      destruct j as [| j].
      + cbn in Hj. injection Hj as ->. cbn [Nat.mul Nat.add].
        apply lookup_app_l. lia.
      + cbn in Hj. rewrite lookup_app_r by lia.
        replace (2 * S j + k - List.length r)%nat with (2 * j + k)%nat by lia.
        apply IH; assumption. }
  assert (Hpos2 : Forall (fun r : list Z => List.length r = 2%nat)
                    (packedTilesPositions textures)).
  { rewrite Hp. apply Forall_forall. intros r Hin.
    apply in_map_iff in Hin. destruct Hin as [b [<- _]]. reflexivity. }
  rewrite Hpt, Hrt. unfold flatInt32.
  pose proof (Hconcat _ i 0%nat [x; y] Hpos2 Hpos ltac:(lia)) as P0.
  pose proof (Hconcat _ i 1%nat [x; y] Hpos2 Hpos ltac:(lia)) as P1.
  pose proof (flat_lookup _ i 0%nat _ Hrows Hreg ltac:(lia)) as R0.
  pose proof (flat_lookup _ i 1%nat _ Hrows Hreg ltac:(lia)) as R1.
  pose proof (flat_lookup _ i 2%nat _ Hrows Hreg ltac:(lia)) as R2.
  pose proof (flat_lookup _ i 3%nat _ Hrows Hreg ltac:(lia)) as R3.
  rewrite Nat.add_0_r in P0, R0.
  rewrite !Int32Array_lookup, P0, P1, R0, R1, R2, R3.
  repeat (split; [reflexivity |]).
  split.
  - unfold Int32Array. rewrite length_map. apply flat_length, Hrows.
  - intros value. split; [apply toInt32_isInt32 |].
    split; [apply toInt32_congruent | apply toInt32_id].
Qed.

Lemma updateTextures_texture_layout_witness :
  exists textures,
    updateTextures rowPack lowerRightMap = Updated textures
    /\ packedTilesPositionsTexture textures !! (2 * 0)%nat = Some (toInt32 0)
    /\ packedTilesPositionsTexture textures !! (2 * 0 + 1)%nat = Some (toInt32 0)
    /\ packedTilesResourcePositionsAndDimensionsTexture textures !! (4 * 0)%nat
       = Some (toInt32 768)
    /\ packedTilesResourcePositionsAndDimensionsTexture textures !! (4 * 0 + 1)%nat
       = Some (toInt32 768)
    /\ packedTilesResourcePositionsAndDimensionsTexture textures !! (4 * 0 + 2)%nat
       = Some (toInt32 256)
    /\ packedTilesResourcePositionsAndDimensionsTexture textures !! (4 * 0 + 3)%nat
       = Some (toInt32 256)
    /\ List.length (packedTilesResourcePositionsAndDimensionsTexture textures)
       = (4 * List.length (packedTilesResourcePositionsAndDimensions textures))%nat
    /\ (forall value : Z,
           isInt32 (toInt32 value)
           /\ (exists k : Z, toInt32 value = value + k * 2 ^ 32)
           /\ (isInt32 value -> toInt32 value = value)).
Proof.
  eexists. split; [vm_compute; reflexivity |].
  apply (updateTextures_texture_layout rowPack lowerRightMap _ 0%nat 0 0
           (Region.mk 768 768 256 256) (cachedTileAt "tile-3-3" 3 3)).
  - vm_compute. reflexivity.
  - vm_compute. repeat constructor; eexists; reflexivity.
  - reflexivity.
  - reflexivity.
  - reflexivity.
Defined.

(** X11: a cached tile inside the viewport that was requested without a
    region (the whole image) has the row [undefined], which becomes a single
    0 in the region texture.  The texture then holds four integers for every
    packed tile with a region and one for every packed tile without, fewer
    than four per entry; and the rows no longer line up: the first
    [undefined] row [i] is the 0 at offset [4 i], and the row after it starts
    at offset [4 i + 1]. *)
Theorem updateTextures_region_texture_short
    (potpack : list Box.t -> list Box.t * (Z * Z)) (this : WebGL2WarpedMap)
    (textures : Textures) (cachedTile : CachedTile.t) :
  packsAllBoxes potpack ->
  updateTextures potpack this = Updated textures ->
  In cachedTile (tilesToPack this) ->
  ImageRequest.region (CachedTile.imageRequest cachedTile) = None ->
  let rows := packedTilesResourcePositionsAndDimensions textures in
  let texture := packedTilesResourcePositionsAndDimensionsTexture textures in
  (List.length texture < 4 * List.length rows)%nat
  /\ (List.length texture
      + 3 * List.length (List.filter withoutRegion (tilesToPack this))
      = 4 * List.length rows)%nat
  /\ In None rows
  /\ (forall i : nat,
         rows !! i = Some None ->
         (forall j, (j < i)%nat -> rows !! j <> Some None) ->
         texture !! (4 * i)%nat = Some 0
         /\ forall a b c d : Z,
              rows !! S i = Some (Some [a; b; c; d]) ->
              texture !! (4 * i + 1)%nat = Some (toInt32 a)).
Proof.
  intros Hpack Hup Hin Hnone. cbn zeta.
  destruct (updateTextures_Updated_inv potpack this textures Hup)
    as (packed & size & Epack & _ & _ & _ & Hr & _ & _ & _ & Hrt & _).
  pose proof (region_rows_permutation potpack (tilesToPack this) Hpack) as Hperm.
  rewrite Epack in Hperm. cbn [fst] in Hperm. rewrite <- Hr in Hperm.
  assert (Hlen : (List.length (packedTilesResourcePositionsAndDimensionsTexture
                                 textures)
                  + 3 * List.length (List.filter withoutRegion (tilesToPack this))
                  = 4 * List.length (packedTilesResourcePositionsAndDimensions
                                       textures))%nat).
  { rewrite Hrt. unfold flatInt32, Int32Array. rewrite length_map.
    unfold flat.
    rewrite (Permutation_length (Permutation_flat_map _ Hperm)).
    rewrite (Permutation_length Hperm), length_map.
    apply flat_regionRow_length. }
  assert (Hnonempty : (0 < List.length (List.filter withoutRegion
                                          (tilesToPack this)))%nat).
  { assert (Hf : In cachedTile (List.filter withoutRegion (tilesToPack this))).
    { apply filter_In. split; [exact Hin |].
      unfold withoutRegion. rewrite Hnone. reflexivity. }
    destruct (List.filter withoutRegion (tilesToPack this));
      [destruct Hf | cbn; lia]. }
  split; [lia |]. split; [exact Hlen |]. split.
  - apply (Permutation_in _ (Permutation_sym Hperm)).
    apply in_map_iff. exists cachedTile. split; [| exact Hin].
    unfold regionRow. rewrite Hnone. reflexivity.
  - intros i Hi Hbefore.
    assert (Hfour : forall j l,
               packedTilesResourcePositionsAndDimensions textures !! j
               = Some (Some l) -> List.length l = 4%nat).
    { intros j l Hj.
      assert (Hl : In (Some l) (map regionRow (tilesToPack this))).
      { apply (Permutation_in _ Hperm).
        apply list_elem_of_In, list_elem_of_lookup. eauto. }
      apply in_map_iff in Hl. destruct Hl as [ct [Hct _]].
      exact (regionRow_length ct l Hct). }
    destruct (flat_undefined_row
                (packedTilesResourcePositionsAndDimensions textures) i)
      as [H0 H1].
    + intros j Hj.
      destruct (packedTilesResourcePositionsAndDimensions textures !! j)
        as [[l |] |] eqn:Ej.
      * exists l. split; [reflexivity | exact (Hfour j l Ej)].
      * exfalso. exact (Hbefore j Hj Ej).
      * exfalso. apply lookup_ge_None in Ej.
        apply lookup_lt_Some in Hi. lia.
    + exact Hi.
    + rewrite Hrt. unfold flatInt32. rewrite !Int32Array_lookup, H0.
      split; [reflexivity |].
      intros a b c d Hnext. rewrite (H1 _ _ Hnext). reflexivity.
Qed.

Lemma updateTextures_region_texture_short_witness :
  exists textures,
    updateTextures rowPack wholeImageMap = Updated textures
    /\ let rows := packedTilesResourcePositionsAndDimensions textures in
       let texture := packedTilesResourcePositionsAndDimensionsTexture textures in
       (List.length texture < 4 * List.length rows)%nat
       /\ (List.length texture
           + 3 * List.length (List.filter withoutRegion (tilesToPack wholeImageMap))
           = 4 * List.length rows)%nat
       /\ In None rows
       /\ (forall i : nat,
              rows !! i = Some None ->
              (forall j, (j < i)%nat -> rows !! j <> Some None) ->
              texture !! (4 * i)%nat = Some 0
              /\ forall a b c d : Z,
                   rows !! S i = Some (Some [a; b; c; d]) ->
                   texture !! (4 * i + 1)%nat = Some (toInt32 a)).
Proof.
  eexists. split; [vm_compute; reflexivity |].
  apply (updateTextures_region_texture_short rowPack wholeImageMap _ wholeImageTile).
  - exact rowPack_packsAllBoxes.
  - vm_compute. reflexivity.
  - left. reflexivity.
  - reflexivity.
Defined.

(** ** The collection of cached tiles *)

Lemma mapGet_mapSet_eq {V : Type} (key : string) (value : V)
    (entries : list (string * V)) :
  mapGet key (mapSet key value entries) = Some value.
Proof.
  unfold mapGet, mapSet.
  destruct (existsb _ entries) eqn:Eex.
  - induction entries as [| [k v] entries IH]; [discriminate |].
    cbn in *. destruct (String.eqb k key) eqn:Ek.
    + cbn. rewrite String.eqb_refl. reflexivity.
    + cbn. rewrite Ek. apply IH. exact Eex.
  - induction entries as [| [k v] entries IH].
    + cbn. rewrite String.eqb_refl. reflexivity.
    + cbn in *. destruct (String.eqb k key) eqn:Ek; [discriminate |].
      apply IH. exact Eex.
Qed.

Lemma mapGet_mapSet_ne {V : Type} (key other : string) (value : V)
    (entries : list (string * V)) :
  other <> key ->
  mapGet other (mapSet key value entries) = mapGet other entries.
Proof.
  intros Hne. unfold mapGet, mapSet.
  assert (Hk : String.eqb key other = false).
  { apply String.eqb_neq. congruence. }
  destruct (existsb _ entries).
  - induction entries as [| [k v] entries IH]; [reflexivity |].
    cbn. destruct (String.eqb k key) eqn:Ek.
    + apply String.eqb_eq in Ek. subst k. cbn. rewrite Hk. exact IH.
    + cbn. destruct (String.eqb k other); [reflexivity | exact IH].
  - induction entries as [| [k v] entries IH].
    + cbn. rewrite Hk. reflexivity.
    + cbn. destruct (String.eqb k other); [reflexivity | exact IH].
Qed.

Lemma mapSet_keys {V : Type} (key : string) (value : V)
    (entries : list (string * V)) :
  map fst (mapSet key value entries)
  = if existsb (fun e => String.eqb (fst e) key) entries
    then map fst entries
    else map fst entries ++ [key].
Proof.
  unfold mapSet. destruct (existsb _ entries).
  - induction entries as [| [k v] entries IH]; [reflexivity |].
    cbn. rewrite IH. destruct (String.eqb k key) eqn:Ek; [| reflexivity].
    apply String.eqb_eq in Ek. subst k. reflexivity.
  - rewrite map_app. reflexivity.
Qed.

Lemma mapGet_mapDelete_eq {V : Type} (key : string) (entries : list (string * V)) :
  mapGet key (mapDelete key entries) = None.
Proof.
  unfold mapGet, mapDelete.
  induction entries as [| [k v] entries IH]; [reflexivity |].
  cbn. destruct (String.eqb k key) eqn:Ek; cbn; [exact IH |].
  rewrite Ek. exact IH.
Qed.

Lemma mapGet_mapDelete_ne {V : Type} (key other : string)
    (entries : list (string * V)) :
  other <> key -> mapGet other (mapDelete key entries) = mapGet other entries.
Proof.
  intros Hne. unfold mapGet, mapDelete.
  induction entries as [| [k v] entries IH]; [reflexivity |].
  cbn. destruct (String.eqb k key) eqn:Ek; cbn.
  - apply String.eqb_eq in Ek. subst k.
    assert (Hk : String.eqb key other = false).
    { apply String.eqb_neq. congruence. }
    rewrite Hk. exact IH.
  - destruct (String.eqb k other); [reflexivity | exact IH].
Qed.

Lemma mapDelete_absent {V : Type} (key : string) (entries : list (string * V)) :
  existsb (fun e => String.eqb (fst e) key) entries = false ->
  mapDelete key entries = entries.
Proof.
  unfold mapDelete. induction entries as [| [k v] entries IH]; [reflexivity |].
  cbn. destruct (String.eqb k key); [discriminate |].
  intros H. cbn. rewrite (IH H). reflexivity.
Qed.

Lemma mapGet_None_absent {V : Type} (key : string) (entries : list (string * V)) :
  mapGet key entries = None ->
  existsb (fun e => String.eqb (fst e) key) entries = false.
Proof.
  unfold mapGet. induction entries as [| [k v] entries IH]; [reflexivity |].
  cbn. destruct (String.eqb k key); [discriminate | exact IH].
Qed.

(** X12: after [addCachedTileAndUpdateTextures] the collection maps the
    tile's URL to the tile and every other URL as before, and holds no URL
    twice if it did not before; after [removeCachedTileAndUpdateTextures] the
    URL is gone and the others stay; adding a tile under a new URL and
    removing that URL gives back the collection as it was. *)
Theorem cached_tiles_add_remove (this : WebGL2WarpedMap)
    (cachedTile : CachedTile.t) (other : string) :
  let url := CachedTile.tileUrl cachedTile in
  let added := addCachedTileAndUpdateTextures this cachedTile in
  let removed := removeCachedTileAndUpdateTextures this url in
  mapGet url (CachedTilesByTileUrl added) = Some cachedTile
  /\ (other <> url ->
      mapGet other (CachedTilesByTileUrl added)
      = mapGet other (CachedTilesByTileUrl this))
  /\ (NoDup (map fst (CachedTilesByTileUrl this)) ->
      NoDup (map fst (CachedTilesByTileUrl added)))
  /\ mapGet url (CachedTilesByTileUrl removed) = None
  /\ (other <> url ->
      mapGet other (CachedTilesByTileUrl removed)
      = mapGet other (CachedTilesByTileUrl this))
  /\ (mapGet url (CachedTilesByTileUrl this) = None ->
      removeCachedTileAndUpdateTextures added url = this).
Proof.
  cbn zeta. cbn [addCachedTileAndUpdateTextures removeCachedTileAndUpdateTextures
                   CachedTilesByTileUrl].
  split; [apply mapGet_mapSet_eq |].
  split; [apply mapGet_mapSet_ne |].
  split.
  { intros Hnd. rewrite mapSet_keys.
    destruct (existsb _ (CachedTilesByTileUrl this)) eqn:Eex; [exact Hnd |].
    apply NoDup_app; [exact Hnd | repeat constructor; intros [] |].
    intros k Hk [<- | []].
    apply in_map_iff in Hk. destruct Hk as [[k v] [Ek Hin]]. cbn in Ek. subst k.
    assert (Htrue : existsb (fun e => String.eqb (fst e) (CachedTile.tileUrl cachedTile))
                      (CachedTilesByTileUrl this) = true).
    { apply existsb_exists. exists (CachedTile.tileUrl cachedTile, v).
      split; [exact Hin | apply String.eqb_refl]. }
    congruence. }
  split; [apply mapGet_mapDelete_eq |].
  split; [apply mapGet_mapDelete_ne |].
  intros Hnone. apply mapGet_None_absent in Hnone.
  destruct this as [entries bbox].
  cbn [CachedTilesByTileUrl resourceViewportRingBbox] in *.
  unfold removeCachedTileAndUpdateTextures, addCachedTileAndUpdateTextures.
  cbn [CachedTilesByTileUrl resourceViewportRingBbox]. f_equal.
  unfold mapSet. rewrite Hnone. unfold mapDelete.
  rewrite List.filter_app. cbn [List.filter fst]. rewrite String.eqb_refl.
  cbn [negb]. rewrite app_nil_r.
  apply mapDelete_absent. exact Hnone.
Qed.

(** An atlas entry for a tile among the tiles to pack. *)
Lemma atlas_entry_of_packed_tile
    (potpack : list Box.t -> list Box.t * (Z * Z)) (this : WebGL2WarpedMap)
    (textures : Textures) (cachedTile : CachedTile.t) :
  packsAllBoxes potpack ->
  updateTextures potpack this = Updated textures ->
  In cachedTile (tilesToPack this) ->
  exists i, describes textures i cachedTile.
Proof.
  intros Hpack Hup Hin.
  destruct (updateTextures_Updated_inv potpack this textures Hup)
    as (packed & size & Epack & _ & Hu & Hp & Hr & Hs & _).
  apply list_elem_of_In, list_elem_of_lookup in Hin. destruct Hin as [j Hj].
  specialize (Hpack (imap tileBox (tilesToPack this))).
  rewrite Epack in Hpack. cbn [fst] in Hpack.
  assert (Hkey : In (boxKey (tileBox j cachedTile))
                   (map boxKey (imap tileBox (tilesToPack this)))).
  { apply in_map. apply list_elem_of_In, list_elem_of_lookup. exists j.
    rewrite list_lookup_imap, Hj. reflexivity. }
  apply (Permutation_in _ (Permutation_sym Hpack)) in Hkey.
  apply in_map_iff in Hkey. destruct Hkey as [b [Hb Hbin]].
  assert (E : Box.index b = j) by (unfold boxKey in Hb; cbn in Hb; congruence).
  apply list_elem_of_In, list_elem_of_lookup in Hbin. destruct Hbin as [i Hi].
  destruct (Forall2_lookup_l _ _ _ _ _ Hu Hi) as (u & Hui & ct & Hct & ->).
  destruct (Forall2_lookup_l _ _ _ _ _ Hs Hi) as (sf & Hsi & ct' & Hct' & ->).
  rewrite E, Hj in Hct, Hct'. injection Hct as <-. injection Hct' as <-.
  exists i, (Box.x b), (Box.y b). repeat split.
  - exact Hui.
  - rewrite Hp, lookup_map, Hi. reflexivity.
  - rewrite Hr, lookup_map, Hi. cbn. rewrite E, Hj. reflexivity.
  - exact Hsi.
Qed.

Lemma mapSet_In {V : Type} (key : string) (value : V) (entries : list (string * V)) :
  In (key, value) (mapSet key value entries).
Proof.
  unfold mapSet. destruct (existsb _ entries) eqn:Eex.
  - apply existsb_exists in Eex. destruct Eex as [[k v] [Hin Ek]].
    cbn in Ek. apply in_map_iff. exists (k, v). cbn. rewrite Ek. auto.
  - apply in_or_app. right. left. reflexivity.
Qed.

(** X13: once a tile inside the viewport has been added, the next
    [updateTextures] rebuilds the atlas, with an entry that describes this
    tile. *)
Theorem added_tile_is_packed
    (potpack : list Box.t -> list Box.t * (Z * Z)) (this : WebGL2WarpedMap)
    (cachedTile : CachedTile.t) :
  packsAllBoxes potpack ->
  insideViewport this cachedTile = true ->
  exists textures i,
    updateTextures potpack (addCachedTileAndUpdateTextures this cachedTile)
    = Updated textures
    /\ describes textures i cachedTile.
Proof.
  intros Hpack Hvis.
  set (added := addCachedTileAndUpdateTextures this cachedTile).
  assert (Hin : In (CachedTile.tileUrl cachedTile, cachedTile)
                  (CachedTilesByTileUrl added)) by apply mapSet_In.
  destruct (updateTextures_never_fails potpack added Hpack)
    as [[Hempty _] | [_ [textures Hup]]].
  - rewrite Hempty in Hin. destruct Hin.
  - assert (Hpacked : In cachedTile (tilesToPack added)).
    { unfold tilesToPack. apply filter_In. split.
      - apply (in_map snd) in Hin. exact Hin.
      - exact Hvis. }
    destruct (atlas_entry_of_packed_tile potpack added textures cachedTile
                Hpack Hup Hpacked) as [i Hi].
    exists textures, i. split; assumption.
Qed.

Lemma added_tile_is_packed_witness :
  exists textures i,
    updateTextures rowPack
      (addCachedTileAndUpdateTextures lowerRightMap (cachedTileAt "tile-2-3" 2 3))
    = Updated textures
    /\ describes textures i (cachedTileAt "tile-2-3" 2 3).
Proof.
  apply (added_tile_is_packed rowPack lowerRightMap (cachedTileAt "tile-2-3" 2 3)).
  - exact rowPack_packsAllBoxes.
  - vm_compute. reflexivity.
Defined.

(** ** The triangle index buffer *)

Lemma Math_roundQ_third (i : nat) :
  Math_roundQ ((inject_Z (Z.of_nat i) - 1) / 3) = Z.of_nat (i / 3).
Proof.
  unfold Math_roundQ.
  assert (E : ((inject_Z (Z.of_nat i) - 1) / 3 + (1 # 2) ==
               (2 * Z.of_nat i + 1) # 6)%Q).
  { unfold Qeq, Qdiv, Qminus, Qplus, Qmult, Qopp, Qinv, inject_Z; cbn. lia. }
  rewrite E. cbn [Qfloor].
  rewrite Nat2Z.inj_div. cbn [Z.of_nat].
  change (Z.pos (Pos.of_succ_nat 2)) with 3.
  pose proof (Z.div_mod (2 * Z.of_nat i + 1) 6 ltac:(lia)) as H6.
  pose proof (Z.mod_pos_bound (2 * Z.of_nat i + 1) 6 ltac:(lia)) as B6.
  pose proof (Z.div_mod (Z.of_nat i) 3 ltac:(lia)) as H3.
  pose proof (Z.mod_pos_bound (Z.of_nat i) 3 ltac:(lia)) as B3.
  lia.
Qed.

(** X14: the triangle index of the triangle point [i] is [i] divided by
    three, rounded down: the three points of a triangle share one index,
    and triangles are numbered from 0. *)
Theorem trianglePointsTriangleIndex_is_div3 (n i : nat) :
  (i < n)%nat ->
  trianglePointsTriangleIndex n !! i = Some (Z.of_nat (i / 3))
  /\ List.length (trianglePointsTriangleIndex n) = n.
Proof.
  intros Hi. unfold trianglePointsTriangleIndex. split.
  - rewrite lookup_map.
    assert (Hseq : seq 0 n !! i = Some i).
    { rewrite lookup_seq_lt by exact Hi. reflexivity. }
    rewrite Hseq. cbn. f_equal. apply Math_roundQ_third.
  - rewrite length_map, length_seq. reflexivity.
Qed.

Lemma trianglePointsTriangleIndex_is_div3_witness :
  trianglePointsTriangleIndex 6 !! 4%nat = Some (Z.of_nat (4 / 3))
  /\ List.length (trianglePointsTriangleIndex 6) = 6%nat.
Proof.
  apply (trianglePointsTriangleIndex_is_div3 6 4). lia.
Defined.

End AtlasOpsFacts.

(** * IIIF image profiles *)

Module ProfileFacts.
Import JS Profile.
Local Open Scope Z_scope.

Lemma parseProfileUri_known (uri : string) :
  if knownUri uri
  then exists level, parseProfileUri uri = Return level
                     /\ (1 <=? level) = profileSupports (ProfileUri uri)
  else parseProfileUri uri = Throw unsupportedProfileError.
Proof.
  unfold knownUri, parseProfileUri, profileSupports.
  destruct (String.eqb uri "http://iiif.io/api/image/2/level0.json") eqn:E0.
  - apply String.eqb_eq in E0. subst uri. cbn. eexists. split; reflexivity.
  - destruct (String.eqb uri "http://iiif.io/api/image/2/level1.json") eqn:E1.
    + cbn. eexists. split; reflexivity.
    + destruct (String.eqb uri "http://iiif.io/api/image/2/level2.json") eqn:E2.
      * cbn. eexists. split; reflexivity.
      * cbn. reflexivity.
Qed.

Lemma supportsAll_description (d : Description.t) :
  supportsAll (Description.supports d) = profileSupports (ProfileDescription d).
Proof.
  unfold supportsAll, profileSupports. cbn.
  destruct (Description.supports d); [| reflexivity].
  rewrite andb_true_r. reflexivity.
Qed.

(** The loop throws at the first URI it does not know, and not otherwise. *)
Lemma forEach_outcome (profiles : list Profile2) (st : LoopState) :
  if existsb unknownUriIn profiles
  then forEach profiles st = Throw unsupportedProfileError
  else exists st', forEach profiles st = Return st'.
Proof.
  revert st. induction profiles as [| profile rest IH]; intros st; cbn.
  - eexists. reflexivity.
  - destruct profile as [uri | d]; cbn.
    + pose proof (parseProfileUri_known uri) as Hk.
      destruct (knownUri uri); cbn.
      * destruct Hk as [level [-> _]]. apply IH.
      * rewrite Hk. reflexivity.
    + apply IH.
Qed.

(** X15: for an Image API 2 service, [getProfileProperties] throws
    'Unsupported IIIF Image Profile' exactly when one of the profile URIs is
    not one of the three level URIs, wherever it stands in the list and
    whatever the other profiles say; otherwise it returns. *)
Theorem getProfileProperties_throws_on_unknown_uri (profiles : list Profile2) :
  if existsb unknownUriIn profiles
  then getProfileProperties (WithAtId profiles) = Throw unsupportedProfileError
  else exists properties, getProfileProperties (WithAtId profiles) = Return properties.
Proof.
  unfold getProfileProperties.
  pose proof (forEach_outcome profiles loopStart) as H.
  destruct (existsb unknownUriIn profiles).
  - rewrite H. reflexivity.
  - destruct H as [st ->]. eexists. reflexivity.
Qed.

(** The running maximum of a field after the loop. *)
Lemma forEach_max (field : Description.t -> option Z)
    (get : LoopState -> option Z) (profiles : list Profile2) (st st' : LoopState) :
  (forall s p s', loopBody s p = Return s' ->
                  get s' = match p with
                           | ProfileDescription d => updateMax (field d) (get s)
                           | ProfileUri _ => get s
                           end) ->
  forEach profiles st = Return st' ->
  get st' = fold_left (fun acc v => Math_max v acc) (givenValues field profiles)
              (get st).
Proof.
  intros Hget. revert st. induction profiles as [| p rest IH]; intros st H.
  - cbn in H. injection H as <-. reflexivity.
  - cbn [forEach] in H. destruct (loopBody st p) as [s1 | msg] eqn:Ebody;
      [| discriminate].
    rewrite (IH s1 H). rewrite (Hget st p s1 Ebody).
    unfold givenValues. cbn [flat_map]. rewrite fold_left_app.
    destruct p as [uri | d]; [reflexivity |].
    destruct (field d); reflexivity.
Qed.

Lemma fold_max_spec (values : list Z) (start : option Z) :
  let result := fold_left (fun acc v => Math_max v acc) values start in
  match result with
  | Some m =>
      (start = Some m \/ In m values)
      /\ (forall v, In v values -> v <= m)
      /\ (forall s, start = Some s -> s <= m)
  | None => start = None /\ values = []
  end.
Proof.
  revert start. induction values as [| v values IH]; intros start; cbn zeta.
  - cbn. destruct start as [s |]; [| auto].
    split; [auto |]. split; [intros v [] | intros s' [= <-]; lia].
  - cbn [fold_left]. specialize (IH (Math_max v start)). cbn zeta in IH.
    destruct (fold_left _ values (Math_max v start)) as [m |].
    + destruct IH as [Hm [Hall Hs]].
      assert (Hv : v <= m /\ forall s, start = Some s -> s <= m).
      { destruct start as [s |]; cbn in Hs.
        - specialize (Hs _ eq_refl). split; [lia |]. intros s' [= <-]. lia.
        - specialize (Hs _ eq_refl). split; [lia |]. intros s' [=]. }
      destruct Hv as [Hv Hstart]. split; [| split].
      * destruct Hm as [Hm | Hm]; [| right; right; exact Hm].
        destruct start as [s |]; cbn in Hm; injection Hm as Hm.
        -- destruct (Z.max_spec v s) as [[_ E] | [_ E]]; rewrite E in Hm.
           ++ left. congruence.
           ++ right. left. exact Hm.
        -- right. left. exact Hm.
      * intros w [<- | Hw]; [exact Hv | apply Hall, Hw].
      * exact Hstart.
    + destruct IH as [E _]. destruct start; discriminate E.
Qed.

Lemma largestNonNegative_fold (values : list Z) :
  largestNonNegative values
    (nonNegativeOrUndefined
       (fold_left (fun acc v => Math_max v acc) values None)).
Proof.
  pose proof (fold_max_spec values None) as H. cbn zeta in H.
  destruct (fold_left _ values None) as [m |]; cbn.
  - destruct H as [[H | H] [Hall _]]; [discriminate |].
    destruct (0 <=? m) eqn:E; cbn.
    + apply Z.leb_le in E. auto.
    + apply Z.leb_gt in E. intros v Hv. specialize (Hall v Hv). lia.
  - destruct H as [_ ->]. intros v [].
Qed.

(** X16: for an Image API 2 service, the maxWidth, maxHeight and maxArea
    returned are each the largest value the profile descriptions give for
    it, and undefined when they give none or only negative ones. *)
Theorem getProfileProperties_limits (profiles : list Profile2)
    (properties : Properties.t) :
  getProfileProperties (WithAtId profiles) = Return properties ->
  largestNonNegative (givenValues Description.maxWidth profiles)
    (Properties.maxWidth properties)
  /\ largestNonNegative (givenValues Description.maxHeight profiles)
       (Properties.maxHeight properties)
  /\ largestNonNegative (givenValues Description.maxArea profiles)
       (Properties.maxArea properties).
Proof.
  unfold getProfileProperties. intros H.
  destruct (forEach profiles loopStart) as [st |] eqn:Eloop; [| discriminate].
  injection H as <-. cbn.
  assert (Hbody : forall (field : Description.t -> option Z)
                         (get : LoopState -> option Z),
             (forall s d, get (match loopBody s (ProfileDescription d) with
                               | Return s' => s'
                               | Throw _ => s
                               end) = updateMax (field d) (get s)) ->
             (forall s uri s', loopBody s (ProfileUri uri) = Return s' ->
                               get s' = get s) ->
             get loopStart = None ->
             largestNonNegative (givenValues field profiles)
               (nonNegativeOrUndefined (get st))).
  { intros field get Hd Hu Hstart.
    rewrite (forEach_max field get profiles loopStart st); [| | exact Eloop].
    - rewrite Hstart. apply largestNonNegative_fold.
    - intros s p s' Hp. destruct p as [uri | d].
      + exact (Hu s uri s' Hp).
      + specialize (Hd s d). cbn in Hp. injection Hp as <-. exact Hd. }
  assert (Huri : forall (get : LoopState -> option Z),
             (forall a b c e, get (mkLoopState a b c e) = get (mkLoopState false b c e)) ->
             forall s uri s', loopBody s (ProfileUri uri) = Return s' ->
                              get s' = get s).
  { intros get Hg s uri s' Hp. cbn in Hp.
    destruct (parseProfileUri uri); [| discriminate]. injection Hp as <-.
    destruct s. cbn. rewrite Hg. symmetry. apply Hg. }
  split; [| split].
  - apply (Hbody Description.maxWidth maxWidth); [reflexivity | | reflexivity].
    apply Huri. reflexivity.
  - apply (Hbody Description.maxHeight maxHeight); [reflexivity | | reflexivity].
    apply Huri. reflexivity.
  - apply (Hbody Description.maxArea maxArea); [reflexivity | | reflexivity].
    apply Huri. reflexivity.
Qed.

Lemma getProfileProperties_limits_witness :
  exists properties,
    getProfileProperties (WithAtId exampleProfiles) = Return properties
    /\ largestNonNegative (givenValues Description.maxWidth exampleProfiles)
         (Properties.maxWidth properties)
    /\ largestNonNegative (givenValues Description.maxHeight exampleProfiles)
         (Properties.maxHeight properties)
    /\ largestNonNegative (givenValues Description.maxArea exampleProfiles)
         (Properties.maxArea properties).
Proof.
  eexists. split; [vm_compute; reflexivity |].
  apply (getProfileProperties_limits exampleProfiles).
  vm_compute. reflexivity.
Defined.

Lemma forEach_supports (profiles : list Profile2) (st st' : LoopState) :
  forEach profiles st = Return st' ->
  supportsAnyRegionAndSize st'
  = supportsAnyRegionAndSize st || existsb profileSupports profiles.
Proof.
  revert st. induction profiles as [| p rest IH]; intros st H.
  - cbn in H. injection H as <-. cbn. rewrite orb_false_r. reflexivity.
  - cbn [forEach] in H. destruct (loopBody st p) as [s1 | msg] eqn:Ebody;
      [| discriminate].
    rewrite (IH s1 H). cbn [existsb]. rewrite orb_assoc. f_equal.
    destruct p as [uri | d]; cbn in Ebody.
    + pose proof (parseProfileUri_known uri) as Hk.
      destruct (knownUri uri).
      * destruct Hk as [level [E Hl]]. rewrite E in Ebody.
        injection Ebody as <-. cbn. rewrite Hl. reflexivity.
      * rewrite Hk in Ebody. discriminate.
    + injection Ebody as <-. cbn. f_equal.
      destruct (Description.supports d); [rewrite andb_true_r |]; reflexivity.
Qed.

(** X17: for an Image API 2 service, any region and size is supported
    exactly when one profile says so: the level 1 or level 2 URI, or a
    description that supports both 'regionByPx' and 'sizeByWh'; two
    descriptions with one feature each do not add up. *)
Theorem getProfileProperties_supports (profiles : list Profile2)
    (properties : Properties.t) :
  getProfileProperties (WithAtId profiles) = Return properties ->
  Properties.supportsAnyRegionAndSize properties = existsb profileSupports profiles.
Proof.
  unfold getProfileProperties. intros H.
  destruct (forEach profiles loopStart) as [st |] eqn:Eloop; [| discriminate].
  injection H as <-. cbn.
  rewrite (forEach_supports profiles loopStart st Eloop). reflexivity.
Qed.

Lemma getProfileProperties_supports_witness :
  exists properties,
    getProfileProperties (WithAtId exampleProfiles) = Return properties
    /\ Properties.supportsAnyRegionAndSize properties
       = existsb profileSupports exampleProfiles.
Proof.
  eexists. split; [vm_compute; reflexivity |].
  apply (getProfileProperties_supports exampleProfiles).
  vm_compute. reflexivity.
Defined.

Lemma updateMax_comm (a b m : option Z) :
  updateMax a (updateMax b m) = updateMax b (updateMax a m).
Proof.
  destruct a as [a |], b as [b |], m as [m |]; cbn; try reflexivity; f_equal; lia.
Qed.

Lemma parseProfileUri_throw (uri msg : string) :
  parseProfileUri uri = Throw msg -> msg = unsupportedProfileError.
Proof.
  unfold parseProfileUri.
  repeat match goal with
         | |- context [String.eqb ?a ?b] => destruct (String.eqb a b)
         end; congruence.
Qed.

Lemma loopBody_comm (st : LoopState) (p q : Profile2) :
  match loopBody st p with
  | Return s => loopBody s q
  | Throw msg => Throw msg
  end
  = match loopBody st q with
    | Return s => loopBody s p
    | Throw msg => Throw msg
    end.
Proof.
  destruct st as [sup mh mw ma].
  destruct p as [u | d], q as [u' | d']; cbn.
  - destruct (parseProfileUri u) as [l | m] eqn:E1,
      (parseProfileUri u') as [l' | m'] eqn:E2; cbn; rewrite ?E1, ?E2; cbn;
      try reflexivity.
    + f_equal. f_equal. destruct sup, (1 <=? l), (1 <=? l'); reflexivity.
    + apply parseProfileUri_throw in E1, E2. congruence.
  - destruct (parseProfileUri u) as [l | m] eqn:E1; cbn; [| reflexivity].
    f_equal. f_equal. destruct sup, (1 <=? l); cbn;
      rewrite ?orb_true_r, ?orb_false_r; reflexivity.
  - destruct (parseProfileUri u') as [l | m] eqn:E1; cbn; [| reflexivity].
    f_equal. f_equal. destruct sup, (1 <=? l); cbn;
      rewrite ?orb_true_r, ?orb_false_r; reflexivity.
  - f_equal. f_equal.
    + rewrite <- !orb_assoc. f_equal. apply orb_comm.
    + apply updateMax_comm.
    + apply updateMax_comm.
    + apply updateMax_comm.
Qed.

Lemma forEach_permutation (profiles profiles' : list Profile2) (st : LoopState) :
  Permutation profiles profiles' -> forEach profiles st = forEach profiles' st.
Proof.
  intros Hperm. revert st.
  induction Hperm as [| p l l' _ IH | p q l | l l' l'' _ IH1 _ IH2]; intros st.
  - reflexivity.
  - cbn [forEach]. destruct (loopBody st p); [apply IH | reflexivity].
  - cbn [forEach]. pose proof (loopBody_comm st q p) as Hc.
    destruct (loopBody st q) as [s1 | m1], (loopBody st p) as [s2 | m2].
    + rewrite Hc. reflexivity.
    + rewrite Hc. reflexivity.
    + rewrite <- Hc. reflexivity.
    + congruence.
  - rewrite IH1. apply IH2.
Qed.

(** X18: for an Image API 2 service, the outcome of [getProfileProperties]
    does not depend on the order of the profiles. *)
Theorem getProfileProperties_order_independent (profiles profiles' : list Profile2) :
  Permutation profiles profiles' ->
  getProfileProperties (WithAtId profiles) = getProfileProperties (WithAtId profiles').
Proof.
  intros Hperm. unfold getProfileProperties.
  rewrite (forEach_permutation profiles profiles' loopStart Hperm). reflexivity.
Qed.

Lemma getProfileProperties_order_independent_witness :
  getProfileProperties (WithAtId exampleProfiles)
  = getProfileProperties (WithAtId (rev exampleProfiles)).
Proof.
  apply (getProfileProperties_order_independent exampleProfiles (rev exampleProfiles)).
  apply Permutation_rev.
Defined.

End ProfileFacts.

(** * More on fetching a tile *)

Module TileFetchMoreFacts.
Import TileFetch.

Section Invariants.
Context {ImageData : Type}.

(** What holds of a fetch at every moment. *)
Lemma fetch_state_step (s : TileState ImageData) (ev : Signal ImageData) :
  let ok := fun s : TileState ImageData =>
    match phase s with
    | AwaitingFetchUrl | AwaitingBlob =>
        data s = None /\ dispatched s = [] /\ returned s = None
    | AwaitingWorker =>
        data s = None /\ dispatched s = [] /\ returned s = Some None
    | Settled =>
        returned s = Some None
        /\ ((data s = None /\ dispatched s = [])
            \/ (data s = None /\ dispatched s = [TILEFETCHERROR])
            \/ (exists img, data s = Some img /\ dispatched s = [TILEFETCHED]))
    end in
  ok s -> ok (step s ev).
Proof.
  cbn zeta. destruct s as [ph d disp ab calls ret unh].
  destruct ev as [| err | | err | img | |], ph; cbn;
    try (intros H; exact H);
    try (intros (-> & -> & ->); try destruct err; cbn; eauto 8).
Qed.

(** X19: whatever the network, the worker and the aborts do, a fetch
    dispatches at most one event; it dispatches nothing while it is pending;
    and the image data is stored exactly when TILEFETCHED is dispatched. *)
Theorem fetch_events_and_data (trace : list (Signal ImageData)) :
  let s := run fetchCalled trace in
  (List.length (dispatched s) <= 1)%nat
  /\ (phase s <> Settled -> dispatched s = [])
  /\ (is_Some (data s) <-> dispatched s = [TILEFETCHED])
  /\ (dispatched s = [TILEFETCHERROR] -> data s = None).
Proof.
  cbn zeta.
  pose (ok := fun s : TileState ImageData =>
    match phase s with
    | AwaitingFetchUrl | AwaitingBlob =>
        data s = None /\ dispatched s = [] /\ returned s = None
    | AwaitingWorker =>
        data s = None /\ dispatched s = [] /\ returned s = Some None
    | Settled =>
        returned s = Some None
        /\ ((data s = None /\ dispatched s = [])
            \/ (data s = None /\ dispatched s = [TILEFETCHERROR])
            \/ (exists img, data s = Some img /\ dispatched s = [TILEFETCHED]))
    end).
  assert (Hrun : forall tr s, ok s -> ok (run s tr)).
  { induction tr as [| ev tr IH]; intros s Hs; [exact Hs |].
    change (run s (ev :: tr)) with (run (step s ev) tr).
    apply IH. apply (fetch_state_step s ev). exact Hs. }
  assert (H0 : ok (@fetchCalled ImageData)) by (cbn; auto).
  specialize (Hrun trace fetchCalled H0). unfold ok in Hrun.
  destruct (phase (run fetchCalled trace)) eqn:Eph.
  - destruct Hrun as (Hd & He & _). rewrite Hd, He. cbn.
    repeat split; try lia; try discriminate; auto.
    intros [x Hx]; discriminate.
  - destruct Hrun as (Hd & He & _). rewrite Hd, He. cbn.
    repeat split; try lia; try discriminate; auto.
    intros [x Hx]; discriminate.
  - destruct Hrun as (Hd & He & _). rewrite Hd, He. cbn.
    repeat split; try lia; try discriminate; auto.
    intros [x Hx]; discriminate.
  - destruct Hrun as (_ & [(Hd & He) | [(Hd & He) | (img & Hd & He)]]);
      rewrite Hd, He; cbn;
      repeat split; try lia; try discriminate; try congruence; eauto.
    + intros [x Hx]; discriminate.
    + intros [x Hx]; discriminate.
Qed.

(** X20: the promise of [fetch()] never carries the image: when it
    resolves, it resolves with [undefined], and it has done so by the time
    the worker is given the blob, before the image exists. *)
Theorem fetch_returns_undefined (trace : list (Signal ImageData)) :
  let s := run fetchCalled trace in
  (returned s = None \/ returned s = Some None)
  /\ (phase s = AwaitingWorker \/ phase s = Settled -> returned s = Some None)
  /\ (is_Some (data s) -> returned s = Some None).
Proof.
  cbn zeta.
  pose (ok := fun s : TileState ImageData =>
    match phase s with
    | AwaitingFetchUrl | AwaitingBlob =>
        data s = None /\ dispatched s = [] /\ returned s = None
    | AwaitingWorker =>
        data s = None /\ dispatched s = [] /\ returned s = Some None
    | Settled =>
        returned s = Some None
        /\ ((data s = None /\ dispatched s = [])
            \/ (data s = None /\ dispatched s = [TILEFETCHERROR])
            \/ (exists img, data s = Some img /\ dispatched s = [TILEFETCHED]))
    end).
  assert (Hrun : forall tr s, ok s -> ok (run s tr)).
  { induction tr as [| ev tr IH]; intros s Hs; [exact Hs |].
    change (run s (ev :: tr)) with (run (step s ev) tr).
    apply IH. apply (fetch_state_step s ev). exact Hs. }
  assert (H0 : ok (@fetchCalled ImageData)) by (cbn; auto).
  specialize (Hrun trace fetchCalled H0). unfold ok in Hrun.
  destruct (phase (run fetchCalled trace)) eqn:Eph.
  - destruct Hrun as (Hd & _ & Hr). rewrite Hd, Hr.
    repeat split; auto.
    + intros [E | E]; discriminate.
    + intros [x Hx]; discriminate.
  - destruct Hrun as (Hd & _ & Hr). rewrite Hd, Hr.
    repeat split; auto.
    + intros [E | E]; discriminate.
    + intros [x Hx]; discriminate.
  - destruct Hrun as (Hd & _ & Hr). rewrite Hr. repeat split; auto.
  - destruct Hrun as (Hr & _). rewrite Hr. repeat split; auto.
Qed.

End Invariants.

End TileFetchMoreFacts.

(** * The Leaflet layer *)

Module LeafletFacts.
Import JS Geometry Matrix Leaflet.

Lemma hexDigitValue_range (c : ascii) (v : Z) :
  hexDigitValue c = Some v -> (0 <= v <= 15)%Z.
Proof.
  unfold hexDigitValue.
  set (n := Z.of_nat (nat_of_ascii c)).
  destruct ((48 <=? n)%Z && (n <=? 57)%Z) eqn:E1.
  - intros [= <-]. apply andb_prop in E1. destruct E1. lia.
  - destruct ((97 <=? n)%Z && (n <=? 102)%Z) eqn:E2.
    + intros [= <-]. apply andb_prop in E2. destruct E2. lia.
    + destruct ((65 <=? n)%Z && (n <=? 70)%Z) eqn:E3; [| discriminate].
      intros [= <-]. apply andb_prop in E3. destruct E3. lia.
Qed.

Lemma parseHexPair_range (hi lo : ascii) (v : Z) :
  parseHexPair hi lo = Some v -> (0 <= v <= 255)%Z.
Proof.
  unfold parseHexPair.
  destruct (hexDigitValue hi) as [h |] eqn:Eh; [| discriminate].
  destruct (hexDigitValue lo) as [l |] eqn:El; [| discriminate].
  intros [= <-].
  apply hexDigitValue_range in Eh, El. lia.
Qed.

Lemma channel_range (n : Z) :
  (0 <= n <= 255)%Z ->
  (0 <= inject_Z n / 256)%Q /\ (inject_Z n / 256 <= 255 # 256)%Q
  /\ (inject_Z n / 256 < 1)%Q.
Proof.
  intros Hn. unfold Qle, Qlt, Qdiv, Qmult, Qinv, inject_Z; cbn. lia.
Qed.

(** X21: every color [hexToRgb] returns has three channels that are whole
    256ths between 0 and 255/256: no channel reaches 1, not even for
    "#ffffff"; and the leading "#" makes no difference. *)
Theorem hexToRgb_channels (hex : string) (r g b : Q) :
  hexToRgb (Some hex) = Some (r, g, b) ->
  (exists nr ng nb : Z,
      (0 <= nr <= 255)%Z /\ (0 <= ng <= 255)%Z /\ (0 <= nb <= 255)%Z
      /\ r = (inject_Z nr / 256)%Q /\ g = (inject_Z ng / 256)%Q
      /\ b = (inject_Z nb / 256)%Q)
  /\ (0 <= r)%Q /\ (r < 1)%Q /\ (0 <= g)%Q /\ (g < 1)%Q
  /\ (0 <= b)%Q /\ (b < 1)%Q
  /\ hexToRgb (Some (String "#"%char (stripHash hex))) = Some (r, g, b)
  /\ hexToRgb (Some (stripHash hex)) = Some (r, g, b).
Proof.
  intros H.
  assert (Hne : hex <> EmptyString) by (intros ->; discriminate H).
  assert (Hshape : exists r1 r2 g1 g2 b1 b2 nr ng nb,
             stripHash hex
             = String r1 (String r2 (String g1 (String g2 (String b1 (String b2
                 EmptyString)))))
             /\ parseHexPair r1 r2 = Some nr /\ parseHexPair g1 g2 = Some ng
             /\ parseHexPair b1 b2 = Some nb
             /\ (r, g, b) = (inject_Z nr / 256, inject_Z ng / 256,
                             inject_Z nb / 256)%Q).
  { unfold hexToRgb in H. destruct hex as [| c0 rest]; [congruence |].
    destruct (stripHash (String c0 rest))
      as [| r1 [| r2 [| g1 [| g2 [| b1 [| b2 [| x xs]]]]]]]; try discriminate.
    destruct (parseHexPair r1 r2) as [nr |] eqn:Er; [| discriminate].
    destruct (parseHexPair g1 g2) as [ng |] eqn:Eg; [| discriminate].
    destruct (parseHexPair b1 b2) as [nb |] eqn:Eb; [| discriminate].
    injection H as <- <- <-.
    exists r1, r2, g1, g2, b1, b2, nr, ng, nb. auto 10. }
  destruct Hshape as (r1 & r2 & g1 & g2 & b1 & b2 & nr & ng & nb
                      & Es & Er & Eg & Eb & E).
  injection E as -> -> ->.
  pose proof (parseHexPair_range _ _ _ Er) as Rr.
  pose proof (parseHexPair_range _ _ _ Eg) as Rg.
  pose proof (parseHexPair_range _ _ _ Eb) as Rb.
  destruct (channel_range nr Rr) as (? & _ & ?).
  destruct (channel_range ng Rg) as (? & _ & ?).
  destruct (channel_range nb Rb) as (? & _ & ?).
  split; [exists nr, ng, nb; auto 10 |].
  repeat (split; [assumption |]).
  assert (Hr1 : r1 <> "#"%char).
  { intros ->. unfold parseHexPair in Er. cbn in Er. discriminate. }
  split.
  - unfold hexToRgb. cbn [stripHash].
    destruct (Ascii.eqb_spec "#"%char "#"%char) as [_ | Hx]; [| congruence].
    rewrite Es, Er, Eg, Eb. reflexivity.
  - rewrite Es. unfold hexToRgb.
    assert (Hs : stripHash (String r1 (String r2 (String g1 (String g2
                   (String b1 (String b2 EmptyString))))))
                 = String r1 (String r2 (String g1 (String g2
                   (String b1 (String b2 EmptyString)))))).
    { unfold stripHash.
      destruct r1 as [[] [] [] [] [] [] [] []]; try reflexivity.
      exfalso. apply Hr1. reflexivity. }
    rewrite Hs, Er, Eg, Eb. reflexivity.
Qed.

Lemma hexToRgb_channels_witness :
  (exists nr ng nb : Z,
      (0 <= nr <= 255)%Z /\ (0 <= ng <= 255)%Z /\ (0 <= nb <= 255)%Z
      /\ (255 # 256) = (inject_Z nr / 256)%Q /\ (128 # 256) = (inject_Z ng / 256)%Q
      /\ (0 # 256) = (inject_Z nb / 256)%Q)
  /\ (0 <= 255 # 256)%Q /\ (255 # 256 < 1)%Q /\ (0 <= 128 # 256)%Q
  /\ (128 # 256 < 1)%Q /\ (0 <= 0 # 256)%Q /\ (0 # 256 < 1)%Q
  /\ hexToRgb (Some (String "#"%char (stripHash "#FF8000")))
     = Some (255 # 256, 128 # 256, 0 # 256)
  /\ hexToRgb (Some (stripHash "#FF8000"))
     = Some (255 # 256, 128 # 256, 0 # 256).
Proof.
  apply (hexToRgb_channels "#FF8000" (255 # 256) (128 # 256) (0 # 256)).
  vm_compute. reflexivity.
Defined.

Local Open Scope R_scope.

(** X22: the coordinateToPixelTransform of [computeFrameState] sends the
    center of the bounds to the center of the map in pixels and every point
    of the bounds to a pixel of the map: the resolution is chosen so that
    the whole extent fits. *)
Theorem computeFrameState_extent_fits (w h : R) (southWest northEast p : Point) :
  0 < w -> 0 < h ->
  fst southWest <= fst northEast -> snd southWest <= snd northEast ->
  fst southWest < fst northEast \/ snd southWest < snd northEast ->
  fst southWest <= fst p <= fst northEast ->
  snd southWest <= snd p <= snd northEast ->
  let frameState := computeFrameState (w, h) southWest northEast in
  let t := coordinateToPixelTransform frameState in
  applyTransform t (center frameState) = (w / 2, h / 2)
  /\ 0 <= fst (applyTransform t p) <= w
  /\ 0 <= snd (applyTransform t p) <= h.
Proof.
  intros Hw Hh Hx Hy Hpos Hpx Hpy.
  destruct southWest as [x0 y0], northEast as [x1 y1], p as [px py].
  cbn [fst snd] in *. cbn zeta.
  unfold computeFrameState. cbn [fst snd coordinateToPixelTransform center].
  set (res := Rmax ((x1 - x0) / w) ((y1 - y0) / h)).
  assert (Hrx : (x1 - x0) / w <= res) by apply Rmax_l.
  assert (Hry : (y1 - y0) / h <= res) by apply Rmax_r.
  assert (Ex : w * ((x1 - x0) / w) = x1 - x0) by (field; lra).
  assert (Ey : h * ((y1 - y0) / h) = y1 - y0) by (field; lra).
  assert (Hres : 0 < res).
  { destruct Hpos as [Hp | Hp].
    - assert (0 < (x1 - x0) / w); [| lra].
      apply Rmult_lt_0_compat; [lra | apply Rinv_0_lt_compat; lra].
    - assert (0 < (y1 - y0) / h); [| lra].
      apply Rmult_lt_0_compat; [lra | apply Rinv_0_lt_compat; lra]. }
  assert (Hbx : x1 - x0 <= res * w) by nra.
  assert (Hby : y1 - y0 <= res * h) by nra.
  unfold composeTransform, applyTransform. cbn [fst snd t0 t1 t2 t3 t4 t5].
  rewrite Ropp_0, cos_0, sin_0.
  assert (Hinv : 0 < / res) by (apply Rinv_0_lt_compat; exact Hres).
  assert (Hone : res * / res = 1) by (apply Rinv_r; lra).
  split; [apply injective_projections; cbn [fst snd]; field; lra |].
  split.
  - replace (1 / res * 1 * px + - (1 / res) * 0 * py +
             (- ((x0 + x1) / 2) * (1 / res) * 1 - - ((y0 + y1) / 2) * (1 / res) * 0
              + w / 2))
      with ((px - (x0 + x1) / 2) * / res + w / 2) by (field; lra).
    split; nra.
  - replace (-1 / res * 0 * px + -1 / res * 1 * py +
             (- ((x0 + x1) / 2) * (-1 / res) * 0 + - ((y0 + y1) / 2) * (-1 / res) * 1
              + h / 2))
      with (((y0 + y1) / 2 - py) * / res + h / 2) by (field; lra).
    split; nra.
Qed.

Lemma computeFrameState_extent_fits_witness :
  let frameState := computeFrameState (200, 100) (0, 0) (400, 100) in
  let t := coordinateToPixelTransform frameState in
  applyTransform t (center frameState) = (200 / 2, 100 / 2)
  /\ 0 <= fst (applyTransform t (400, 0)) <= 200
  /\ 0 <= snd (applyTransform t (400, 0)) <= 100.
Proof.
  apply (computeFrameState_extent_fits 200 100 (0, 0) (400, 100) (400, 0));
    cbn; lra.
Defined.

End LeafletFacts.

(** * The command [annotation image-ids] *)

Module CliFacts.
Import Cli.

Lemma setAdd_spec (value : string) (set : list string) :
  NoDup set ->
  NoDup (setAdd value set)
  /\ (forall x, In x (setAdd value set) <-> In x set \/ x = value).
Proof.
  intros Hnd. unfold setAdd.
  destruct (existsb (String.eqb value) set) eqn:Eex.
  - split; [exact Hnd |]. intros x. split; [auto |].
    intros [Hx | ->]; [exact Hx |].
    apply existsb_exists in Eex. destruct Eex as [y [Hy Ey]].
    apply String.eqb_eq in Ey. subst y. exact Hy.
  - split.
    + apply NoDup_app; [exact Hnd | repeat constructor; intros [] |].
      intros x Hx [E | []]. subst x.
      assert (Ht : existsb (String.eqb value) set = true).
      { apply existsb_exists. exists value.
        split; [exact Hx | apply String.eqb_refl]. }
      congruence.
    + intros x. rewrite in_app_iff. cbn. intuition congruence.
Qed.

Lemma fold_setAdd_spec (values set : list string) :
  NoDup set ->
  let result := fold_left (fun set value => setAdd value set) values set in
  NoDup result /\ (forall x, In x result <-> In x set \/ In x values).
Proof.
  revert set. induction values as [| v values IH]; intros set Hnd; cbn zeta.
  - cbn. split; [exact Hnd |]. intros x. intuition.
  - cbn [fold_left]. destruct (setAdd_spec v set Hnd) as [Hnd' Hin'].
    destruct (IH (setAdd v set) Hnd') as [Hr Hin]. split; [exact Hr |].
    intros x. rewrite Hin, Hin'. cbn. intuition.
Qed.

Lemma fold_setAdd_distinct (values set : list string) :
  NoDup (set ++ values) ->
  fold_left (fun set value => setAdd value set) values set = set ++ values.
Proof.
  revert set. induction values as [| v values IH]; intros set Hnd.
  - cbn. rewrite app_nil_r. reflexivity.
  - cbn [fold_left].
    assert (Hv : existsb (String.eqb v) set = false).
    { destruct (existsb (String.eqb v) set) eqn:Eex; [| reflexivity].
      apply existsb_exists in Eex. destruct Eex as [y [Hy Ey]].
      apply String.eqb_eq in Ey. subst y.
      apply NoDup_remove_2 in Hnd. exfalso. apply Hnd.
      apply in_or_app. left. exact Hy. }
    unfold setAdd at 2. rewrite Hv.
    rewrite IH; rewrite <- app_assoc; [reflexivity | exact Hnd].
Qed.

(** X23: [image-ids] prints every image id of the maps, each once; when
    the maps have distinct images it prints their ids in the order of the
    maps. *)
Theorem image_ids_printed_once (resourceIds : list string) :
  NoDup (newSet resourceIds)
  /\ (forall id, In id (newSet resourceIds) <-> In id resourceIds)
  /\ (NoDup resourceIds -> newSet resourceIds = resourceIds)
  /\ imageIdsOutput resourceIds = String.concat newline (newSet resourceIds).
Proof.
  unfold newSet.
  destruct (fold_setAdd_spec resourceIds [] (NoDup_nil _)) as [Hnd Hin].
  split; [exact Hnd |]. split.
  - intros id. rewrite Hin. cbn. intuition.
  - split; [| reflexivity].
    intros H. apply (fold_setAdd_distinct resourceIds []). exact H.
Qed.

End CliFacts.
